(** * PR review assigner: the service layer over its directory store

    A shallow embedding of the Go packages [repo] (the store interface and
    its PostgreSQL implementation), [service] (the assignment engine) and of
    the in-memory [mockRepo] the service tests run against, followed by the
    properties of the engine.  The engine is written once, over the
    interface; its properties are proved over the PostgreSQL repository the
    server is wired with, and over any store where the code allows.  The
    HTTP endpoints of package [handlers] and their responses come last. *)

From Stdlib Require Import ZArith.
From stdpp Require Import base strings list gmap.

#[local] Set Warnings "-clear-no-such-hyp".

Open Scope string_scope.
Open Scope list_scope.
Open Scope nat_scope.

(** ** Go values shared by all packages *)

(** Go's [error] values that occur in the program: the six sentinel errors
    of package [service], errors made on the spot with [errors.New], and the
    two errors the database driver reports for the statements of package
    [repo] (no row for a single-row read, a duplicate key on insert). *)
Inductive error : Type :=
  | ErrTeamExists
  | ErrPRExists
  | ErrPRMerged
  | ErrNotAssigned
  | ErrNoCandidate
  | ErrNotFound
  | errors_New (msg : string)
  | sql_ErrNoRows
  | pq_unique_violation (table : string).

(** A Go return pair [(value, error)] of which exactly one side is set. *)
Inductive result (A : Type) : Type :=
  | Ok (a : A)
  | Err (e : error).
Arguments Ok {A} a.
Arguments Err {A} e.

(** A pointer handed out by a store of type [R]: the value it points to,
    and what a later write through the pointer does to the store.  The
    PostgreSQL repository returns pointers to fresh locals (a write leaves
    the store alone); the mock returns pointers into its own maps. *)
Record ref (R A : Type) : Type := mkRef {
  deref : A;
  assign : A -> R -> R
}.
Arguments mkRef {R A} deref assign.
Arguments deref {R A} r.
Arguments assign {R A} r v s.

(** Go's [int] and [int64] on the 64-bit targets the image is built for. *)
Definition wrap64 (z : Z) : Z := ((z + 2 ^ 63) mod 2 ^ 64 - 2 ^ 63)%Z.

(** ** math/rand *)

(** The pseudo-random source is a supply of raw draws; an exhausted supply
    keeps answering 0.  [Intn n] reduces one draw into [0, n); every call
    in the program has [n > 0] (Go panics otherwise). *)
Definition Intn (src : list nat) (n : nat) : nat * list nat :=
  match src with
  | [] => (0, [])
  | r :: src' => (r mod n, src')
  end.

(** The [swap] closure of [assignReviewers]:
    [candidates[i], candidates[j] = candidates[j], candidates[i]]. *)
Definition swap {A} (l : list A) (i j : nat) : list A :=
  match l !! i, l !! j with
  | Some a, Some b => <[i:=b]> (<[j:=a]> l)
  | _, _ => l
  end.

(** [rand.Shuffle(n, swap)]: Fisher-Yates, [i] running from [n-1] down to 1
    with [j := Intn(i+1)]. *)
Fixpoint Shuffle_from {A} (i : nat) (src : list nat) (l : list A)
  : list A * list nat :=
  match i with
  | 0 => (l, src)
  | S i' =>
      let '(j, src') := Intn src (S i) in
      Shuffle_from i' src' (swap l i j)
  end.

Definition Shuffle {A} (src : list nat) (l : list A) : list A * list nat :=
  Shuffle_from (length l - 1) src l.

(** ** Package repo: data structures and the store interface *)

Module repo.

Record User : Type := mkUser {
  User_ID : string;
  User_Name : string;
  User_IsActive : bool;
  User_TeamName : string
}.

Record Team : Type := mkTeam {
  Team_ID : Z;
  Team_Name : string
}.

Record TeamMember : Type := mkTeamMember {
  TeamMember_UserID : string;
  TeamMember_Username : string;
  TeamMember_IsActive : bool
}.

Record PR : Type := mkPR {
  PR_ID : string;
  PR_Title : string;
  PR_AuthorID : string;
  PR_Status : string;
  PR_Reviewers : list User
}.

#[global] Instance User_eq_dec : EqDecision User.
Proof. solve_decision. Defined.
#[global] Instance Team_eq_dec : EqDecision Team.
Proof. solve_decision. Defined.
#[global] Instance PR_eq_dec : EqDecision PR.
Proof. solve_decision. Defined.

(** [RepoInterface]: one field per method, in the order of the Go
    declaration.  Reads return a result; writes return the new store and
    Go's [error] ([None] for [nil]). *)
Class RepoInterface (R : Type) : Type := {
  (* Users *)
  CreateUser : R -> string -> string -> R * option error;
  GetUserByID : R -> string -> result (ref R User);
  SetUserActive : R -> string -> bool -> R * option error;
  (* Teams *)
  TeamExists : R -> string -> result bool;
  CreateTeam : R -> string -> R * result Z;
  AddMember : R -> Z -> string -> R * option error;
  GetTeamByName : R -> string -> result (ref R Team);
  GetTeamMembers : R -> string -> result (list User);
  GetActiveTeamMembersExcept : R -> string -> string -> result (list User);
  (* PRs *)
  PRExists : R -> string -> result bool;
  CreatePRWithID : R -> string -> string -> string -> R * option error;
  GetPRByID : R -> string -> result (ref R PR);
  AddReviewer : R -> string -> string -> R * option error;
  RemoveReviewer : R -> string -> string -> R * option error;
  GetPRReviewers : R -> string -> result (list User);
  SetPRStatus : R -> string -> string -> R * option error;
  GetPRsByReviewer : R -> string -> result (list PR);
  GetUserTeam : R -> string -> result string;
  GetRandomActiveTeamMember : R -> string -> string -> R * result (ref R User);
  (* Assignment events *)
  AddAssignmentEvent : R -> string -> string -> R * option error;
  GetAssignmentStats : R -> result (gmap string Z);
  (* Bulk operations *)
  DeactivateTeamMembers : R -> Z -> R * option error;
  GetOpenPRsWithReviewersByUserIDs : R -> list string -> result (list PR)
}.

(** *** The PostgreSQL repository [Repo]

    [Repo] wraps a database handle; its state is the content of the six
    tables its statements name.  A table is the list of its rows in storage
    order, and a SELECT without ORDER BY scans in that order.  Statements
    fail only for what they say themselves (no row, duplicate key); a lost
    connection or a cancelled context is outside the model. *)
Module Repo.

Record users_row : Type := mk_users {
  users_id : string; users_name : string; users_is_active : bool }.
Record teams_row : Type := mk_teams {
  teams_id : Z; teams_name : string }.
Record team_members_row : Type := mk_team_members {
  tm_team_id : Z; tm_user_id : string }.
Record prs_row : Type := mk_prs {
  prs_id : string; prs_title : string; prs_author_id : string;
  prs_status : string }.
Record pr_reviewers_row : Type := mk_pr_reviewers {
  rv_pr_id : string; rv_user_id : string }.
Record assignment_events_row : Type := mk_assignment_events {
  ev_pr_id : string; ev_user_id : string }.

#[global] Instance users_row_eq_dec : EqDecision users_row.
Proof. solve_decision. Defined.
#[global] Instance prs_row_eq_dec : EqDecision prs_row.
Proof. solve_decision. Defined.
#[global] Instance pr_reviewers_row_eq_dec : EqDecision pr_reviewers_row.
Proof. solve_decision. Defined.
#[global] Instance team_members_row_eq_dec : EqDecision team_members_row.
Proof. solve_decision. Defined.

(** The database: the tables, the sequence behind [teams.id], and the
    supply of draws behind [RANDOM()]. *)
Record DB : Type := mkDB {
  users : list users_row;
  teams : list teams_row;
  team_members : list team_members_row;
  prs : list prs_row;
  pr_reviewers : list pr_reviewers_row;
  assignment_events : list assignment_events_row;
  teams_id_seq : Z;
  random : list nat
}.

Definition with_users (f : list users_row -> list users_row) (d : DB) : DB :=
  mkDB (f (users d)) (teams d) (team_members d) (prs d) (pr_reviewers d)
       (assignment_events d) (teams_id_seq d) (random d).
Definition with_team_members
    (f : list team_members_row -> list team_members_row) (d : DB) : DB :=
  mkDB (users d) (teams d) (f (team_members d)) (prs d) (pr_reviewers d)
       (assignment_events d) (teams_id_seq d) (random d).
Definition with_prs (f : list prs_row -> list prs_row) (d : DB) : DB :=
  mkDB (users d) (teams d) (team_members d) (f (prs d)) (pr_reviewers d)
       (assignment_events d) (teams_id_seq d) (random d).
Definition with_pr_reviewers
    (f : list pr_reviewers_row -> list pr_reviewers_row) (d : DB) : DB :=
  mkDB (users d) (teams d) (team_members d) (prs d) (f (pr_reviewers d))
       (assignment_events d) (teams_id_seq d) (random d).
Definition with_assignment_events
    (f : list assignment_events_row -> list assignment_events_row) (d : DB)
  : DB :=
  mkDB (users d) (teams d) (team_members d) (prs d) (pr_reviewers d)
       (f (assignment_events d)) (teams_id_seq d) (random d).
Definition with_random (src : list nat) (d : DB) : DB :=
  mkDB (users d) (teams d) (team_members d) (prs d) (pr_reviewers d)
       (assignment_events d) (teams_id_seq d) src.

(** The table declarations (the migrations) are not among the sources.
    The keys the inserts below check are: [users.id] (the conflict target
    [CreateUser] names), the team name and the PR id (both unique by the
    spec), and the pairs the two ON CONFLICT DO NOTHING inserts name, one
    membership per (team, user) and one reviewer binding per (PR, user).
    The column defaults follow. *)

(** Modelled from the spec: the default of [users.is_active], missing with
    the migrations; a user is created active (as the mock creates it). *)
Definition users_is_active_default : bool := true.

(** Modelled from the spec: the default of [prs.status], missing with the
    migrations; the initial state of a PR is always OPEN. *)
Definition prs_status_default : string := "OPEN".

(** Modelled from the spec: the database after the migrations, missing
    from the sources: six empty tables, the serial of [teams.id] at 1. *)
Definition empty : DB := mkDB [] [] [] [] [] [] 1 [].

(** The statement forms the repository uses, on one table:
    [UPDATE ... SET ... WHERE P], [DELETE ... WHERE P], and the key check
    behind an INSERT. *)
Definition UPDATE {A} (P : A -> Prop) `{!∀ x, Decision (P x)} (set : A -> A)
    (rows : list A) : list A :=
  (fun row => if decide (P row) then set row else row) <$> rows.

Definition DELETE {A} (P : A -> Prop) `{!∀ x, Decision (P x)}
    (rows : list A) : list A :=
  filter (fun row => ¬ P row) rows.

Definition conflict {A} (P : A -> Prop) `{!∀ x, Decision (P x)}
    (rows : list A) : bool :=
  bool_decide (Exists P rows).

Definition set_name (name : string) (u : users_row) : users_row :=
  mk_users (users_id u) name (users_is_active u).
Definition set_is_active (active : bool) (u : users_row) : users_row :=
  mk_users (users_id u) (users_name u) active.
Definition set_status (status : string) (p : prs_row) : prs_row :=
  mk_prs (prs_id p) (prs_title p) (prs_author_id p) status.

(** [GetContext]: the first row of the result, or [sql.ErrNoRows]. *)
Definition GetContext {A} (rows : list A) : result A :=
  match rows with
  | [] => Err sql_ErrNoRows
  | r :: _ => Ok r
  end.

(** A pointer to a local variable of the method: writes stay local. *)
Definition local {A} (a : A) : ref DB A := mkRef a (fun _ d => d).

(** Scanning [id, name, is_active] into a [User]; [TeamName] has tag
    [db:"-"] and stays empty. *)
Definition scan_User (u : users_row) : User :=
  mkUser (users_id u) (users_name u) (users_is_active u) "".
Definition scan_Team (t : teams_row) : Team :=
  mkTeam (teams_id t) (teams_name t).
Definition scan_PR (p : prs_row) : PR :=
  mkPR (prs_id p) (prs_title p) (prs_author_id p) (prs_status p) [].

(* Users *)

(** INSERT INTO users (id, name) VALUES ($1, $2)
    ON CONFLICT (id) DO UPDATE SET name = $2 *)
Definition CreateUser (d : DB) (userID username : string) : DB * option error :=
  if conflict (fun u => users_id u = userID) (users d)
  then (with_users
          (UPDATE (fun u => users_id u = userID) (set_name username)) d, None)
  else (with_users
          (fun us => us ++ [mk_users userID username users_is_active_default])
          d, None).

(** SELECT id, name, is_active FROM users WHERE id=$1 *)
Definition GetUserByID (d : DB) (userID : string) : result (ref DB User) :=
  match GetContext (filter (fun u => users_id u = userID) (users d)) with
  | Err e => Err e
  | Ok u => Ok (local (scan_User u))
  end.

(** UPDATE users SET is_active=$1 WHERE id=$2 *)
Definition SetUserActive (d : DB) (userID : string) (active : bool)
  : DB * option error :=
  (with_users
     (UPDATE (fun u => users_id u = userID) (set_is_active active)) d, None).

(* Teams *)

(** SELECT COUNT( * ) FROM teams WHERE name = $1;  [count > 0] *)
Definition TeamExists (d : DB) (name : string) : result bool :=
  Ok (bool_decide
        (0 < length (filter (fun t => teams_name t = name) (teams d)))).

(** INSERT INTO teams (name) VALUES ($1) RETURNING id *)
Definition CreateTeam (d : DB) (name : string) : DB * result Z :=
  if conflict (fun t => teams_name t = name) (teams d)
  then (d, Err (pq_unique_violation "teams"))
  else
    let id := teams_id_seq d in
    (mkDB (users d) (teams d ++ [mk_teams id name]) (team_members d) (prs d)
          (pr_reviewers d) (assignment_events d) (id + 1)%Z (random d),
     Ok id).

(** INSERT INTO team_members (team_id, user_id) VALUES ($1, $2)
    ON CONFLICT DO NOTHING *)
Definition AddMember (d : DB) (teamID : Z) (userID : string)
  : DB * option error :=
  if conflict (fun tm => tm = mk_team_members teamID userID) (team_members d)
  then (d, None)
  else (with_team_members (fun ms => ms ++ [mk_team_members teamID userID]) d,
        None).

(** SELECT id, name FROM teams WHERE name=$1 *)
Definition GetTeamByName (d : DB) (name : string) : result (ref DB Team) :=
  match GetContext (filter (fun t => teams_name t = name) (teams d)) with
  | Err e => Err e
  | Ok t => Ok (local (scan_Team t))
  end.

(** FROM users u JOIN team_members tm ON u.id = tm.user_id
               JOIN teams t ON t.id = tm.team_id
    WHERE t.name = $1 [AND further conditions on u] *)
Definition team_users (d : DB) (teamName : string) (cond : users_row -> bool)
  : list users_row :=
  u ← users d; tm ← team_members d; t ← teams d;
  if bool_decide (users_id u = tm_user_id tm ∧ teams_id t = tm_team_id tm
                  ∧ teams_name t = teamName) && cond u
  then [u] else [].

(** SELECT u.id, u.name, u.is_active FROM ... WHERE t.name = $1 *)
Definition GetTeamMembers (d : DB) (teamName : string) : result (list User) :=
  Ok (scan_User <$> team_users d teamName (fun _ => true)).

(** ... WHERE t.name = $1 AND u.is_active = true AND u.id != $2 *)
Definition active_except (excludeUserID : string) (u : users_row) : bool :=
  bool_decide (users_is_active u = true)
  && bool_decide (users_id u ≠ excludeUserID).

Definition GetActiveTeamMembersExcept (d : DB) (teamName excludeUserID : string)
  : result (list User) :=
  Ok (scan_User <$> team_users d teamName (active_except excludeUserID)).

(* PRs *)

(** SELECT COUNT( * ) FROM prs WHERE id = $1;  [count > 0] *)
Definition PRExists (d : DB) (prID : string) : result bool :=
  Ok (bool_decide (0 < length (filter (fun p => prs_id p = prID) (prs d)))).

(** INSERT INTO prs (id, title, author_id) VALUES ($1, $2, $3) *)
Definition CreatePRWithID (d : DB) (prID title authorID : string)
  : DB * option error :=
  if conflict (fun p => prs_id p = prID) (prs d)
  then (d, Some (pq_unique_violation "prs"))
  else (with_prs
          (fun ps => ps ++ [mk_prs prID title authorID prs_status_default]) d,
        None).

(** SELECT id, title, author_id, status FROM prs WHERE id = $1 *)
Definition GetPRByID (d : DB) (prID : string) : result (ref DB PR) :=
  match GetContext (filter (fun p => prs_id p = prID) (prs d)) with
  | Err e => Err e
  | Ok p => Ok (local (scan_PR p))
  end.

(** INSERT INTO pr_reviewers (pr_id, user_id) VALUES ($1, $2)
    ON CONFLICT DO NOTHING *)
Definition AddReviewer (d : DB) (prID userID : string) : DB * option error :=
  if conflict (fun r => r = mk_pr_reviewers prID userID) (pr_reviewers d)
  then (d, None)
  else (with_pr_reviewers (fun rs => rs ++ [mk_pr_reviewers prID userID]) d,
        None).

(** DELETE FROM pr_reviewers WHERE pr_id = $1 AND user_id = $2 *)
Definition RemoveReviewer (d : DB) (prID userID : string)
  : DB * option error :=
  (with_pr_reviewers
     (DELETE (fun r => rv_pr_id r = prID ∧ rv_user_id r = userID)) d, None).

(** FROM pr_reviewers pr JOIN users u ON u.id = pr.user_id
    WHERE pr.pr_id = $1 *)
Definition pr_users (d : DB) (prID : string) : list users_row :=
  r ← pr_reviewers d; u ← users d;
  if bool_decide (users_id u = rv_user_id r ∧ rv_pr_id r = prID)
  then [u] else [].

(** SELECT u.id, u.name, u.is_active FROM ... WHERE pr.pr_id = $1 *)
Definition GetPRReviewers (d : DB) (prID : string) : result (list User) :=
  Ok (scan_User <$> pr_users d prID).

(** UPDATE prs SET status=$1 WHERE id=$2 *)
Definition SetPRStatus (d : DB) (prID status : string) : DB * option error :=
  (with_prs (UPDATE (fun p => prs_id p = prID) (set_status status)) d, None).

(** SELECT p.id, p.title, p.author_id, p.status
    FROM prs p JOIN pr_reviewers pr ON p.id = pr.pr_id
    WHERE pr.user_id = $1 *)
Definition GetPRsByReviewer (d : DB) (userID : string) : result (list PR) :=
  Ok (p ← prs d; r ← pr_reviewers d;
      if bool_decide (prs_id p = rv_pr_id r ∧ rv_user_id r = userID)
      then [scan_PR p] else []).

(** SELECT t.name FROM teams t JOIN team_members tm ON t.id = tm.team_id
    WHERE tm.user_id = $1 LIMIT 1 *)
Definition GetUserTeam (d : DB) (userID : string) : result string :=
  GetContext
    (t ← teams d; tm ← team_members d;
     if bool_decide (teams_id t = tm_team_id tm ∧ tm_user_id tm = userID)
     then [teams_name t] else []).

(** ... WHERE t.name = $1 AND u.is_active = true AND u.id != $2
    ORDER BY RANDOM() LIMIT 1: one of the selected rows, which one is up to
    the next draw. *)
Definition GetRandomActiveTeamMember (d : DB) (teamName excludeUserID : string)
  : DB * result (ref DB User) :=
  let rows := team_users d teamName (active_except excludeUserID) in
  match rows with
  | [] => (d, Err sql_ErrNoRows)
  | r0 :: _ =>
      let '(i, src) := Intn (random d) (length rows) in
      (with_random src d, Ok (local (scan_User (nth i rows r0))))
  end.

(* Assignment events *)

(** INSERT INTO assignment_events (pr_id, user_id) VALUES ($1, $2) *)
Definition AddAssignmentEvent (d : DB) (prID userID : string)
  : DB * option error :=
  (with_assignment_events
     (fun es => es ++ [mk_assignment_events prID userID]) d, None).

(** SELECT user_id, COUNT( * ) as assignment_count
    FROM assignment_events GROUP BY user_id *)
Definition assignment_counts (d : DB) : list (string * Z) :=
  (fun uid =>
     (uid, Z.of_nat (length (filter (fun e => ev_user_id e = uid)
                                    (assignment_events d)))))
  <$> remove_dups (ev_user_id <$> assignment_events d).

(** The loop [stats[stat.UserID] = stat.Count] over the grouped rows. *)
Definition GetAssignmentStats (d : DB) : result (gmap string Z) :=
  Ok (foldl (fun stats stat => <[stat.1 := stat.2]> stats) ∅
            (assignment_counts d)).

(* Bulk operations *)

(** UPDATE users SET is_active = false
    WHERE id IN (SELECT user_id FROM team_members WHERE team_id=$1) *)
Definition DeactivateTeamMembers (d : DB) (teamID : Z) : DB * option error :=
  (with_users
     (UPDATE
        (fun u => users_id u ∈
                    tm_user_id <$>
                      filter (fun tm => tm_team_id tm = teamID) (team_members d))
        (set_is_active false)) d, None).

(** SELECT DISTINCT p.id, p.title, p.author_id, p.status
    FROM prs p JOIN pr_reviewers pr ON p.id = pr.pr_id
    WHERE p.status = 'OPEN' AND pr.user_id IN (?) *)
Definition GetOpenPRsWithReviewersByUserIDs (d : DB) (userIDs : list string)
  : result (list PR) :=
  match userIDs with
  | [] => Ok []
  | _ =>
      Ok (scan_PR <$>
          remove_dups
            (p ← prs d; r ← pr_reviewers d;
             if bool_decide (prs_id p = rv_pr_id r ∧ prs_status p = "OPEN"
                             ∧ rv_user_id r ∈ userIDs)
             then [p] else []))
  end.

#[global] Instance Repo_RepoInterface : RepoInterface DB := {|
  repo.CreateUser := CreateUser;
  repo.GetUserByID := GetUserByID;
  repo.SetUserActive := SetUserActive;
  repo.TeamExists := TeamExists;
  repo.CreateTeam := CreateTeam;
  repo.AddMember := AddMember;
  repo.GetTeamByName := GetTeamByName;
  repo.GetTeamMembers := GetTeamMembers;
  repo.GetActiveTeamMembersExcept := GetActiveTeamMembersExcept;
  repo.PRExists := PRExists;
  repo.CreatePRWithID := CreatePRWithID;
  repo.GetPRByID := GetPRByID;
  repo.AddReviewer := AddReviewer;
  repo.RemoveReviewer := RemoveReviewer;
  repo.GetPRReviewers := GetPRReviewers;
  repo.SetPRStatus := SetPRStatus;
  repo.GetPRsByReviewer := GetPRsByReviewer;
  repo.GetUserTeam := GetUserTeam;
  repo.GetRandomActiveTeamMember := GetRandomActiveTeamMember;
  repo.AddAssignmentEvent := AddAssignmentEvent;
  repo.GetAssignmentStats := GetAssignmentStats;
  repo.DeactivateTeamMembers := DeactivateTeamMembers;
  repo.GetOpenPRsWithReviewersByUserIDs := GetOpenPRsWithReviewersByUserIDs
|}.

End Repo.

End repo.

(** ** Package service: the assignment engine *)

Module service.

Section Service.

Context {R : Type} `{!repo.RepoInterface R}.

(** [Service] holds the store it was built with; the global [math/rand]
    source that [New] seeds travels with it. *)
Record Service : Type := mkService {
  Repo : R;
  rand : list nat
}.

Definition New (r : R) (seed : list nat) : Service := mkService r seed.

Definition with_Repo (s : Service) (r : R) : Service := mkService r (rand s).

(** The body of the loop over [members] in [CreateTeam]. *)
Fixpoint CreateTeam_members (r : R) (teamID : Z)
    (members : list repo.TeamMember) : R * option error :=
  match members with
  | [] => (r, None)
  | member :: rest =>
      match repo.CreateUser r (repo.TeamMember_UserID member)
                              (repo.TeamMember_Username member) with
      | (r1, Some err) => (r1, Some err)
      | (r1, None) =>
          match repo.SetUserActive r1 (repo.TeamMember_UserID member)
                                      (repo.TeamMember_IsActive member) with
          | (r2, Some err) => (r2, Some err)
          | (r2, None) =>
              match repo.AddMember r2 teamID (repo.TeamMember_UserID member) with
              | (r3, Some err) => (r3, Some err)
              | (r3, None) => CreateTeam_members r3 teamID rest
              end
          end
      end
  end.

Definition CreateTeam (s : Service) (teamName : string)
    (members : list repo.TeamMember) : Service * option error :=
  match repo.TeamExists (Repo s) teamName with
  | Err err => (s, Some err)
  | Ok true => (s, Some ErrTeamExists)
  | Ok false =>
      match repo.CreateTeam (Repo s) teamName with
      | (r1, Err err) => (with_Repo s r1, Some err)
      | (r1, Ok teamID) =>
          let '(r2, err) := CreateTeam_members r1 teamID members in
          (with_Repo s r2, err)
      end
  end.

Definition GetTeam (s : Service) (teamName : string)
  : result (repo.Team * list repo.User) :=
  match repo.GetTeamByName (Repo s) teamName with
  | Err _ => Err ErrNotFound
  | Ok team =>
      match repo.GetTeamMembers (Repo s) teamName with
      | Err err => Err err
      | Ok members => Ok (deref team, members)
      end
  end.

Definition SetUserActive (s : Service) (userID : string) (active : bool)
  : Service * result repo.User :=
  match repo.GetUserByID (Repo s) userID with
  | Err _ => (s, Err ErrNotFound)
  | Ok user =>
      match repo.SetUserActive (Repo s) userID active with
      | (r1, Some err) => (with_Repo s r1, Err err)
      | (r1, None) =>
          let teamName :=
            match repo.GetUserTeam r1 userID with
            | Ok t => t
            | Err _ => ""
            end in
          (* user.TeamName = teamName; user.IsActive = active *)
          let user' := repo.mkUser (repo.User_ID (deref user))
                                   (repo.User_Name (deref user))
                                   active teamName in
          (with_Repo s (assign user user' r1), Ok user')
      end
  end.

(** [assignReviewers]: up to two of the active members of the team other
    than [excludeUserID], after a shuffle. *)
Definition assignReviewers (s : Service) (teamName excludeUserID : string)
  : Service * result (list repo.User) :=
  match repo.GetActiveTeamMembersExcept (Repo s) teamName excludeUserID with
  | Err err => (s, Err err)
  | Ok candidates =>
      if bool_decide (length candidates = 0) then (s, Ok [])
      else
        let '(candidates, src) := Shuffle (rand s) candidates in
        let limit := if bool_decide (length candidates < 2)
                     then length candidates else 2 in
        (mkService (Repo s) src, Ok (take limit candidates))
  end.

(** The loop over [reviewers] in [CreatePR]: a failed [AddReviewer] skips
    the event, the error of [AddAssignmentEvent] is dropped. *)
Fixpoint CreatePR_bind (r : R) (prID : string) (reviewers : list repo.User)
  : R :=
  match reviewers with
  | [] => r
  | reviewer :: rest =>
      match repo.AddReviewer r prID (repo.User_ID reviewer) with
      | (r1, Some _) => CreatePR_bind r1 prID rest
      | (r1, None) =>
          let '(r2, _) := repo.AddAssignmentEvent r1 prID (repo.User_ID reviewer) in
          CreatePR_bind r2 prID rest
      end
  end.

Definition CreatePR (s : Service) (prID prName authorID : string)
  : Service * result repo.PR :=
  match repo.PRExists (Repo s) prID with
  | Err err => (s, Err err)
  | Ok true => (s, Err ErrPRExists)
  | Ok false =>
      match repo.GetUserByID (Repo s) authorID with
      | Err _ => (s, Err ErrNotFound)
      | Ok _ =>
          match repo.GetUserTeam (Repo s) authorID with
          | Err _ => (s, Err (errors_New "author has no team"))
          | Ok teamName =>
              match repo.CreatePRWithID (Repo s) prID prName authorID with
              | (r1, Some err) => (with_Repo s r1, Err err)
              | (r1, None) =>
                  let '(s2, res) :=
                    assignReviewers (with_Repo s r1) teamName authorID in
                  let reviewers :=
                    match res with Ok reviewers => reviewers | Err _ => [] end in
                  let r3 := CreatePR_bind (Repo s2) prID reviewers in
                  (with_Repo s2 r3,
                   Ok (repo.mkPR prID prName authorID "OPEN" reviewers))
              end
          end
      end
  end.

Definition MergePR (s : Service) (prID : string) : Service * result repo.PR :=
  match repo.GetPRByID (Repo s) prID with
  | Err _ => (s, Err ErrNotFound)
  | Ok pr =>
      if bool_decide (repo.PR_Status (deref pr) = "MERGED") then
        let reviewers :=
          match repo.GetPRReviewers (Repo s) prID with
          | Ok reviewers => reviewers
          | Err _ => []
          end in
        (* pr.Reviewers = reviewers *)
        let pr' := repo.mkPR (repo.PR_ID (deref pr)) (repo.PR_Title (deref pr))
                             (repo.PR_AuthorID (deref pr))
                             (repo.PR_Status (deref pr)) reviewers in
        (with_Repo s (assign pr pr' (Repo s)), Ok pr')
      else
        match repo.SetPRStatus (Repo s) prID "MERGED" with
        | (r1, Some err) => (with_Repo s r1, Err err)
        | (r1, None) =>
            let reviewers :=
              match repo.GetPRReviewers r1 prID with
              | Ok reviewers => reviewers
              | Err _ => []
              end in
            (with_Repo s r1,
             Ok (repo.mkPR (repo.PR_ID (deref pr)) (repo.PR_Title (deref pr))
                           (repo.PR_AuthorID (deref pr)) "MERGED" reviewers))
        end
  end.

(** The loop of [ReassignReviewer] that looks for [oldUserID] among the
    reviewers. *)
Definition oldUserAssigned (reviewers : list repo.User) (oldUserID : string)
  : bool :=
  existsb (fun reviewer => bool_decide (repo.User_ID reviewer = oldUserID))
          reviewers.

Definition ReassignReviewer (s : Service) (prID oldUserID : string)
  : Service * result (repo.PR * string) :=
  match repo.GetPRByID (Repo s) prID with
  | Err _ => (s, Err ErrNotFound)
  | Ok pr =>
      if bool_decide (repo.PR_Status (deref pr) = "MERGED")
      then (s, Err ErrPRMerged)
      else
        match repo.GetPRReviewers (Repo s) prID with
        | Err err => (s, Err err)
        | Ok reviewers =>
            if negb (oldUserAssigned reviewers oldUserID)
            then (s, Err ErrNotAssigned)
            else
              match repo.GetUserTeam (Repo s) oldUserID with
              | Err _ => (s, Err (errors_New "old reviewer has no team"))
              | Ok teamName =>
                  match repo.GetRandomActiveTeamMember (Repo s) teamName
                                                       oldUserID with
                  | (r1, Err _) => (with_Repo s r1, Err ErrNoCandidate)
                  | (r1, Ok newReviewer) =>
                      let newID := repo.User_ID (deref newReviewer) in
                      match repo.RemoveReviewer r1 prID oldUserID with
                      | (r2, Some err) => (with_Repo s r2, Err err)
                      | (r2, None) =>
                          match repo.AddReviewer r2 prID newID with
                          | (r3, Some err) => (with_Repo s r3, Err err)
                          | (r3, None) =>
                              let '(r4, _) :=
                                repo.AddAssignmentEvent r3 prID newID in
                              let updatedReviewers :=
                                match repo.GetPRReviewers r4 prID with
                                | Ok reviewers => reviewers
                                | Err _ => []
                                end in
                              (with_Repo s r4,
                               Ok (repo.mkPR (repo.PR_ID (deref pr))
                                             (repo.PR_Title (deref pr))
                                             (repo.PR_AuthorID (deref pr))
                                             (repo.PR_Status (deref pr))
                                             updatedReviewers,
                                   newID))
                          end
                      end
                  end
              end
        end
  end.

Definition GetUserReviews (s : Service) (userID : string)
  : result (list repo.PR) :=
  match repo.GetUserByID (Repo s) userID with
  | Err _ => Err ErrNotFound
  | Ok _ =>
      match repo.GetPRsByReviewer (Repo s) userID with
      | Err err => Err err
      | Ok prs => Ok prs
      end
  end.

(** The map [GetStats] returns has two keys, ["assignment_stats"] and
    ["timestamp"]; [now] is [time.Now().Format(time.RFC3339)]. *)
Record Stats : Type := mkStats {
  assignment_stats : gmap string Z;
  timestamp : string
}.

Definition GetStats (s : Service) (now : string) : result Stats :=
  match repo.GetAssignmentStats (Repo s) with
  | Err err => Err err
  | Ok stats => Ok (mkStats stats now)
  end.

Definition BulkDeactivateTeam (s : Service) (teamName : string)
    (reassign : bool) : Service * option error :=
  match repo.GetTeamByName (Repo s) teamName with
  | Err _ => (s, Some ErrNotFound)
  | Ok team =>
      match repo.DeactivateTeamMembers (Repo s) (repo.Team_ID (deref team)) with
      | (r1, Some err) => (with_Repo s r1, Some err)
      | (r1, None) => (with_Repo s r1, None)
      end
  end.

(** The calls a client can make that write to the store, and the service
    after a sequence of them (results dropped). *)
Inductive op : Type :=
  | OpCreateTeam (teamName : string) (members : list repo.TeamMember)
  | OpSetUserActive (userID : string) (active : bool)
  | OpCreatePR (prID prName authorID : string)
  | OpMergePR (prID : string)
  | OpReassignReviewer (prID oldUserID : string)
  | OpBulkDeactivateTeam (teamName : string) (reassign : bool).

Definition step (s : Service) (o : op) : Service :=
  match o with
  | OpCreateTeam teamName members => (CreateTeam s teamName members).1
  | OpSetUserActive userID active => (SetUserActive s userID active).1
  | OpCreatePR prID prName authorID => (CreatePR s prID prName authorID).1
  | OpMergePR prID => (MergePR s prID).1
  | OpReassignReviewer prID oldUserID => (ReassignReviewer s prID oldUserID).1
  | OpBulkDeactivateTeam teamName reassign =>
      (BulkDeactivateTeam s teamName reassign).1
  end.

Definition run (s : Service) (ops : list op) : Service := foldl step s ops.

End Service.

Arguments Service R : clear implicits.

End service.

(** ** The in-memory repository of the service tests

    [mockRepo] keeps Go maps and slices.  A map holding pointers is a [gmap]
    to the pointed-to values; a pointer the mock hands out writes back into
    the map entry it was read from.  Where the Go code ranges over a map the
    model visits the entries in [map_to_list] order (Go leaves the order
    open). *)
Module mockRepo.

Record mockRepo : Type := mk {
  users : gmap string repo.User;
  teams : gmap string repo.Team;
  teamMembers : gmap string (list string);
  prs : gmap string repo.PR;
  prReviewers : gmap string (list string);
  assignments : list (string * string)
}.

Definition newMockRepo : mockRepo := mk ∅ ∅ ∅ ∅ ∅ [].

Definition with_users (f : gmap string repo.User -> gmap string repo.User)
    (m : mockRepo) : mockRepo :=
  mk (f (users m)) (teams m) (teamMembers m) (prs m) (prReviewers m)
     (assignments m).
Definition with_prs (f : gmap string repo.PR -> gmap string repo.PR)
    (m : mockRepo) : mockRepo :=
  mk (users m) (teams m) (teamMembers m) (f (prs m)) (prReviewers m)
     (assignments m).
Definition with_prReviewers
    (f : gmap string (list string) -> gmap string (list string))
    (m : mockRepo) : mockRepo :=
  mk (users m) (teams m) (teamMembers m) (prs m) (f (prReviewers m))
     (assignments m).

(** Indexing a map of slices: a missing key reads as the nil slice. *)
Definition at_key (m : gmap string (list string)) (k : string) : list string :=
  default [] (m !! k).

Definition CreateUser (m : mockRepo) (userID username : string)
  : mockRepo * option error :=
  (with_users <[userID := repo.mkUser userID username true ""]> m, None).

Definition GetUserByID (m : mockRepo) (userID : string)
  : result (ref mockRepo repo.User) :=
  match users m !! userID with
  | None => Err (errors_New "user not found")
  | Some user => Ok (mkRef user (fun v => with_users <[userID := v]>))
  end.

Definition SetUserActive (m : mockRepo) (userID : string) (active : bool)
  : mockRepo * option error :=
  match users m !! userID with
  | None => (m, Some (errors_New "user not found"))
  | Some user =>
      (with_users
         <[userID := repo.mkUser (repo.User_ID user) (repo.User_Name user)
                                 active (repo.User_TeamName user)]> m, None)
  end.

Definition TeamExists (m : mockRepo) (name : string) : result bool :=
  Ok (bool_decide (is_Some (teams m !! name))).

Definition CreateTeam (m : mockRepo) (name : string) : mockRepo * result Z :=
  match teams m !! name with
  | Some _ => (m, Err (errors_New "team exists"))
  | None =>
      let id := wrap64 (Z.of_nat (size (teams m)) + 1) in
      (mk (users m) (<[name := repo.mkTeam id name]> (teams m)) (teamMembers m)
          (prs m) (prReviewers m) (assignments m), Ok id)
  end.

(** The loop that looks a team name up by id; [""] when none matches. *)
Definition team_name_by_ID (m : mockRepo) (teamID : Z) : string :=
  match filter (fun kv : string * repo.Team => repo.Team_ID kv.2 = teamID)
               (map_to_list (teams m)) with
  | [] => ""
  | (name, _) :: _ => name
  end.

Definition AddMember (m : mockRepo) (teamID : Z) (userID : string)
  : mockRepo * option error :=
  let teamName := team_name_by_ID m teamID in
  if bool_decide (teamName = "") then (m, Some (errors_New "team not found"))
  else
    (mk (users m) (teams m)
        (<[teamName := at_key (teamMembers m) teamName ++ [userID]]>
           (teamMembers m))
        (prs m) (prReviewers m) (assignments m), None).

Definition GetTeamByName (m : mockRepo) (name : string)
  : result (ref mockRepo repo.Team) :=
  match teams m !! name with
  | None => Err (errors_New "team not found")
  | Some team =>
      Ok (mkRef team
            (fun v m => mk (users m) (<[name := v]> (teams m)) (teamMembers m)
                           (prs m) (prReviewers m) (assignments m)))
  end.

(** The users behind a slice of ids, skipping ids without a user. *)
Definition users_of (m : mockRepo) (cond : repo.User -> bool)
    (ids : list string) : list repo.User :=
  id ← ids;
  match users m !! id with
  | Some user => if cond user then [user] else []
  | None => []
  end.

Definition GetTeamMembers (m : mockRepo) (teamName : string)
  : result (list repo.User) :=
  Ok (users_of m (fun _ => true) (at_key (teamMembers m) teamName)).

Definition GetActiveTeamMembersExcept (m : mockRepo)
    (teamName excludeUserID : string) : result (list repo.User) :=
  Ok (users_of m
        (fun user => repo.User_IsActive user
                     && bool_decide (repo.User_ID user ≠ excludeUserID))
        (at_key (teamMembers m) teamName)).

Definition PRExists (m : mockRepo) (prID : string) : result bool :=
  Ok (bool_decide (is_Some (prs m !! prID))).

Definition CreatePRWithID (m : mockRepo) (prID title authorID : string)
  : mockRepo * option error :=
  match prs m !! prID with
  | Some _ => (m, Some (errors_New "PR exists"))
  | None =>
      (with_prs <[prID := repo.mkPR prID title authorID "OPEN" []]> m, None)
  end.

Definition GetPRByID (m : mockRepo) (prID : string)
  : result (ref mockRepo repo.PR) :=
  match prs m !! prID with
  | None => Err (errors_New "PR not found")
  | Some pr => Ok (mkRef pr (fun v => with_prs <[prID := v]>))
  end.

Definition AddReviewer (m : mockRepo) (prID userID : string)
  : mockRepo * option error :=
  (with_prReviewers <[prID := at_key (prReviewers m) prID ++ [userID]]> m,
   None).

(** [append(reviewers[:i], reviewers[i+1:]...)] at the first [i] with
    [reviewers[i] == userID]; [None] when the loop runs out. *)
Fixpoint remove_first (reviewers : list string) (userID : string)
  : option (list string) :=
  match reviewers with
  | [] => None
  | id :: rest =>
      if bool_decide (id = userID) then Some rest
      else cons id <$> remove_first rest userID
  end.

Definition RemoveReviewer (m : mockRepo) (prID userID : string)
  : mockRepo * option error :=
  match remove_first (at_key (prReviewers m) prID) userID with
  | Some reviewers => (with_prReviewers <[prID := reviewers]> m, None)
  | None => (m, Some (errors_New "reviewer not found"))
  end.

Definition GetPRReviewers (m : mockRepo) (prID : string)
  : result (list repo.User) :=
  Ok (users_of m (fun _ => true) (at_key (prReviewers m) prID)).

Definition SetPRStatus (m : mockRepo) (prID status : string)
  : mockRepo * option error :=
  match prs m !! prID with
  | None => (m, Some (errors_New "PR not found"))
  | Some pr =>
      (with_prs
         <[prID := repo.mkPR (repo.PR_ID pr) (repo.PR_Title pr)
                             (repo.PR_AuthorID pr) status
                             (repo.PR_Reviewers pr)]> m, None)
  end.

Definition GetPRsByReviewer (m : mockRepo) (userID : string)
  : result (list repo.PR) :=
  Ok ('(prID, reviewers) ← map_to_list (prReviewers m);
      if bool_decide (userID ∈ reviewers)
      then match prs m !! prID with Some pr => [pr] | None => [] end
      else []).

Definition GetUserTeam (m : mockRepo) (userID : string) : result string :=
  match filter (fun kv : string * list string => userID ∈ kv.2)
               (map_to_list (teamMembers m)) with
  | [] => Err (errors_New "user not in any team")
  | (teamName, _) :: _ => Ok teamName
  end.

(** Returns [&members[0]], a pointer into the slice of copies built by
    [GetActiveTeamMembersExcept]. *)
Definition GetRandomActiveTeamMember (m : mockRepo)
    (teamName excludeUserID : string)
  : mockRepo * result (ref mockRepo repo.User) :=
  match GetActiveTeamMembersExcept m teamName excludeUserID with
  | Err err => (m, Err err)
  | Ok [] => (m, Err (errors_New "no active members"))
  | Ok (member :: _) => (m, Ok (mkRef member (fun _ m => m)))
  end.

Definition AddAssignmentEvent (m : mockRepo) (prID userID : string)
  : mockRepo * option error :=
  (mk (users m) (teams m) (teamMembers m) (prs m) (prReviewers m)
      (assignments m ++ [(prID, userID)]), None).

(** [stats[assignment.userID]++] for every assignment. *)
Definition GetAssignmentStats (m : mockRepo) : result (gmap string Z) :=
  Ok (foldl (fun stats assignment =>
               <[assignment.2 :=
                   wrap64 (default 0%Z (stats !! assignment.2) + 1)]> stats)
            ∅ (assignments m)).

Definition DeactivateTeamMembers (m : mockRepo) (teamID : Z)
  : mockRepo * option error :=
  let teamName := team_name_by_ID m teamID in
  if bool_decide (teamName = "") then (m, Some (errors_New "team not found"))
  else
    (foldl (fun m userID =>
              match users m !! userID with
              | Some user =>
                  with_users
                    <[userID := repo.mkUser (repo.User_ID user)
                                            (repo.User_Name user) false
                                            (repo.User_TeamName user)]> m
              | None => m
              end)
           m (at_key (teamMembers m) teamName), None).

Definition GetOpenPRsWithReviewersByUserIDs (m : mockRepo)
    (userIDs : list string) : result (list repo.PR) :=
  Ok ('(prID, pr) ← map_to_list (prs m);
      if bool_decide (repo.PR_Status pr ≠ "OPEN") then []
      else
        reviewerID ← at_key (prReviewers m) prID;
        if bool_decide (reviewerID ∈ userIDs) then [pr] else []).

#[global] Instance mockRepo_RepoInterface : repo.RepoInterface mockRepo := {|
  repo.CreateUser := CreateUser;
  repo.GetUserByID := GetUserByID;
  repo.SetUserActive := SetUserActive;
  repo.TeamExists := TeamExists;
  repo.CreateTeam := CreateTeam;
  repo.AddMember := AddMember;
  repo.GetTeamByName := GetTeamByName;
  repo.GetTeamMembers := GetTeamMembers;
  repo.GetActiveTeamMembersExcept := GetActiveTeamMembersExcept;
  repo.PRExists := PRExists;
  repo.CreatePRWithID := CreatePRWithID;
  repo.GetPRByID := GetPRByID;
  repo.AddReviewer := AddReviewer;
  repo.RemoveReviewer := RemoveReviewer;
  repo.GetPRReviewers := GetPRReviewers;
  repo.SetPRStatus := SetPRStatus;
  repo.GetPRsByReviewer := GetPRsByReviewer;
  repo.GetUserTeam := GetUserTeam;
  repo.GetRandomActiveTeamMember := GetRandomActiveTeamMember;
  repo.AddAssignmentEvent := AddAssignmentEvent;
  repo.GetAssignmentStats := GetAssignmentStats;
  repo.DeactivateTeamMembers := DeactivateTeamMembers;
  repo.GetOpenPRsWithReviewersByUserIDs := GetOpenPRsWithReviewersByUserIDs
|}.

End mockRepo.

(** ** Vocabulary of the properties *)

(** Readings of the tables of the PostgreSQL repository that the
    properties below are stated with. *)
Module Repo_spec.
Import repo.Repo.

(** The rows a lookup of [prID] selects. *)
Definition pr_rows (d : DB) (prID : string) : list prs_row :=
  filter (fun p => prs_id p = prID) (prs d).

(** The binding rows of one PR. *)
Definition bindings (d : DB) (prID : string) : list pr_reviewers_row :=
  filter (fun r => rv_pr_id r = prID) (pr_reviewers d).

(** [userID] has a membership row in a team called [teamName]. *)
Definition member_of (d : DB) (teamName : string) (userID : string) : Prop :=
  ∃ t tm, t ∈ teams d ∧ tm ∈ team_members d ∧ userID = tm_user_id tm
          ∧ teams_id t = tm_team_id tm ∧ teams_name t = teamName.

(** The members of a team by id, as [DeactivateTeamMembers] selects them. *)
Definition member_ids (d : DB) (teamID : Z) : list string :=
  tm_user_id <$> filter (fun tm => tm_team_id tm = teamID) (team_members d).

(** What every store the engine builds satisfies: at most two binding rows
    per PR, binding rows only for PRs that exist, one row per user id. *)
Record wf (d : DB) : Prop := mk_wf {
  wf_bound : ∀ prID, length (bindings d prID) ≤ 2;
  wf_fk : ∀ r, r ∈ pr_reviewers d -> ∃ p, p ∈ prs d ∧ prs_id p = rv_pr_id r;
  wf_users : NoDup (users_id <$> users d)
}.

(** A write that leaves the bindings and the PR ids alone and keeps user ids
    distinct. *)
Definition same_keys (d d' : DB) : Prop :=
  pr_reviewers d' = pr_reviewers d
  ∧ prs_id <$> prs d' = prs_id <$> prs d
  ∧ (NoDup (users_id <$> users d) -> NoDup (users_id <$> users d')).

End Repo_spec.

(** The number of assignment events naming [uid], given the user ids of all
    events. *)
Definition times_assigned (uids : list string) (uid : string) : nat :=
  length (filter (fun u => u = uid) uids).

(** ** Fixtures: the teams of the service tests and a few stores *)

Module fixtures.
Import service.

(** The members of [TestCreatePR] and of [TestReassignReviewer]. *)
Definition team3 : list repo.TeamMember :=
  [repo.mkTeamMember "author1" "Author" true;
   repo.mkTeamMember "reviewer1" "Reviewer1" true;
   repo.mkTeamMember "reviewer2" "Reviewer2" true].

Definition team4 : list repo.TeamMember :=
  team3 ++ [repo.mkTeamMember "reviewer3" "Reviewer3" true].

(** The mock after [CreateTeam("dev-team", members)] with the given seed of
    the shuffle. *)
Definition mock_team (members : list repo.TeamMember) (seed : list nat)
  : Service mockRepo.mockRepo :=
  (CreateTeam (New mockRepo.newMockRepo seed) "dev-team" members).1.

(** PostgreSQL stores.  [team_store]: team [dev-team] of [team4];
    [dev_store]: then PR [pr-1] by [author1], which these draws give the
    reviewers [reviewer1] and [reviewer2]; [merged_store]: then merged;
    [idle_store]: [dev_store] after the team was deactivated. *)
Definition team_store : Service repo.Repo.DB :=
  (CreateTeam (New (repo.Repo.with_random [2] repo.Repo.empty) [2; 1])
              "dev-team" team4).1.

Definition dev_store : Service repo.Repo.DB :=
  (CreatePR team_store "pr-1" "Test PR" "author1").1.

Definition merged_store : Service repo.Repo.DB := (MergePR dev_store "pr-1").1.

Definition idle_store : Service repo.Repo.DB :=
  (BulkDeactivateTeam dev_store "dev-team" false).1.

(** A store with one known user who belongs to no team. *)
Definition lone_user_store : Service repo.Repo.DB :=
  New (repo.Repo.mkDB [repo.Repo.mk_users "u1" "User1" true] [] [] [] [] [] 1 [])
      [].

(** A store whose PR [pr-1] has a reviewer without any membership row. *)
Definition orphan_reviewer_store : Service repo.Repo.DB :=
  New (repo.Repo.mkDB
         [repo.Repo.mk_users "author1" "Author" true;
          repo.Repo.mk_users "reviewer1" "Reviewer1" true]
         [] []
         [repo.Repo.mk_prs "pr-1" "Test PR" "author1" "OPEN"]
         [repo.Repo.mk_pr_reviewers "pr-1" "reviewer1"]
         [] 1 [])
      [].

(** Stores after two assignment events for [r1] and one for [r2]. *)
Definition three_events : Service repo.Repo.DB :=
  New (repo.Repo.mkDB [] [] [] [] []
         [repo.Repo.mk_assignment_events "pr-1" "r1";
          repo.Repo.mk_assignment_events "pr-1" "r2";
          repo.Repo.mk_assignment_events "pr-2" "r1"] 1 [])
      [].

Definition three_events_mock : Service mockRepo.mockRepo :=
  New (mockRepo.mk ∅ ∅ ∅ ∅ ∅ [("pr-1", "r1"); ("pr-1", "r2"); ("pr-2", "r1")])
      [].

End fixtures.


(** ** Package handlers: the HTTP endpoints over the service

    A handler reads its input from the request (the decoded JSON body, a
    query parameter, or a parameter of the route), calls the service, and
    writes a status and a JSON value to the response writer. *)

Module handlers.
Import repo service.

(** The Go values the handlers hand to [json.NewEncoder(w).Encode], by
    their dynamic type.  A [map[string]interface{}] literal is kept as the
    list of its entries in the order of the source; [a_error err] is the
    string [err.Error()]. *)
#[local] Set Warnings "-register-all".
Inductive any : Type :=
  | a_nil
  | a_string (s : string)
  | a_error (err : error)
  | a_strings (l : list string)
  | a_User (u : User)
  | a_Users (l : list User)
  | a_stats (m : gmap string Z)
  | a_map (m : list (string * any))
  | a_maps (l : list (list (string * any))).

(** The status codes of [net/http] the handlers name. *)
Definition StatusOK : nat := 200.
Definition StatusCreated : nat := 201.
Definition StatusNoContent : nat := 204.
Definition StatusBadRequest : nat := 400.
Definition StatusNotFound : nat := 404.
Definition StatusConflict : nat := 409.
Definition StatusInternalServerError : nat := 500.

(** [http.ResponseWriter], as a recorder: the header map, the status line
    once it is written, and the values encoded to the body.  The first
    write of the body sends status 200 unless [WriteHeader] came before;
    once the status line is out, the header map and the status are
    fixed. *)
Record ResponseWriter : Type := mkResponseWriter {
  Header : gmap string string;
  Code : option nat;
  Body : list any
}.

Definition NewRecorder : ResponseWriter := mkResponseWriter ∅ None [].

Definition Header_Set (key value : string) (w : ResponseWriter)
  : ResponseWriter :=
  match Code w with
  | None => mkResponseWriter (<[key := value]> (Header w)) None (Body w)
  | Some _ => w
  end.

Definition WriteHeader (statusCode : nat) (w : ResponseWriter)
  : ResponseWriter :=
  match Code w with
  | None => mkResponseWriter (Header w) (Some statusCode) (Body w)
  | Some _ => w
  end.

Definition Encode (v : any) (w : ResponseWriter) : ResponseWriter :=
  mkResponseWriter (Header w)
                   (Some (match Code w with
                          | None => StatusOK
                          | Some statusCode => statusCode
                          end))
                   (Body w ++ [v]).

(** The request structs the handlers decode the body into. *)
Record CreateTeam_req : Type := mkCreateTeam_req {
  CreateTeam_TeamName : string;
  CreateTeam_Members : list TeamMember
}.
Record SetUserActive_req : Type := mkSetUserActive_req {
  SetUserActive_UserID : string;
  SetUserActive_IsActive : bool
}.
Record CreatePR_req : Type := mkCreatePR_req {
  CreatePR_PullRequestID : string;
  CreatePR_PullRequestName : string;
  CreatePR_AuthorID : string
}.
Record MergePR_req : Type := mkMergePR_req {
  MergePR_PullRequestID : string
}.
Record ReassignReviewer_req : Type := mkReassignReviewer_req {
  ReassignReviewer_PullRequestID : string;
  ReassignReviewer_OldUserID : string
}.
Record BulkDeactivateTeam_req : Type := mkBulkDeactivateTeam_req {
  BulkDeactivateTeam_Reassign : bool
}.

(** A request the router has matched to a route, with what the handler of
    the route reads from it: the body as [Decode] leaves the request struct
    ([None] when [Decode] returns an error), the query parameter (empty
    when absent), the [{team}] segment of the path. *)
Inductive Request : Type :=
  | GET_health
  | POST_team_add (body : option CreateTeam_req)
  | GET_team_get (team_name : string)
  | POST_users_setIsActive (body : option SetUserActive_req)
  | GET_users_getReview (user_id : string)
  | POST_pullRequest_create (body : option CreatePR_req)
  | POST_pullRequest_merge (body : option MergePR_req)
  | POST_pullRequest_reassign (body : option ReassignReviewer_req)
  | GET_stats
  | POST_teams_deactivate (team : string)
                          (body : option BulkDeactivateTeam_req).

Section Handler.

Context {R : Type} `{!repo.RepoInterface R}.

(** [Handler] points to the service; a handler that calls a writing method
    leaves the service the call returns. *)
Record Handler : Type := mkHandler {
  svc : Service R
}.

Definition NewHandler (svc : Service R) : Handler := mkHandler svc.

Definition sendError (w : ResponseWriter) (code : string) (message : any)
    (status : nat) : ResponseWriter :=
  Encode (a_map [("error", a_map [("code", a_string code);
                                  ("message", message)])])
         (WriteHeader status
            (Header_Set "Content-Type" "application/json" w)).

Definition HealthCheck (h : Handler) (w : ResponseWriter)
  : Handler * ResponseWriter :=
  (h, Encode (a_map [("status", a_string "ok")])
             (Header_Set "Content-Type" "application/json" w)).

Definition CreateTeam (h : Handler) (w : ResponseWriter)
    (body : option CreateTeam_req) : Handler * ResponseWriter :=
  match body with
  | None =>
      (h, sendError w "BAD_REQUEST" (a_string "Invalid request body")
                    StatusBadRequest)
  | Some req =>
      match service.CreateTeam (svc h) (CreateTeam_TeamName req)
                               (CreateTeam_Members req) with
      | (s1, Some err) =>
          (mkHandler s1,
           match err with
           | ErrTeamExists =>
               sendError w "TEAM_EXISTS" (a_string "team_name already exists")
                         StatusBadRequest
           | _ =>
               sendError w "INTERNAL_ERROR" (a_error err)
                         StatusInternalServerError
           end)
      | (s1, None) =>
          match service.GetTeam s1 (CreateTeam_TeamName req) with
          | Err err =>
              (mkHandler s1,
               sendError w "INTERNAL_ERROR" (a_error err)
                         StatusInternalServerError)
          | Ok (team, members) =>
              (mkHandler s1,
               Encode (a_map [("team",
                               a_map [("team_name", a_string (Team_Name team));
                                      ("members", a_Users members)])])
                      (WriteHeader StatusCreated
                         (Header_Set "Content-Type" "application/json" w)))
          end
      end
  end.

Definition GetTeam (h : Handler) (w : ResponseWriter) (teamName : string)
  : Handler * ResponseWriter :=
  if bool_decide (teamName = "") then
    (h, sendError w "BAD_REQUEST" (a_string "team_name is required")
                  StatusBadRequest)
  else
    match service.GetTeam (svc h) teamName with
    | Err err =>
        (h, match err with
            | ErrNotFound =>
                sendError w "NOT_FOUND" (a_string "team not found")
                          StatusNotFound
            | _ =>
                sendError w "INTERNAL_ERROR" (a_error err)
                          StatusInternalServerError
            end)
    | Ok (team, members) =>
        (h, Encode (a_map [("team_name", a_string (Team_Name team));
                           ("members", a_Users members)])
                   (Header_Set "Content-Type" "application/json" w))
    end.

Definition SetUserActive (h : Handler) (w : ResponseWriter)
    (body : option SetUserActive_req) : Handler * ResponseWriter :=
  match body with
  | None =>
      (h, sendError w "BAD_REQUEST" (a_string "Invalid request body")
                    StatusBadRequest)
  | Some req =>
      match service.SetUserActive (svc h) (SetUserActive_UserID req)
                                  (SetUserActive_IsActive req) with
      | (s1, Err err) =>
          (mkHandler s1,
           match err with
           | ErrNotFound =>
               sendError w "NOT_FOUND" (a_string "user not found")
                         StatusNotFound
           | _ =>
               sendError w "INTERNAL_ERROR" (a_error err)
                         StatusInternalServerError
           end)
      | (s1, Ok user) =>
          (mkHandler s1,
           Encode (a_map [("user", a_User user)])
                  (Header_Set "Content-Type" "application/json" w))
      end
  end.

(** The loop that converts the reviewers to user ids. *)
Definition reviewerIDs (pr : PR) : list string := User_ID <$> PR_Reviewers pr.

Definition CreatePR (h : Handler) (w : ResponseWriter)
    (body : option CreatePR_req) : Handler * ResponseWriter :=
  match body with
  | None =>
      (h, sendError w "BAD_REQUEST" (a_string "Invalid request body")
                    StatusBadRequest)
  | Some req =>
      match service.CreatePR (svc h) (CreatePR_PullRequestID req)
                             (CreatePR_PullRequestName req)
                             (CreatePR_AuthorID req) with
      | (s1, Err err) =>
          (mkHandler s1,
           match err with
           | ErrPRExists =>
               sendError w "PR_EXISTS" (a_string "PR id already exists")
                         StatusConflict
           | ErrNotFound =>
               sendError w "NOT_FOUND" (a_string "author/team not found")
                         StatusNotFound
           | _ =>
               sendError w "INTERNAL_ERROR" (a_error err)
                         StatusInternalServerError
           end)
      | (s1, Ok pr) =>
          (mkHandler s1,
           Encode (a_map [("pr",
                           a_map [("pull_request_id", a_string (PR_ID pr));
                                  ("pull_request_name",
                                   a_string (PR_Title pr));
                                  ("author_id", a_string (PR_AuthorID pr));
                                  ("status", a_string (PR_Status pr));
                                  ("assigned_reviewers",
                                   a_strings (reviewerIDs pr));
                                  ("createdAt", a_nil)])])
                  (WriteHeader StatusCreated
                     (Header_Set "Content-Type" "application/json" w)))
      end
  end.

Definition MergePR (h : Handler) (w : ResponseWriter)
    (body : option MergePR_req) : Handler * ResponseWriter :=
  match body with
  | None =>
      (h, sendError w "BAD_REQUEST" (a_string "Invalid request body")
                    StatusBadRequest)
  | Some req =>
      match service.MergePR (svc h) (MergePR_PullRequestID req) with
      | (s1, Err err) =>
          (mkHandler s1,
           match err with
           | ErrNotFound =>
               sendError w "NOT_FOUND" (a_string "PR not found")
                         StatusNotFound
           | _ =>
               sendError w "INTERNAL_ERROR" (a_error err)
                         StatusInternalServerError
           end)
      | (s1, Ok pr) =>
          (mkHandler s1,
           Encode (a_map [("pr",
                           a_map [("pull_request_id", a_string (PR_ID pr));
                                  ("pull_request_name",
                                   a_string (PR_Title pr));
                                  ("author_id", a_string (PR_AuthorID pr));
                                  ("status", a_string (PR_Status pr));
                                  ("assigned_reviewers",
                                   a_strings (reviewerIDs pr));
                                  ("mergedAt", a_nil)])])
                  (Header_Set "Content-Type" "application/json" w))
      end
  end.

Definition ReassignReviewer (h : Handler) (w : ResponseWriter)
    (body : option ReassignReviewer_req) : Handler * ResponseWriter :=
  match body with
  | None =>
      (h, sendError w "BAD_REQUEST" (a_string "Invalid request body")
                    StatusBadRequest)
  | Some req =>
      match service.ReassignReviewer (svc h)
              (ReassignReviewer_PullRequestID req)
              (ReassignReviewer_OldUserID req) with
      | (s1, Err err) =>
          (mkHandler s1,
           match err with
           | ErrNotFound =>
               sendError w "NOT_FOUND" (a_string "PR or user not found")
                         StatusNotFound
           | ErrPRMerged =>
               sendError w "PR_MERGED"
                         (a_string "cannot reassign on merged PR")
                         StatusConflict
           | ErrNotAssigned =>
               sendError w "NOT_ASSIGNED"
                         (a_string "reviewer is not assigned to this PR")
                         StatusConflict
           | ErrNoCandidate =>
               sendError w "NO_CANDIDATE"
                         (a_string "no active replacement candidate in team")
                         StatusConflict
           | _ =>
               sendError w "INTERNAL_ERROR" (a_error err)
                         StatusInternalServerError
           end)
      | (s1, Ok (pr, newUserID)) =>
          (mkHandler s1,
           Encode (a_map [("pr",
                           a_map [("pull_request_id", a_string (PR_ID pr));
                                  ("pull_request_name",
                                   a_string (PR_Title pr));
                                  ("author_id", a_string (PR_AuthorID pr));
                                  ("status", a_string (PR_Status pr));
                                  ("assigned_reviewers",
                                   a_strings (reviewerIDs pr))]);
                          ("replaced_by", a_string newUserID)])
                  (Header_Set "Content-Type" "application/json" w))
      end
  end.

(** The short format of a PR in the review list of a user. *)
Definition prShort (pr : PR) : list (string * any) :=
  [("pull_request_id", a_string (PR_ID pr));
   ("pull_request_name", a_string (PR_Title pr));
   ("author_id", a_string (PR_AuthorID pr));
   ("status", a_string (PR_Status pr))].

Definition GetUserReviews (h : Handler) (w : ResponseWriter) (userID : string)
  : Handler * ResponseWriter :=
  if bool_decide (userID = "") then
    (h, sendError w "BAD_REQUEST" (a_string "user_id is required")
                  StatusBadRequest)
  else
    match service.GetUserReviews (svc h) userID with
    | Err err =>
        (h, match err with
            | ErrNotFound =>
                sendError w "NOT_FOUND" (a_string "user not found")
                          StatusNotFound
            | _ =>
                sendError w "INTERNAL_ERROR" (a_error err)
                          StatusInternalServerError
            end)
    | Ok prs =>
        (h, Encode (a_map [("user_id", a_string userID);
                           ("pull_requests", a_maps (prShort <$> prs))])
                   (Header_Set "Content-Type" "application/json" w))
    end.

(** [now] is the reading of the clock [service.GetStats] stamps the
    statistics with. *)
Definition GetStats (h : Handler) (w : ResponseWriter) (now : string)
  : Handler * ResponseWriter :=
  match service.GetStats (svc h) now with
  | Err err =>
      (h, sendError w "INTERNAL_ERROR" (a_error err)
                    StatusInternalServerError)
  | Ok stats =>
      (h, Encode (a_map [("assignment_stats",
                          a_stats (assignment_stats stats));
                         ("timestamp", a_string (timestamp stats))])
                 (Header_Set "Content-Type" "application/json" w))
  end.

Definition BulkDeactivateTeam (h : Handler) (w : ResponseWriter)
    (teamName : string) (body : option BulkDeactivateTeam_req)
  : Handler * ResponseWriter :=
  match body with
  | None =>
      (h, sendError w "BAD_REQUEST" (a_string "Invalid request body")
                    StatusBadRequest)
  | Some req =>
      match service.BulkDeactivateTeam (svc h) teamName
                                       (BulkDeactivateTeam_Reassign req) with
      | (s1, Some err) =>
          (mkHandler s1,
           match err with
           | ErrNotFound =>
               sendError w "NOT_FOUND" (a_string "team not found")
                         StatusNotFound
           | _ =>
               sendError w "INTERNAL_ERROR" (a_error err)
                         StatusInternalServerError
           end)
      | (s1, None) => (mkHandler s1, WriteHeader StatusNoContent w)
      end
  end.

(** [RegisterRoutes]: the handler each route is bound to. *)
Definition RegisterRoutes (h : Handler) (now : string) (r : Request)
    (w : ResponseWriter) : Handler * ResponseWriter :=
  match r with
  | GET_health => HealthCheck h w
  | POST_team_add body => CreateTeam h w body
  | GET_team_get team_name => GetTeam h w team_name
  | POST_users_setIsActive body => SetUserActive h w body
  | GET_users_getReview user_id => GetUserReviews h w user_id
  | POST_pullRequest_create body => CreatePR h w body
  | POST_pullRequest_merge body => MergePR h w body
  | POST_pullRequest_reassign body => ReassignReviewer h w body
  | GET_stats => GetStats h w now
  | POST_teams_deactivate team body => BulkDeactivateTeam h w team body
  end.

(** The response to one request, on a fresh writer. *)
Definition serve (h : Handler) (now : string) (r : Request)
  : Handler * ResponseWriter :=
  RegisterRoutes h now r NewRecorder.

End Handler.

Arguments Handler R : clear implicits.


End handlers.
(** ** Vocabulary of the properties of whole runs *)

Module Repo_history.
Import repo.Repo Repo_spec.

(** What a call may do to a row of [prs]: nothing, or set its status to
    MERGED. *)
Definition pr_same_or_merged (p p' : prs_row) : Prop :=
  prs_id p' = prs_id p ∧ prs_title p' = prs_title p
  ∧ prs_author_id p' = prs_author_id p
  ∧ (prs_status p' = prs_status p ∨ prs_status p' = "MERGED").

(** [d'] is a later state of [d]: the PR rows of [d] are still there, in
    place, changed at most in their status and only towards MERGED; events,
    user ids, teams and memberships have only been appended to; and a PR
    that was MERGED in [d] has the binding rows it had. *)
Record evolves (d d' : DB) : Prop := mk_evolves {
  ev_prs : ∃ front extra,
      prs d' = front ++ extra ∧ Forall2 pr_same_or_merged (prs d) front;
  ev_events : assignment_events d `prefix_of` assignment_events d';
  ev_users : (users_id <$> users d) `prefix_of` (users_id <$> users d');
  ev_teams : teams d `prefix_of` teams d';
  ev_members : team_members d `prefix_of` team_members d';
  ev_frozen : ∀ prID p,
      head (pr_rows d prID) = Some p -> prs_status p = "MERGED" ->
      bindings d' prID = bindings d prID
}.

(** A write that adds users, teams or memberships and touches nothing
    else. *)
Definition grows (d d' : DB) : Prop :=
  prs d' = prs d ∧ pr_reviewers d' = pr_reviewers d
  ∧ assignment_events d' = assignment_events d
  ∧ (users_id <$> users d) `prefix_of` (users_id <$> users d')
  ∧ teams d `prefix_of` teams d'
  ∧ team_members d `prefix_of` team_members d'.

(** The keys and references of the six tables: every unique key holds, the
    serial of [teams.id] is ahead of the ids handed out, and every row that
    names a user, a team or a PR names one that exists. *)
Record keys (d : DB) : Prop := mk_keys {
  key_users : NoDup (users_id <$> users d);
  key_team_names : NoDup (teams_name <$> teams d);
  key_team_ids : NoDup (teams_id <$> teams d);
  key_team_seq : ∀ t, t ∈ teams d -> (teams_id t < teams_id_seq d)%Z;
  key_prs : NoDup (prs_id <$> prs d);
  key_bindings : NoDup (pr_reviewers d);
  key_members : NoDup (team_members d);
  ref_member_user : ∀ tm, tm ∈ team_members d ->
                          tm_user_id tm ∈ users_id <$> users d;
  ref_member_team : ∀ tm, tm ∈ team_members d ->
                          tm_team_id tm ∈ teams_id <$> teams d;
  ref_pr_author : ∀ p, p ∈ prs d -> prs_author_id p ∈ users_id <$> users d;
  ref_binding_pr : ∀ r, r ∈ pr_reviewers d ->
                        rv_pr_id r ∈ prs_id <$> prs d;
  ref_binding_user : ∀ r, r ∈ pr_reviewers d ->
                          rv_user_id r ∈ users_id <$> users d;
  ref_event_pr : ∀ e, e ∈ assignment_events d ->
                      ev_pr_id e ∈ prs_id <$> prs d;
  ref_event_user : ∀ e, e ∈ assignment_events d ->
                        ev_user_id e ∈ users_id <$> users d
}.

End Repo_history.

(** Settles a decidable statement about concrete values by evaluation. *)
Ltac by_decide :=
  match goal with
  | |- ?P => apply (bool_decide_eq_true_1 P); vm_compute; reflexivity
  end.

(** ** math/rand: a shuffle only reorders *)

Section math_rand_facts.
Context {A : Type}.
Implicit Types l : list A.

Lemma insert_head_Permutation l j (a b : A) :
  l !! j = Some b -> b :: <[j:=a]> l ≡ₚ a :: l.
Proof.
  revert j. induction l as [|x l IH]; intros [|j] Hj; simplify_eq/=.
  - apply perm_swap.
  - rewrite perm_swap. rewrite (IH _ Hj). apply perm_swap.
Qed.

Lemma swap_Permutation l i j : swap l i j ≡ₚ l.
Proof.
  unfold swap.
  destruct (l !! i) as [a|] eqn:Hi; [|done].
  destruct (l !! j) as [b|] eqn:Hj; [|done].
  revert i j Hi Hj.
  induction l as [|x l IH]; intros [|i] [|j] Hi Hj; simplify_eq/=.
  - done.
  - by apply insert_head_Permutation.
  - by apply insert_head_Permutation.
  - f_equiv. by apply IH.
Qed.

Lemma Shuffle_from_Permutation i src l : (Shuffle_from i src l).1 ≡ₚ l.
Proof.
  revert src l. induction i as [|i IH]; intros src l; simpl; [done|].
  destruct (Intn src (S (S i))) as [j src'].
  rewrite IH. apply swap_Permutation.
Qed.

Lemma Shuffle_Permutation src l : (Shuffle src l).1 ≡ₚ l.
Proof. apply Shuffle_from_Permutation. Qed.

End math_rand_facts.

(** ** Facts about the PostgreSQL repository *)

Module Repo_facts.
Import repo repo.Repo service Repo_spec.

Lemma with_Repo_same (s : Service DB) : with_Repo s (Repo s) = s.
Proof. by destruct s. Qed.

Section statements.
Context {A : Type} (P : A -> Prop) `{!∀ x, Decision (P x)}.
Implicit Types rows : list A.

Lemma conflict_true rows : conflict P rows = true <-> ∃ x, x ∈ rows ∧ P x.
Proof. unfold conflict. rewrite bool_decide_eq_true. apply Exists_exists. Qed.

Lemma conflict_false rows : conflict P rows = false <-> ∀ x, x ∈ rows -> ¬ P x.
Proof.
  unfold conflict. rewrite bool_decide_eq_false, Exists_exists. naive_solver.
Qed.

(** An UPDATE that keeps the column a WHERE clause reads commutes with it. *)
Lemma filter_UPDATE (Q : A -> Prop) `{!∀ x, Decision (Q x)} set rows :
  (∀ x, Q (set x) <-> Q x) ->
  filter Q (UPDATE P set rows) = UPDATE P set (filter Q rows).
Proof.
  intros Hset. unfold UPDATE.
  induction rows as [|x rows IH]; [done|]. rewrite fmap_cons, !filter_cons.
  destruct (decide (P x)).
  - destruct (decide (Q (set x))), (decide (Q x)); try naive_solver.
    rewrite fmap_cons, decide_True by done. by f_equal.
  - destruct (decide (Q x)); [|done].
    rewrite fmap_cons, decide_False by done. by f_equal.
Qed.

Lemma UPDATE_all set rows :
  (∀ x, x ∈ rows -> P x) -> UPDATE P set rows = set <$> rows.
Proof.
  intros HP. unfold UPDATE. apply list_fmap_ext. intros i x Hx.
  rewrite decide_True; [done|]. apply HP. by eapply list_elem_of_lookup_2.
Qed.

Lemma elem_of_UPDATE set rows y :
  y ∈ UPDATE P set rows <->
  ∃ x, x ∈ rows ∧ y = (if decide (P x) then set x else x).
Proof. unfold UPDATE. rewrite list_elem_of_fmap. naive_solver. Qed.

Lemma elem_of_DELETE rows x : x ∈ DELETE P rows <-> x ∈ rows ∧ ¬ P x.
Proof. unfold DELETE. rewrite list_elem_of_filter. tauto. Qed.

End statements.

(** *** Single-row reads *)

Lemma GetContext_Ok {A} (rows : list A) r :
  GetContext rows = Ok r <-> head rows = Some r.
Proof. destruct rows; simpl; naive_solver. Qed.

Lemma GetContext_Err {A} (rows : list A) e :
  GetContext rows = Err e <-> rows = [] ∧ e = sql_ErrNoRows.
Proof. destruct rows; simpl; naive_solver. Qed.

Lemma GetPRByID_Ok d prID pr :
  GetPRByID d prID = Ok pr <->
  ∃ p, head (pr_rows d prID) = Some p ∧ pr = local (scan_PR p).
Proof.
  unfold GetPRByID, pr_rows.
  destruct (filter _ (prs d)) as [|p ?]; simpl; naive_solver.
Qed.

Lemma GetPRByID_Err d prID e :
  GetPRByID d prID = Err e <-> pr_rows d prID = [] ∧ e = sql_ErrNoRows.
Proof.
  unfold GetPRByID, pr_rows.
  destruct (filter _ (prs d)) as [|p ?]; simpl; naive_solver.
Qed.

Lemma pr_rows_nil d prID :
  pr_rows d prID = [] <-> ∀ p, p ∈ prs d -> prs_id p ≠ prID.
Proof.
  unfold pr_rows. split.
  - intros Hnil p Hp Hid.
    assert (p ∈ filter (fun p => prs_id p = prID) (prs d)) as Hin
      by by apply list_elem_of_filter.
    rewrite Hnil in Hin. by apply not_elem_of_nil in Hin.
  - intros Hno. destruct (filter _ (prs d)) as [|p ?] eqn:Hf; [done|].
    assert (p ∈ filter (fun p => prs_id p = prID) (prs d)) as Hin
      by (rewrite Hf; left).
    apply list_elem_of_filter in Hin as [? ?]. naive_solver.
Qed.

Lemma pr_rows_head_id d prID p :
  head (pr_rows d prID) = Some p -> prs_id p = prID.
Proof.
  intros Hp. apply head_Some_elem_of in Hp.
  by apply list_elem_of_filter in Hp as [? _].
Qed.

Lemma pr_rows_SetPRStatus d prID status :
  pr_rows (SetPRStatus d prID status).1 prID
  = set_status status <$> pr_rows d prID.
Proof.
  unfold pr_rows, SetPRStatus. simpl.
  rewrite filter_UPDATE by done.
  apply UPDATE_all. intros p Hp. by apply list_elem_of_filter in Hp as [? _].
Qed.

(** *** [MergePR] over the PostgreSQL repository, branch by branch *)

Lemma MergePR_absent (s : Service DB) prID :
  pr_rows (Repo s) prID = [] -> MergePR s prID = (s, Err ErrNotFound).
Proof.
  intros Hnil. unfold MergePR. simpl. unfold GetPRByID.
  fold (pr_rows (Repo s) prID). by rewrite Hnil.
Qed.

Lemma MergePR_merged (s : Service DB) prID p :
  head (pr_rows (Repo s) prID) = Some p ->
  prs_status p = "MERGED" ->
  MergePR s prID
  = (s, Ok (mkPR (prs_id p) (prs_title p) (prs_author_id p) "MERGED"
                 (scan_User <$> pr_users (Repo s) prID))).
Proof.
  intros Hp Hst. unfold MergePR. simpl. unfold GetPRByID.
  fold (pr_rows (Repo s) prID).
  destruct (pr_rows (Repo s) prID) as [|p' ?]; simplify_eq/=.
  rewrite bool_decide_eq_true_2 by done.
  rewrite Hst. by rewrite with_Repo_same.
Qed.

Lemma MergePR_open (s : Service DB) prID p :
  head (pr_rows (Repo s) prID) = Some p ->
  prs_status p ≠ "MERGED" ->
  MergePR s prID
  = (with_Repo s (SetPRStatus (Repo s) prID "MERGED").1,
     Ok (mkPR (prs_id p) (prs_title p) (prs_author_id p) "MERGED"
              (scan_User <$> pr_users (Repo s) prID))).
Proof.
  intros Hp Hst. unfold MergePR. simpl. unfold GetPRByID.
  fold (pr_rows (Repo s) prID).
  destruct (pr_rows (Repo s) prID) as [|p' ?]; simplify_eq/=.
  by rewrite bool_decide_eq_false_2 by done.
Qed.

End Repo_facts.

Module Repo_joins.
Import repo repo.Repo service Repo_spec Repo_facts.

(** *** The two joins *)

Lemma elem_of_pr_users d prID u :
  u ∈ pr_users d prID
  <-> u ∈ users d ∧ mk_pr_reviewers prID (users_id u) ∈ pr_reviewers d.
Proof.
  unfold pr_users. rewrite list_elem_of_bind. split.
  - intros (r & Hu & Hr). apply list_elem_of_bind in Hu as (u' & Hu & Hu').
    case_bool_decide as Hc; [|by apply not_elem_of_nil in Hu].
    apply list_elem_of_singleton in Hu as ->. destruct Hc as [Hid Hpr].
    split; [done|]. destruct r as [pid uid]; simpl in *. by subst.
  - intros [Hu Hr]. exists (mk_pr_reviewers prID (users_id u)).
    split; [|done]. apply list_elem_of_bind. exists u. split; [|done].
    rewrite bool_decide_eq_true_2 by done. by apply list_elem_of_singleton.
Qed.

Lemma elem_of_team_users d teamName cond u :
  u ∈ team_users d teamName cond
  <-> u ∈ users d ∧ cond u = true ∧ member_of d teamName (users_id u).
Proof.
  unfold team_users, member_of. rewrite list_elem_of_bind. split.
  - intros (u' & Hu & Hu'). apply list_elem_of_bind in Hu as (tm & Hu & Htm).
    apply list_elem_of_bind in Hu as (t & Hu & Ht).
    destruct (bool_decide _ && cond u') eqn:Hc;
      [|by apply not_elem_of_nil in Hu].
    apply list_elem_of_singleton in Hu as ->.
    apply andb_true_iff in Hc as [Hc ?]. apply bool_decide_eq_true in Hc.
    naive_solver.
  - intros (Hu & Hc & t & tm & Ht & Htm & ? & ? & ?). exists u. split; [|done].
    apply list_elem_of_bind. exists tm. split; [|done].
    apply list_elem_of_bind. exists t. split; [|done].
    rewrite bool_decide_eq_true_2, Hc by done. by apply list_elem_of_singleton.
Qed.

Lemma active_except_true old u :
  active_except old u = true <-> users_is_active u = true ∧ users_id u ≠ old.
Proof.
  unfold active_except. rewrite andb_true_iff, !bool_decide_eq_true. done.
Qed.

(** *** [GetRandomActiveTeamMember] returns one of the rows
    [GetActiveTeamMembersExcept] returns, and consumes at most a draw *)

Lemma GetRandomActiveTeamMember_Ok d teamName old d' (newReviewer : ref DB User) :
  GetRandomActiveTeamMember d teamName old = (d', Ok newReviewer) ->
  ∃ u src, u ∈ team_users d teamName (active_except old)
         ∧ newReviewer = local (scan_User u)
         ∧ d' = with_random src d.
Proof.
  unfold GetRandomActiveTeamMember.
  destruct (team_users d teamName (active_except old)) as [|r0 rows] eqn:Hrows;
    [done|].
  destruct (Intn (random d) (length (r0 :: rows))) as [i src] eqn:Hi.
  intros [= <- <-]. exists (nth i (r0 :: rows) r0), src. split; [|done].
  apply list_elem_of_In.
  destruct (decide (i < length (r0 :: rows))) as [Hlt|Hge].
  - by apply nth_In.
  - rewrite nth_overflow by lia. by left.
Qed.

Lemma GetRandomActiveTeamMember_Err d teamName old d' e :
  GetRandomActiveTeamMember d teamName old = (d', Err e) ->
  team_users d teamName (active_except old) = [] ∧ d' = d.
Proof.
  unfold GetRandomActiveTeamMember.
  destruct (team_users d teamName (active_except old)) as [|r0 rows];
    [by intros [= <- _]|].
  by destruct (Intn _ _).
Qed.

Lemma GetRandomActiveTeamMember_is_Ok d teamName old :
  team_users d teamName (active_except old) ≠ [] ->
  ∃ d' newReviewer,
    GetRandomActiveTeamMember d teamName old = (d', Ok newReviewer).
Proof.
  unfold GetRandomActiveTeamMember.
  destruct (team_users d teamName (active_except old)) as [|r0 rows]; [done|].
  destruct (Intn _ _). eauto.
Qed.

(** *** The reviewer test of [ReassignReviewer] *)

Lemma oldUserAssigned_true reviewers old :
  oldUserAssigned reviewers old = true <-> old ∈ User_ID <$> reviewers.
Proof.
  unfold oldUserAssigned. rewrite existsb_exists, list_elem_of_fmap.
  setoid_rewrite bool_decide_eq_true. setoid_rewrite <- list_elem_of_In.
  naive_solver.
Qed.

(** *** Binding and unbinding a reviewer *)

Lemma elem_of_AddReviewer d prID userID r :
  r ∈ pr_reviewers (AddReviewer d prID userID).1
  <-> r ∈ pr_reviewers d ∨ r = mk_pr_reviewers prID userID.
Proof.
  unfold AddReviewer. destruct (conflict _ _) eqn:Hc; simpl.
  - apply conflict_true in Hc as (x & Hx & ->). naive_solver.
  - rewrite elem_of_app, list_elem_of_singleton. done.
Qed.

Lemma elem_of_RemoveReviewer d prID userID r :
  r ∈ pr_reviewers (RemoveReviewer d prID userID).1
  <-> r ∈ pr_reviewers d ∧ r ≠ mk_pr_reviewers prID userID.
Proof.
  unfold RemoveReviewer. simpl. rewrite elem_of_DELETE.
  destruct r as [pid uid]; simpl. naive_solver.
Qed.

(** The three writes of a reassignment cannot fail. *)
Lemma RemoveReviewer_nil d prID userID :
  RemoveReviewer d prID userID = ((RemoveReviewer d prID userID).1, None).
Proof. done. Qed.

Lemma AddReviewer_nil d prID userID :
  AddReviewer d prID userID = ((AddReviewer d prID userID).1, None).
Proof. unfold AddReviewer. by destruct (conflict _ _). Qed.

Lemma AddAssignmentEvent_nil d prID userID :
  AddAssignmentEvent d prID userID
  = ((AddAssignmentEvent d prID userID).1, None).
Proof. done. Qed.

Lemma AddReviewer_frame d prID userID :
  let d' := (AddReviewer d prID userID).1 in
  users d' = users d ∧ teams d' = teams d ∧ team_members d' = team_members d
  ∧ prs d' = prs d ∧ assignment_events d' = assignment_events d
  ∧ random d' = random d.
Proof. unfold AddReviewer. by destruct (conflict _ _). Qed.

End Repo_joins.

(** ** Keys and counts the engine keeps in the PostgreSQL repository *)

Module Repo_invariant.
Import repo repo.Repo service Repo_spec Repo_facts Repo_joins.

Lemma same_keys_refl d : same_keys d d.
Proof. by repeat split. Qed.

Lemma same_keys_trans d1 d2 d3 :
  same_keys d1 d2 -> same_keys d2 d3 -> same_keys d1 d3.
Proof.
  intros (Hr1 & Hp1 & Hu1) (Hr2 & Hp2 & Hu2).
  repeat split; [congruence|congruence|auto].
Qed.

Lemma wf_same_keys d d' : wf d -> same_keys d d' -> wf d'.
Proof.
  intros [Hb Hfk Hu] (Hr & Hp & Hu'). split.
  - intros prID. unfold bindings. rewrite Hr. apply Hb.
  - intros r Hin. rewrite Hr in Hin.
    destruct (Hfk r Hin) as (p & Hpin & Hid).
    assert (prs_id p ∈ prs_id <$> prs d') as Hin'.
    { rewrite Hp. apply list_elem_of_fmap. eauto. }
    apply list_elem_of_fmap in Hin' as (p' & ? & ?). exists p'.
    split; [done|congruence].
  - auto.
Qed.

Lemma fmap_UPDATE {A B} (f : A -> B) (P : A -> Prop) `{!∀ x, Decision (P x)}
    set (rows : list A) :
  (∀ x, f (set x) = f x) -> f <$> UPDATE P set rows = f <$> rows.
Proof.
  intros Hset. unfold UPDATE. rewrite <- list_fmap_compose.
  apply list_fmap_ext. intros i x _. simpl. by case_decide.
Qed.

Lemma wf_empty src : wf (with_random src empty).
Proof.
  split; simpl.
  - intros prID. unfold bindings. simpl. lia.
  - intros r Hr. by apply elem_of_nil in Hr.
  - constructor.
Qed.

(** *** The writes of the repository *)

Lemma CreateUser_keys d userID username :
  same_keys d (CreateUser d userID username).1.
Proof.
  unfold CreateUser. destruct (conflict _ _) eqn:Hc; cbn [fst].
  - repeat split. cbn [users with_users]. by rewrite fmap_UPDATE.
  - repeat split. cbn [users with_users]. rewrite fmap_app. simpl. intros Hnd.
    apply NoDup_app. split; [done|]. split; [|apply NoDup_singleton].
    intros x Hx ->%list_elem_of_singleton.
    apply list_elem_of_fmap in Hx as (u & Hid & Hu).
    rewrite conflict_false in Hc. by apply (Hc u).
Qed.

Lemma SetUserActive_keys d userID active :
  same_keys d (Repo.SetUserActive d userID active).1.
Proof.
  repeat split. unfold Repo.SetUserActive. cbn [fst users with_users].
  by rewrite fmap_UPDATE.
Qed.

Lemma AddMember_keys d teamID userID :
  same_keys d (AddMember d teamID userID).1.
Proof.
  unfold AddMember. destruct (conflict _ _); by repeat split.
Qed.

Lemma DeactivateTeamMembers_keys d teamID :
  same_keys d (DeactivateTeamMembers d teamID).1.
Proof.
  repeat split. unfold DeactivateTeamMembers. cbn [fst users with_users].
  by rewrite fmap_UPDATE.
Qed.

Lemma SetPRStatus_keys d prID status :
  same_keys d (SetPRStatus d prID status).1.
Proof.
  split; [done|]. split; [|done].
  unfold SetPRStatus. cbn [fst prs with_prs]. by rewrite fmap_UPDATE.
Qed.

(** *** The calls of the service that never touch a binding *)

Lemma CreateTeam_members_keys d teamID members :
  same_keys d (CreateTeam_members d teamID members).1.
Proof.
  revert d. induction members as [|member rest IH]; intros d; simpl.
  { apply same_keys_refl. }
  pose proof (CreateUser_keys d (TeamMember_UserID member)
                (TeamMember_Username member)) as H1.
  destruct (CreateUser d _ _) as [r1 [err|]]; [done|]. simpl in H1.
  pose proof (SetUserActive_keys r1 (TeamMember_UserID member)
                (TeamMember_IsActive member)) as H2.
  pose proof (AddMember_keys
                (Repo.SetUserActive r1 (TeamMember_UserID member)
                   (TeamMember_IsActive member)).1
                teamID (TeamMember_UserID member)) as H3.
  simpl in *.
  destruct (AddMember _ teamID _) as [r3 [err|]]; simpl in *.
  - eauto using same_keys_trans.
  - eapply same_keys_trans; [|apply IH]. eauto using same_keys_trans.
Qed.

Lemma CreateTeam_keys (s : Service DB) teamName members :
  same_keys (Repo s) (Repo (CreateTeam s teamName members).1).
Proof.
  unfold CreateTeam. simpl. case_bool_decide; [apply same_keys_refl|].
  unfold Repo.CreateTeam. destruct (conflict _ _); [apply same_keys_refl|].
  match goal with
  | |- context [CreateTeam_members ?d ?i ?m] =>
      pose proof (CreateTeam_members_keys d i m) as H1;
      destruct (CreateTeam_members d i m) as [r2 err]
  end.
  simpl in *. exact H1.
Qed.

Lemma SetUserActive_keys_service (s : Service DB) userID active :
  same_keys (Repo s) (Repo (SetUserActive s userID active).1).
Proof.
  unfold SetUserActive. simpl. unfold GetUserByID.
  destruct (GetContext _); [|apply same_keys_refl].
  simpl. apply SetUserActive_keys.
Qed.

Lemma MergePR_keys (s : Service DB) prID :
  same_keys (Repo s) (Repo (MergePR s prID).1).
Proof.
  unfold MergePR. simpl. unfold GetPRByID.
  destruct (GetContext _); [|apply same_keys_refl]. simpl.
  case_bool_decide; [apply same_keys_refl|]. apply SetPRStatus_keys.
Qed.

Lemma BulkDeactivateTeam_keys (s : Service DB) teamName reassign :
  same_keys (Repo s) (Repo (BulkDeactivateTeam s teamName reassign).1).
Proof.
  unfold BulkDeactivateTeam. simpl. unfold GetTeamByName.
  destruct (GetContext _); [|apply same_keys_refl]. simpl.
  apply DeactivateTeamMembers_keys.
Qed.

End Repo_invariant.

Module Repo_bindings.
Import repo repo.Repo service Repo_spec Repo_facts Repo_joins Repo_invariant.

(** *** Counting binding rows *)

Lemma bindings_AddReviewer d prID userID prID' :
  length (bindings (AddReviewer d prID userID).1 prID')
  ≤ length (bindings d prID') + (if decide (prID' = prID) then 1 else 0).
Proof.
  unfold AddReviewer, bindings. destruct (conflict _ _); simpl; [lia|].
  rewrite filter_app, length_app, filter_cons, filter_nil. simpl.
  destruct (decide (prID = prID')), (decide (prID' = prID));
    simpl; try congruence; lia.
Qed.

Lemma bindings_RemoveReviewer d prID userID prID' :
  bindings (RemoveReviewer d prID userID).1 prID'
  = filter (fun r => ¬ (rv_pr_id r = prID ∧ rv_user_id r = userID))
           (bindings d prID').
Proof.
  unfold RemoveReviewer, bindings, DELETE. simpl.
  rewrite !list_filter_filter. apply list_filter_iff. tauto.
Qed.

Lemma bindings_RemoveReviewer_le d prID userID prID' :
  length (bindings (RemoveReviewer d prID userID).1 prID')
  ≤ length (bindings d prID').
Proof. rewrite bindings_RemoveReviewer. apply length_filter. Qed.

Lemma bindings_RemoveReviewer_lt d prID userID :
  mk_pr_reviewers prID userID ∈ pr_reviewers d ->
  length (bindings (RemoveReviewer d prID userID).1 prID)
  < length (bindings d prID).
Proof.
  intros Hin. rewrite bindings_RemoveReviewer.
  apply (length_filter_lt _ _ (mk_pr_reviewers prID userID)).
  - by apply list_elem_of_filter.
  - simpl. tauto.
Qed.

(** A join against a table with distinct keys yields at most one row per
    row of the other side. *)
Lemma bind_if_filter {A} (P : A -> Prop) `{!∀ x, Decision (P x)} (l : list A) :
  (x ← l; if bool_decide (P x) then [x] else []) = filter P l.
Proof.
  induction l as [|x l IH]; [done|]. rewrite filter_cons, bind_cons, IH.
  by destruct (decide (P x));
    [rewrite bool_decide_eq_true_2|rewrite bool_decide_eq_false_2].
Qed.

Lemma length_filter_key {A K} `{EqDecision K} (f : A -> K) (k : K) (l : list A) :
  NoDup (f <$> l) -> length (filter (fun x => f x = k) l) ≤ 1.
Proof.
  induction l as [|x l IH]; [simpl; lia|].
  rewrite fmap_cons, NoDup_cons. intros [Hx Hnd]. rewrite filter_cons.
  destruct (decide (f x = k)) as [<-|]; [|auto]. simpl.
  destruct (filter _ l) as [|y ?] eqn:Hf; [simpl; lia|].
  exfalso. apply Hx. apply list_elem_of_fmap. exists y. 
  assert (y ∈ filter (fun x' => f x' = f x) l) as Hy by (rewrite Hf; left).
  apply list_elem_of_filter in Hy as [? ?]. done.
Qed.

Lemma length_pr_users d prID :
  NoDup (users_id <$> users d) ->
  length (pr_users d prID) ≤ length (bindings d prID).
Proof.
  intros Hnd. unfold pr_users, bindings.
  induction (pr_reviewers d) as [|r rs IH]; [done|].
  rewrite filter_cons, bind_cons, length_app, bind_if_filter.
  destruct (decide (rv_pr_id r = prID)) as [Hr|Hr]; simpl.
  - pose proof (length_filter_key users_id (rv_user_id r) (users d) Hnd).
    rewrite (list_filter_iff _ (fun u => users_id u = rv_user_id r))
      by naive_solver.
    lia.
  - rewrite (list_filter_iff _ (fun _ => False)) by naive_solver.
    assert (filter (fun _ : users_row => False) (users d) = []) as ->.
    { clear. induction (users d) as [|u us IHus]; [done|].
      rewrite filter_cons_False; [done|tauto]. }
    simpl. lia.
Qed.

(** *** [assignReviewers] and the binding loop of [CreatePR] *)

Lemma assignReviewers_spec (s s' : Service DB) teamName excl res :
  assignReviewers s teamName excl = (s', res) ->
  let candidates := scan_User <$> team_users (Repo s) teamName (active_except excl) in
  Repo s' = Repo s
  ∧ ∃ reviewers, res = Ok reviewers
      ∧ length reviewers = min 2 (length candidates)
      ∧ reviewers ⊆ candidates.
Proof.
  intros Hrun candidates. unfold assignReviewers in Hrun. simpl in Hrun.
  fold candidates in Hrun. revert Hrun.
  case_bool_decide as Hlen.
  { intros [= <- <-]. split; [done|]. exists []. rewrite Hlen.
    split_and!; [done|done|]. apply list_subseteq_nil. }
  destruct (Shuffle (rand s) candidates) as [shuffled src] eqn:Hsh.
  intros [= <- <-]. split; [done|]. eexists. split; [reflexivity|].
  pose proof (Shuffle_Permutation (rand s) candidates) as Hperm.
  rewrite Hsh in Hperm. simpl in Hperm. split.
  - rewrite length_take, <- Hperm. case_bool_decide; lia.
  - etrans; [apply subseteq_take|]. by rewrite Hperm.
Qed.

Lemma CreatePR_bind_spec d prID reviewers :
  let d' := CreatePR_bind d prID reviewers in
  users d' = users d ∧ prs d' = prs d
  ∧ (∀ r, r ∈ pr_reviewers d' ->
          r ∈ pr_reviewers d ∨ rv_pr_id r = prID)
  ∧ (∀ prID', length (bindings d' prID')
              ≤ length (bindings d prID')
                + (if decide (prID' = prID) then length reviewers else 0)).
Proof.
  revert d. induction reviewers as [|reviewer rest IH]; intros d.
  { simpl. split_and!; [done|done|auto|]. intros. case_decide; lia. }
  cbn [CreatePR_bind repo.AddReviewer repo.AddAssignmentEvent
       Repo_RepoInterface length].
  rewrite AddReviewer_nil, AddAssignmentEvent_nil.
  set (d1 := (AddReviewer d prID (User_ID reviewer)).1).
  destruct (IH (AddAssignmentEvent d1 prID (User_ID reviewer)).1)
    as (Hu & Hp & Hin & Hlen).
  destruct (AddReviewer_frame d prID (User_ID reviewer)) as (Hu1 & _ & _ & Hp1 & _).
  split_and!.
  - rewrite Hu. simpl. done.
  - rewrite Hp. simpl. done.
  - intros r Hr. apply Hin in Hr as [Hr|Hr]; [|by right].
    simpl in Hr. apply elem_of_AddReviewer in Hr as [Hr| ->]; [by left|by right].
  - intros prID'. etrans; [apply Hlen|].
    change (bindings (AddAssignmentEvent d1 _ _).1 prID') with (bindings d1 prID').
    pose proof (bindings_AddReviewer d prID (User_ID reviewer) prID').
    fold d1 in H. case_decide; lia.
Qed.

End Repo_bindings.

Module Repo_engine.
Import repo repo.Repo service Repo_spec Repo_facts Repo_joins Repo_invariant
       Repo_bindings.

#[local] Arguments GetUserTeam : simpl never.
#[local] Arguments pr_users : simpl never.

(** What a successful [ReassignReviewer] did: it read the PR as not merged,
    found [oldUserID] among its reviewers, drew a row [u] of the active
    members of the old reviewer's team other than the old reviewer, and
    ran the three writes on the store. *)
Lemma ReassignReviewer_Ok_inv (s s' : Service DB) prID old pr new :
  ReassignReviewer s prID old = (s', Ok (pr, new)) ->
  ∃ p teamName u src,
    head (pr_rows (Repo s) prID) = Some p
    ∧ prs_status p ≠ "MERGED"
    ∧ old ∈ (User_ID <$> (scan_User <$> pr_users (Repo s) prID))
    ∧ GetUserTeam (Repo s) old = Ok teamName
    ∧ u ∈ team_users (Repo s) teamName (active_except old)
    ∧ new = users_id u
    ∧ Repo s' =
        (AddAssignmentEvent
           (AddReviewer
              (RemoveReviewer (with_random src (Repo s)) prID old).1
              prID new).1
           prID new).1
    ∧ rand s' = rand s
    ∧ pr = mkPR (prs_id p) (prs_title p) (prs_author_id p) (prs_status p)
                (scan_User <$> pr_users (Repo s') prID).
Proof.
  unfold ReassignReviewer. simpl.
  destruct (GetPRByID (Repo s) prID) as [pr0|] eqn:Hget; [|done].
  apply GetPRByID_Ok in Hget as (p & Hp & ->). simpl.
  case_bool_decide as Hst; [done|].
  destruct (oldUserAssigned _ old) eqn:Hold; [|done]. simpl.
  apply oldUserAssigned_true in Hold.
  destruct (GetUserTeam (Repo s) old) as [teamName|] eqn:Hteam; [|done].
  destruct (GetRandomActiveTeamMember (Repo s) teamName old)
    as [r1 [newReviewer|]] eqn:Hrand; [|done].
  apply GetRandomActiveTeamMember_Ok in Hrand as (u & src & Hu & -> & ->).
  simpl. destruct (AddReviewer _ prID (users_id u)) as [r3 o] eqn:Hadd.
  rewrite AddReviewer_nil in Hadd. injection Hadd as <- <-.
  intros [= <- <- <-]. exists p, teamName, u, src.
  repeat (split; [done|]). done.
Qed.

(** *** What [CreatePR] did when it returns *)

Lemma PRExists_false d prID :
  PRExists d prID = Ok false <-> pr_rows d prID = [].
Proof.
  unfold PRExists, pr_rows. destruct (filter _ (prs d)).
  - by split.
  - by split.
Qed.

Lemma CreatePRWithID_fresh d prID title authorID :
  pr_rows d prID = [] ->
  CreatePRWithID d prID title authorID
  = (with_prs (fun ps => ps ++ [mk_prs prID title authorID "OPEN"]) d, None).
Proof.
  intros Hnil. unfold CreatePRWithID.
  destruct (conflict _ _) eqn:Hc; [|done].
  apply conflict_true in Hc as (p & Hp & Hid).
  rewrite pr_rows_nil in Hnil. by destruct (Hnil p Hp).
Qed.

Lemma CreatePR_Ok_inv (s s' : Service DB) prID prName authorID pr :
  CreatePR s prID prName authorID = (s', Ok pr) ->
  ∃ teamName reviewers,
    pr_rows (Repo s) prID = []
    ∧ (∃ u, u ∈ users (Repo s) ∧ users_id u = authorID)
    ∧ GetUserTeam (Repo s) authorID = Ok teamName
    ∧ pr = mkPR prID prName authorID "OPEN" reviewers
    ∧ length reviewers
      = min 2 (length (team_users (Repo s) teamName (active_except authorID)))
    ∧ reviewers
      ⊆ scan_User <$> team_users (Repo s) teamName (active_except authorID)
    ∧ Repo s'
      = CreatePR_bind
          (with_prs (fun ps => ps ++ [mk_prs prID prName authorID "OPEN"])
                    (Repo s))
          prID reviewers.
Proof.
  unfold CreatePR.
  destruct (repo.PRExists (Repo s) prID) as [[|]|] eqn:Hex; [done| |done].
  apply PRExists_false in Hex.
  destruct (repo.GetUserByID (Repo s) authorID) as [author|] eqn:Hauthor;
    [|done].
  destruct (repo.GetUserTeam (Repo s) authorID) as [teamName|] eqn:Hteam;
    [|done].
  cbn [repo.CreatePRWithID Repo_RepoInterface].
  rewrite (CreatePRWithID_fresh _ _ _ _ Hex).
  destruct (assignReviewers _ teamName authorID) as [s2 res] eqn:Has.
  apply assignReviewers_spec in Has as (Hs2 & reviewers & -> & Hlen & Hsub).
  intros [= <- <-]. exists teamName, reviewers.
  rewrite length_fmap in Hlen. split_and!; try done.
  - simpl in Hauthor. unfold GetUserByID in Hauthor.
    destruct (filter _ (users (Repo s))) as [|u ?] eqn:Hf; [done|].
    exists u. apply and_comm.
    apply (list_elem_of_filter (fun u => users_id u = authorID)).
    rewrite Hf. left.
  - simpl. by rewrite Hs2.
Qed.

Lemma CreatePR_Err_inv (s s' : Service DB) prID prName authorID e :
  CreatePR s prID prName authorID = (s', Err e) -> s' = s.
Proof.
  unfold CreatePR.
  destruct (repo.PRExists (Repo s) prID) as [[|]|] eqn:Hex;
    [by intros [= <-]| |by intros [= <-]].
  apply PRExists_false in Hex.
  destruct (repo.GetUserByID (Repo s) authorID); [|by intros [= <-]].
  destruct (repo.GetUserTeam (Repo s) authorID); [|by intros [= <-]].
  cbn [repo.CreatePRWithID Repo_RepoInterface].
  rewrite (CreatePRWithID_fresh _ _ _ _ Hex).
  by destruct (assignReviewers _ _ _).
Qed.

Lemma bindings_nil_of_absent d prID :
  wf d -> pr_rows d prID = [] -> bindings d prID = [].
Proof.
  intros Hwf Hnil. rewrite pr_rows_nil in Hnil. unfold bindings.
  destruct (filter _ (pr_reviewers d)) as [|r ?] eqn:Hf; [done|].
  assert (r ∈ filter (fun r => rv_pr_id r = prID) (pr_reviewers d)) as Hr
    by (rewrite Hf; left).
  apply list_elem_of_filter in Hr as [Hid Hr].
  destruct (wf_fk _ Hwf r Hr) as (p & Hp & Hpid).
  destruct (Hnil p Hp). congruence.
Qed.

Lemma CreatePR_wf (s : Service DB) prID prName authorID :
  wf (Repo s) -> wf (Repo (CreatePR s prID prName authorID).1).
Proof.
  intros Hwf.
  destruct (CreatePR s prID prName authorID) as [s' [pr|e]] eqn:Hrun; simpl.
  2: { by rewrite (CreatePR_Err_inv _ _ _ _ _ _ Hrun). }
  apply CreatePR_Ok_inv in Hrun
    as (teamName & reviewers & Hnil & _ & _ & _ & Hlen & _ & ->).
  set (d1 := with_prs _ (Repo s)).
  destruct (CreatePR_bind_spec d1 prID reviewers) as (Hu & Hp & Hin & Hcount).
  split.
  - intros prID'. etrans; [apply Hcount|].
    change (bindings d1 prID') with (bindings (Repo s) prID').
    case_decide as Heq.
    + subst prID'. rewrite (bindings_nil_of_absent _ _ Hwf Hnil). simpl. lia.
    + pose proof (wf_bound _ Hwf prID'). lia.
  - intros r Hr. rewrite Hp. unfold d1. simpl.
    apply Hin in Hr as [Hr|Hr].
    + destruct (wf_fk _ Hwf r Hr) as (p & ? & ?). exists p.
      split; [|done]. apply elem_of_app. by left.
    + eexists. split; [apply elem_of_app; right; apply list_elem_of_singleton;
                        reflexivity|done].
  - rewrite Hu. apply (wf_users _ Hwf).
Qed.

(** *** What [ReassignReviewer] did when it fails *)

Lemma ReassignReviewer_Err_inv (s s' : Service DB) prID old e :
  ReassignReviewer s prID old = (s', Err e) -> s' = s.
Proof.
  unfold ReassignReviewer.
  destruct (repo.GetPRByID (Repo s) prID) as [pr|]; [|by intros [= <-]].
  case_bool_decide; [by intros [= <-]|].
  destruct (repo.GetPRReviewers (Repo s) prID) as [reviewers|];
    [|by intros [= <-]].
  destruct (negb _); [by intros [= <-]|].
  destruct (repo.GetUserTeam (Repo s) old) as [teamName|]; [|by intros [= <-]].
  destruct (repo.GetRandomActiveTeamMember (Repo s) teamName old)
    as [r1 [newReviewer|]] eqn:Hrand.
  - cbn [repo.RemoveReviewer repo.AddReviewer repo.AddAssignmentEvent
         Repo_RepoInterface].
    rewrite RemoveReviewer_nil, AddReviewer_nil, AddAssignmentEvent_nil. done.
  - simpl in Hrand. apply GetRandomActiveTeamMember_Err in Hrand as [_ ->].
    intros [= <-]. apply with_Repo_same.
Qed.

Lemma ReassignReviewer_bindings (s : Service DB) prID old prID' :
  length (bindings (Repo (ReassignReviewer s prID old).1) prID')
  ≤ length (bindings (Repo s) prID').
Proof.
  destruct (ReassignReviewer s prID old) as [s' [[pr new]|e]] eqn:Hrun; simpl.
  2: { by rewrite (ReassignReviewer_Err_inv _ _ _ _ _ Hrun). }
  apply ReassignReviewer_Ok_inv in Hrun
    as (p & teamName & u & src & Hp & Hst & Hold & Hteam & Hu & -> & -> & _).
  change (bindings (AddAssignmentEvent ?d _ _).1 prID') with (bindings d prID').
  etrans; [apply bindings_AddReviewer|].
  case_decide as Heq.
  - subst prID'.
    assert (mk_pr_reviewers prID old ∈ pr_reviewers (with_random src (Repo s)))
      as Hbound.
    { rewrite <- list_fmap_compose in Hold.
      apply list_elem_of_fmap in Hold as (v & -> & Hv).
      by apply elem_of_pr_users in Hv as [_ Hv]. }
    pose proof (bindings_RemoveReviewer_lt _ _ _ Hbound) as Hlt.
    change (bindings (with_random src (Repo s)) prID)
      with (bindings (Repo s) prID) in Hlt. lia.
  - pose proof (bindings_RemoveReviewer_le (with_random src (Repo s))
                  prID old prID') as Hle.
    change (bindings (with_random src (Repo s)) prID')
      with (bindings (Repo s) prID') in Hle. lia.
Qed.

Lemma ReassignReviewer_wf (s : Service DB) prID old :
  wf (Repo s) -> wf (Repo (ReassignReviewer s prID old).1).
Proof.
  intros Hwf. split.
  - intros prID'. etrans; [apply ReassignReviewer_bindings|].
    apply (wf_bound _ Hwf).
  - destruct (ReassignReviewer s prID old) as [s' [[pr new]|e]] eqn:Hrun; simpl.
    2: { rewrite (ReassignReviewer_Err_inv _ _ _ _ _ Hrun).
         apply (wf_fk _ Hwf). }
    apply ReassignReviewer_Ok_inv in Hrun
      as (p & teamName & u & src & Hp & Hst & Hold & Hteam & Hu & -> & -> & _).
    intros r.
    change (pr_reviewers (AddAssignmentEvent ?d _ _).1) with (pr_reviewers d).
    change (prs (AddAssignmentEvent ?d _ _).1) with (prs d).
    rewrite (proj1 (proj2 (proj2 (proj2 (AddReviewer_frame _ _ _))))).
    rewrite elem_of_AddReviewer, elem_of_RemoveReviewer.
    intros [[Hr _]| ->].
    + apply (wf_fk _ Hwf r Hr).
    + exists p. split; [|by apply pr_rows_head_id in Hp].
      apply head_Some_elem_of in Hp.
      by apply list_elem_of_filter in Hp as [_ ?].
  - destruct (ReassignReviewer s prID old) as [s' [[pr new]|e]] eqn:Hrun; simpl.
    2: { rewrite (ReassignReviewer_Err_inv _ _ _ _ _ Hrun).
         apply (wf_users _ Hwf). }
    apply ReassignReviewer_Ok_inv in Hrun
      as (p & teamName & u & src & Hp & Hst & Hold & Hteam & Hu & -> & -> & _).
    change (users (AddAssignmentEvent ?d _ _).1) with (users d).
    rewrite (proj1 (AddReviewer_frame _ _ _)). apply (wf_users _ Hwf).
Qed.

(** *** Every call keeps the store well-formed *)

Lemma step_wf (s : Service DB) (o : op) : wf (Repo s) -> wf (Repo (step s o)).
Proof.
  intros Hwf. destruct o; simpl.
  - eapply wf_same_keys; [done|apply CreateTeam_keys].
  - eapply wf_same_keys; [done|apply SetUserActive_keys_service].
  - by apply CreatePR_wf.
  - eapply wf_same_keys; [done|apply MergePR_keys].
  - by apply ReassignReviewer_wf.
  - eapply wf_same_keys; [done|apply BulkDeactivateTeam_keys].
Qed.

Lemma run_wf (s : Service DB) (ops : list op) :
  wf (Repo s) -> wf (Repo (run s ops)).
Proof.
  revert s. induction ops as [|o ops IH]; intros s Hwf; [done|].
  simpl. apply IH. by apply step_wf.
Qed.

End Repo_engine.

(** ** Facts about the two aggregations of assignment events *)

Module stats_facts.
Import repo.

Lemma times_assigned_pos uids uid : 0 < times_assigned uids uid <-> uid ∈ uids.
Proof.
  unfold times_assigned. induction uids as [|u uids IH].
  - simpl. rewrite elem_of_nil. lia.
  - rewrite filter_cons, elem_of_cons. case_decide; simpl; [|naive_solver].
    split; [auto|lia].
Qed.

(** Storing [f k] under every key [k] of a list. *)
Lemma lookup_foldl_insert (f : string -> Z) (ks : list string)
    (m : gmap string Z) (k : string) :
  foldl (fun stats stat => <[stat.1 := stat.2]> stats) m
        ((fun k => (k, f k)) <$> ks) !! k
  = if decide (k ∈ ks) then Some (f k) else m !! k.
Proof.
  revert m. induction ks as [|k0 ks IH]; intros m.
  { destruct (decide (k ∈ [])) as [Hin|]; [|done].
    by apply elem_of_nil in Hin. }
  rewrite fmap_cons. cbn [foldl fst snd]. rewrite IH.
  destruct (decide (k ∈ ks)) as [Hin|Hin].
  - by rewrite decide_True by (by right).
  - destruct (decide (k = k0)) as [->|Hne].
    + rewrite decide_True by left. by rewrite lookup_insert_eq.
    + rewrite decide_False by (rewrite elem_of_cons; tauto).
      by rewrite lookup_insert_ne.
Qed.

Lemma Repo_GetAssignmentStats_lookup (d : Repo.DB) (uid : string) :
  ∃ stats, Repo.GetAssignmentStats d = Ok stats
    ∧ stats !! uid
      = let n := times_assigned (Repo.ev_user_id <$> Repo.assignment_events d) uid in
        if decide (n = 0) then None else Some (Z.of_nat n).
Proof.
  eexists. split; [reflexivity|]. unfold Repo.assignment_counts.
  rewrite (lookup_foldl_insert
             (fun uid => Z.of_nat (length (filter (fun e => Repo.ev_user_id e = uid)
                                                  (Repo.assignment_events d))))).
  rewrite lookup_empty. cbn zeta.
  pose proof (times_assigned_pos (Repo.ev_user_id <$> Repo.assignment_events d) uid)
    as Hpos.
  assert (times_assigned (Repo.ev_user_id <$> Repo.assignment_events d) uid
          = length (filter (fun e => Repo.ev_user_id e = uid)
                           (Repo.assignment_events d))) as Hn.
  { unfold times_assigned. clear.
    induction (Repo.assignment_events d) as [|e es IH]; [done|].
    rewrite fmap_cons, !filter_cons. case_decide; simpl; by rewrite IH. }
  rewrite <- Hn. destruct (decide (uid ∈ remove_dups _)) as [Hin|Hin];
    rewrite elem_of_remove_dups in Hin; case_decide; try done.
  - apply Hpos in Hin. lia.
  - destruct Hin. apply Hpos. lia.
Qed.

(** The counting loop of the mock, from any map whose counters are small
    enough for the increments not to wrap. *)
Lemma lookup_foldl_incr (assignments : list (string * string))
    (m : gmap string Z) (uid : string) :
  (0 ≤ default 0 (m !! uid))%Z ->
  (default 0 (m !! uid) + Z.of_nat (length assignments) < 2 ^ 63)%Z ->
  foldl (fun stats assignment =>
           <[assignment.2 := wrap64 (default 0%Z (stats !! assignment.2) + 1)]>
             stats) m assignments !! uid
  = let n := times_assigned (snd <$> assignments) uid in
    if decide (n = 0) then m !! uid
    else Some (default 0 (m !! uid) + Z.of_nat n)%Z.
Proof.
  revert m. induction assignments as [|[prID u] rest IH]; intros m Hlo Hhi.
  { done. }
  cbn [foldl snd]. rewrite fmap_cons. unfold times_assigned.
  rewrite filter_cons. cbn [snd]. cbn [length] in Hhi.
  destruct (decide (u = uid)) as [->|Hne].
  - assert (wrap64 (default 0 (m !! uid) + 1) = default 0 (m !! uid) + 1)%Z
      as Hwrap.
    { unfold wrap64. rewrite Z.mod_small; lia. }
    rewrite IH; rewrite lookup_insert_eq, Hwrap; simpl; try lia.
    fold (times_assigned (snd <$> rest) uid).
    case_decide as Hn; [rewrite Hn; f_equal; lia|f_equal; lia].
  - rewrite IH; rewrite lookup_insert_ne by done; try lia.
    fold (times_assigned (snd <$> rest) uid). done.
Qed.

Lemma mockRepo_GetAssignmentStats_lookup (m : mockRepo.mockRepo) (uid : string) :
  (Z.of_nat (length (mockRepo.assignments m)) < 2 ^ 63)%Z ->
  ∃ stats, mockRepo.GetAssignmentStats m = Ok stats
    ∧ stats !! uid
      = let n := times_assigned (snd <$> mockRepo.assignments m) uid in
        if decide (n = 0) then None else Some (Z.of_nat n).
Proof.
  intros Hlen. eexists. split; [reflexivity|].
  rewrite lookup_foldl_incr; rewrite lookup_empty; simpl; try lia.
  case_decide; [done|]. f_equal.
Qed.

End stats_facts.

(** ** The engine over every store behind the interface *)

Section any_store.
Import service.
Context {R : Type} `{!repo.RepoInterface R}.

(** C2, as the code has it: when the PR id is fresh and the author is a
    known user, but the store finds no team for the author, CreatePR fails
    with the untyped error "author has no team" and writes nothing: the
    service comes back as it was, no PR is persisted. *)
Theorem CreatePR_author_without_team (s : Service R)
    (prID prName authorID : string) author e :
  repo.PRExists (Repo s) prID = Ok false ->
  repo.GetUserByID (Repo s) authorID = Ok author ->
  repo.GetUserTeam (Repo s) authorID = Err e ->
  CreatePR s prID prName authorID = (s, Err (errors_New "author has no team")).
Proof.
  intros Hex Hauthor Hteam. unfold CreatePR. by rewrite Hex, Hauthor, Hteam.
Qed.

(** C5: ReassignReviewer on a PR whose status is MERGED fails with
    [ErrPRMerged], and the service (the store with its reviewer bindings
    and everything else, and the random source) is handed back as it was;
    this holds over any store behind the interface. *)
Theorem ReassignReviewer_merged (s : Service R) (prID oldUserID : string) pr :
  repo.GetPRByID (Repo s) prID = Ok pr ->
  repo.PR_Status (deref pr) = "MERGED" ->
  ReassignReviewer s prID oldUserID = (s, Err ErrPRMerged).
Proof.
  intros Hget Hst. unfold ReassignReviewer. rewrite Hget.
  by rewrite bool_decide_eq_true_2.
Qed.

End any_store.

(** ** The engine over the PostgreSQL repository *)

Section postgres.
Import repo repo.Repo service fixtures Repo_spec.
Import Repo_facts Repo_joins Repo_invariant Repo_bindings Repo_engine.
Import stats_facts.

#[local] Arguments GetUserTeam : simpl never.
#[local] Arguments pr_users : simpl never.

(** C2 fails as stated: in [lone_user_store] the id [pr-1] is fresh and
    [u1] is a known user without a team, yet CreatePR does not succeed. *)
Lemma CreatePR_author_without_team_counterexample :
  repo.PRExists (Repo lone_user_store) "pr-1" = Ok false
  ∧ (∃ author, repo.GetUserByID (Repo lone_user_store) "u1" = Ok author)
  ∧ (∀ teamName, repo.GetUserTeam (Repo lone_user_store) "u1" ≠ Ok teamName)
  ∧ ¬ ∃ s' pr, CreatePR lone_user_store "pr-1" "T" "u1" = (s', Ok pr).
Proof.
  split_and!; [done|by eexists|done|].
  intros (s' & pr & Hrun). vm_compute in Hrun. discriminate Hrun.
Qed.

Lemma CreatePR_author_without_team_witness :
  CreatePR lone_user_store "pr-1" "T" "u1"
  = (lone_user_store, Err (errors_New "author has no team")).
Proof.
  eapply (CreatePR_author_without_team lone_user_store "pr-1" "T" "u1").
  - reflexivity.
  - vm_compute. reflexivity.
  - vm_compute. reflexivity.
Defined.

Lemma ReassignReviewer_merged_witness :
  ReassignReviewer merged_store "pr-1" "reviewer1"
  = (merged_store, Err ErrPRMerged).
Proof.
  eapply (ReassignReviewer_merged merged_store "pr-1" "reviewer1").
  - vm_compute. reflexivity.
  - reflexivity.
Defined.

(** C3: on an existing PR, two calls of MergePR in a row both succeed and
    return status MERGED and the same reviewers (indeed the same PR value),
    and the second call leaves the store as the first one left it. *)
Theorem MergePR_idempotent (s : Service DB) (prID : string) pr0 :
  repo.GetPRByID (Repo s) prID = Ok pr0 ->
  ∃ pr1 pr2,
    (MergePR s prID).2 = Ok pr1
    ∧ (MergePR (MergePR s prID).1 prID).2 = Ok pr2
    ∧ PR_Status pr1 = "MERGED" ∧ PR_Status pr2 = "MERGED"
    ∧ PR_Reviewers pr1 = PR_Reviewers pr2
    ∧ pr1 = pr2
    ∧ (MergePR (MergePR s prID).1 prID).1 = (MergePR s prID).1.
Proof.
  intros Hget. apply GetPRByID_Ok in Hget as (p & Hp & _).
  destruct (decide (prs_status p = "MERGED")) as [Hst|Hst].
  - rewrite (MergePR_merged s prID p Hp Hst). simpl.
    rewrite (MergePR_merged s prID p Hp Hst). simpl. eauto 10.
  - rewrite (MergePR_open s prID p Hp Hst). cbn [fst snd].
    set (s1 := with_Repo s _).
    assert (head (pr_rows (Repo s1) prID) = Some (set_status "MERGED" p)) as Hp1.
    { unfold s1. cbn [Repo with_Repo]. rewrite pr_rows_SetPRStatus.
      destruct (pr_rows (Repo s) prID); by simplify_eq/=. }
    rewrite (MergePR_merged s1 prID _ Hp1 eq_refl). cbn [fst snd].
    eexists _, _. repeat (split; [reflexivity|]). reflexivity.
Qed.

Lemma MergePR_idempotent_witness :
  ∃ pr1 pr2,
    (MergePR dev_store "pr-1").2 = Ok pr1
    ∧ (MergePR (MergePR dev_store "pr-1").1 "pr-1").2 = Ok pr2
    ∧ PR_Status pr1 = "MERGED" ∧ PR_Status pr2 = "MERGED"
    ∧ PR_Reviewers pr1 = PR_Reviewers pr2
    ∧ pr1 = pr2
    ∧ (MergePR (MergePR dev_store "pr-1").1 "pr-1").1
      = (MergePR dev_store "pr-1").1.
Proof.
  eapply (MergePR_idempotent dev_store "pr-1"). vm_compute. reflexivity.
Defined.

(** C10: merging an existing OPEN PR succeeds and touches the [prs] table
    only, and there only the status of the rows of that PR: reviewer
    bindings, assignment events and every other table stay as they were, and
    the reviewers returned are the ones bound before the call. *)
Theorem MergePR_open_frame (s : Service DB) (prID : string) pr :
  repo.GetPRByID (Repo s) prID = Ok pr ->
  PR_Status (deref pr) = "OPEN" ->
  ∃ s' reviewers,
    MergePR s prID
    = (s', Ok (mkPR (PR_ID (deref pr)) (PR_Title (deref pr))
                    (PR_AuthorID (deref pr)) "MERGED" reviewers))
    ∧ repo.GetPRReviewers (Repo s) prID = Ok reviewers
    ∧ repo.GetPRReviewers (Repo s') prID = Ok reviewers
    ∧ pr_reviewers (Repo s') = pr_reviewers (Repo s)
    ∧ assignment_events (Repo s') = assignment_events (Repo s)
    ∧ users (Repo s') = users (Repo s)
    ∧ teams (Repo s') = teams (Repo s)
    ∧ team_members (Repo s') = team_members (Repo s)
    ∧ Forall2 (fun p p' =>
                 prs_id p' = prs_id p ∧ prs_title p' = prs_title p
                 ∧ prs_author_id p' = prs_author_id p
                 ∧ (prs_id p = prID -> prs_status p' = "MERGED")
                 ∧ (prs_id p ≠ prID -> p' = p))
              (prs (Repo s)) (prs (Repo s')).
Proof.
  intros Hget Hopen. apply GetPRByID_Ok in Hget as (p & Hp & ->).
  simpl in Hopen.
  assert (prs_status p ≠ "MERGED") as Hst by (rewrite Hopen; done).
  rewrite (MergePR_open s prID p Hp Hst).
  eexists _, _. split; [reflexivity|]. simpl.
  repeat (split; [reflexivity|]).
  unfold UPDATE. apply Forall2_fmap_r, Forall_Forall2_diag, Forall_forall.
  intros q _. unfold compose. cbn beta. by case_decide.
Qed.

Lemma MergePR_open_frame_witness :
  ∃ s' reviewers,
    MergePR dev_store "pr-1"
    = (s', Ok (mkPR "pr-1" "Test PR" "author1" "MERGED" reviewers))
    ∧ repo.GetPRReviewers (Repo dev_store) "pr-1" = Ok reviewers
    ∧ pr_reviewers (Repo s') = pr_reviewers (Repo dev_store)
    ∧ assignment_events (Repo s') = assignment_events (Repo dev_store).
Proof.
  edestruct (MergePR_open_frame dev_store "pr-1")
    as (s' & rs & H1 & H2 & _ & H3 & H4 & _).
  - vm_compute. reflexivity.
  - reflexivity.
  - exists s', rs. exact (conj H1 (conj H2 (conj H3 H4))).
Defined.

(** C4: the failures of ReassignReviewer, in the order the preconditions
    are checked: no such PR gives [ErrNotFound]; else a MERGED PR gives
    [ErrPRMerged]; else an old reviewer who is not among the PR's reviewers
    gives [ErrNotAssigned]; else an old reviewer without a team gives the
    untyped error "old reviewer has no team"; else an empty pool of active
    members of that team other than the old reviewer gives
    [ErrNoCandidate]; and with a non-empty pool the call succeeds.  Every
    failure hands the service back unchanged. *)
Theorem ReassignReviewer_failures (s : Service DB) (prID old : string) :
  (∀ e, repo.GetPRByID (Repo s) prID = Err e ->
        ReassignReviewer s prID old = (s, Err ErrNotFound))
  ∧ (∀ pr, repo.GetPRByID (Repo s) prID = Ok pr ->
     (PR_Status (deref pr) = "MERGED" ->
        ReassignReviewer s prID old = (s, Err ErrPRMerged))
     ∧ (PR_Status (deref pr) ≠ "MERGED" ->
        ∀ reviewers, repo.GetPRReviewers (Repo s) prID = Ok reviewers ->
        (old ∉ (User_ID <$> reviewers) ->
           ReassignReviewer s prID old = (s, Err ErrNotAssigned))
        ∧ (old ∈ (User_ID <$> reviewers) ->
           (∀ e, repo.GetUserTeam (Repo s) old = Err e ->
                 ReassignReviewer s prID old
                 = (s, Err (errors_New "old reviewer has no team")))
           ∧ (∀ teamName, repo.GetUserTeam (Repo s) old = Ok teamName ->
              (repo.GetActiveTeamMembersExcept (Repo s) teamName old = Ok [] ->
                 ReassignReviewer s prID old = (s, Err ErrNoCandidate))
              ∧ (∀ c cs,
                   repo.GetActiveTeamMembersExcept (Repo s) teamName old
                   = Ok (c :: cs) ->
                   ∃ s' pr' new,
                     ReassignReviewer s prID old = (s', Ok (pr', new))))))).
Proof.
  split.
  { intros e Hget. unfold ReassignReviewer. by rewrite Hget. }
  intros pr Hget. split.
  { intros Hst. unfold ReassignReviewer. rewrite Hget.
    by rewrite bool_decide_eq_true_2. }
  intros Hst reviewers Hrev. split.
  { intros Hold. unfold ReassignReviewer. rewrite Hget.
    rewrite bool_decide_eq_false_2, Hrev by done.
    rewrite <- oldUserAssigned_true in Hold.
    apply not_true_is_false in Hold. by rewrite Hold. }
  intros Hold. apply oldUserAssigned_true in Hold.
  assert (∀ X, ReassignReviewer s prID old = X <->
    match repo.GetUserTeam (Repo s) old with
    | Err _ => (s, Err (errors_New "old reviewer has no team"))
    | Ok teamName =>
        match repo.GetRandomActiveTeamMember (Repo s) teamName old with
        | (r1, Err _) => (with_Repo s r1, Err ErrNoCandidate)
        | (r1, Ok newReviewer) =>
            let newID := User_ID (deref newReviewer) in
            let r4 := (AddAssignmentEvent
                         (AddReviewer (RemoveReviewer r1 prID old).1
                                      prID newID).1 prID newID).1 in
            (with_Repo s r4,
             Ok (mkPR (PR_ID (deref pr)) (PR_Title (deref pr))
                      (PR_AuthorID (deref pr)) (PR_Status (deref pr))
                      (scan_User <$> pr_users r4 prID), newID))
        end
    end = X) as Hrun.
  { intros X. unfold ReassignReviewer. rewrite Hget.
    rewrite bool_decide_eq_false_2, Hrev, Hold by done. cbn [negb].
    destruct (repo.GetUserTeam (Repo s) old) as [teamName|]; [|done].
    destruct (repo.GetRandomActiveTeamMember (Repo s) teamName old)
      as [r1 [newReviewer|]]; [|done].
    simpl. destruct (AddReviewer _ prID _) as [r3 o] eqn:Hadd.
    rewrite AddReviewer_nil in Hadd. by injection Hadd as <- <-. }
  split.
  { intros e Hteam. apply Hrun. by rewrite Hteam. }
  intros teamName Hteam. split.
  - intros Hnone. apply Hrun. rewrite Hteam.
    simpl in Hnone. injection Hnone as Hnone. apply fmap_nil_inv in Hnone.
    simpl. unfold GetRandomActiveTeamMember. rewrite Hnone.
    by rewrite with_Repo_same.
  - intros c cs Hsome. simpl in Hsome. injection Hsome as Hsome.
    destruct (GetRandomActiveTeamMember_is_Ok (Repo s) teamName old)
      as (d' & newReviewer & Hrand).
    { intros Hnil. by rewrite Hnil in Hsome. }
    eexists _, _, _. apply Hrun. rewrite Hteam. simpl. rewrite Hrand.
    reflexivity.
Qed.

Lemma ReassignReviewer_failures_witness :
  ReassignReviewer dev_store "pr-404" "reviewer1" = (dev_store, Err ErrNotFound)
  ∧ ReassignReviewer merged_store "pr-1" "reviewer1"
    = (merged_store, Err ErrPRMerged)
  ∧ ReassignReviewer dev_store "pr-1" "reviewer3"
    = (dev_store, Err ErrNotAssigned)
  ∧ ReassignReviewer orphan_reviewer_store "pr-1" "reviewer1"
    = (orphan_reviewer_store, Err (errors_New "old reviewer has no team"))
  ∧ ReassignReviewer idle_store "pr-1" "reviewer1"
    = (idle_store, Err ErrNoCandidate)
  ∧ ∃ s' pr' new,
      ReassignReviewer dev_store "pr-1" "reviewer1" = (s', Ok (pr', new)).
Proof.
  split_and!.
  - destruct (ReassignReviewer_failures dev_store "pr-404" "reviewer1")
      as [H _].
    eapply H. vm_compute. reflexivity.
  - destruct (ReassignReviewer_failures merged_store "pr-1" "reviewer1")
      as [_ H].
    edestruct H as [H1 _]; [vm_compute; reflexivity|].
    apply H1. reflexivity.
  - destruct (ReassignReviewer_failures dev_store "pr-1" "reviewer3")
      as [_ H].
    edestruct H as [_ H1]; [vm_compute; reflexivity|].
    edestruct H1 as [H2 _]; [by_decide|vm_compute; reflexivity|].
    apply H2. by_decide.
  - destruct (ReassignReviewer_failures orphan_reviewer_store "pr-1" "reviewer1")
      as [_ H].
    edestruct H as [_ H1]; [vm_compute; reflexivity|].
    edestruct H1 as [_ H2]; [by_decide|vm_compute; reflexivity|].
    edestruct H2 as [H3 _]; [by_decide|].
    eapply H3. vm_compute. reflexivity.
  - destruct (ReassignReviewer_failures idle_store "pr-1" "reviewer1")
      as [_ H].
    edestruct H as [_ H1]; [vm_compute; reflexivity|].
    edestruct H1 as [_ H2]; [by_decide|vm_compute; reflexivity|].
    edestruct H2 as [_ H3]; [by_decide|].
    edestruct H3 as [H4 _]; [vm_compute; reflexivity|].
    apply H4. vm_compute. reflexivity.
  - destruct (ReassignReviewer_failures dev_store "pr-1" "reviewer1")
      as [_ H].
    edestruct H as [_ H1]; [vm_compute; reflexivity|].
    edestruct H1 as [_ H2]; [by_decide|vm_compute; reflexivity|].
    edestruct H2 as [_ H3]; [by_decide|].
    edestruct H3 as [_ H4]; [vm_compute; reflexivity|].
    eapply H4. vm_compute. reflexivity.
Defined.

(** C6: after a successful ReassignReviewer the old reviewer is neither in
    the returned reviewer list nor bound in the store, the new reviewer is
    in both, the event table has grown by exactly one row, naming the PR and
    the new reviewer, and the new reviewer is the id of an active row of
    [users] and differs from the old one. *)
Theorem ReassignReviewer_success (s s' : Service DB) (prID old : string) pr new :
  ReassignReviewer s prID old = (s', Ok (pr, new)) ->
  (old ∉ (User_ID <$> PR_Reviewers pr))
  ∧ new ∈ (User_ID <$> PR_Reviewers pr)
  ∧ repo.GetPRReviewers (Repo s') prID = Ok (PR_Reviewers pr)
  ∧ (mk_pr_reviewers prID old ∉ pr_reviewers (Repo s'))
  ∧ mk_pr_reviewers prID new ∈ pr_reviewers (Repo s')
  ∧ assignment_events (Repo s')
    = assignment_events (Repo s) ++ [mk_assignment_events prID new]
  ∧ (∃ u, u ∈ users (Repo s') ∧ users_id u = new ∧ users_is_active u = true)
  ∧ new ≠ old.
Proof.
  intros Hre.
  apply ReassignReviewer_Ok_inv in Hre
    as (p & teamName & u & src & Hp & Hst & Hold & Hteam & Hu & -> & Hs' & _ & ->).
  apply elem_of_team_users in Hu as (Hu & Hact & _).
  apply active_except_true in Hact as [Hact Hne].
  assert (∀ r, r ∈ pr_reviewers (Repo s') <->
               (r ∈ pr_reviewers (Repo s) ∧ r ≠ mk_pr_reviewers prID old)
               ∨ r = mk_pr_reviewers prID (users_id u)) as Hrv.
  { intros r. rewrite Hs'.
    change (pr_reviewers (AddAssignmentEvent ?d _ _).1) with (pr_reviewers d).
    rewrite elem_of_AddReviewer, elem_of_RemoveReviewer. done. }
  assert (users (Repo s') = users (Repo s)) as Hus.
  { rewrite Hs'.
    change (users (AddAssignmentEvent ?d _ _).1) with (users d).
    by rewrite (proj1 (AddReviewer_frame _ _ _)). }
  assert (mk_pr_reviewers prID old ∉ pr_reviewers (Repo s')) as Hout.
  { rewrite Hrv. intros [[_ ?]|[= ?]]; done. }
  assert (mk_pr_reviewers prID (users_id u) ∈ pr_reviewers (Repo s')) as Hin.
  { rewrite Hrv. by right. }
  cbn [PR_Reviewers]. split_and!.
  - rewrite <- list_fmap_compose. intros (v & -> & Hv)%list_elem_of_fmap.
    apply elem_of_pr_users in Hv as [_ Hv]. done.
  - rewrite <- list_fmap_compose. apply list_elem_of_fmap. exists u.
    split; [done|]. apply elem_of_pr_users. by rewrite Hus.
  - done.
  - done.
  - done.
  - rewrite Hs'.
    change (assignment_events (AddAssignmentEvent ?d ?a ?b).1)
      with (assignment_events d ++ [mk_assignment_events a b]).
    f_equal.
    by rewrite (proj1 (proj2 (proj2 (proj2 (proj2 (AddReviewer_frame _ _ _)))))).
  - exists u. by rewrite Hus.
  - done.
Qed.

Lemma ReassignReviewer_success_witness :
  ∃ s' pr,
    ReassignReviewer dev_store "pr-1" "reviewer1" = (s', Ok (pr, "reviewer3"))
    ∧ ("reviewer1" ∉ (User_ID <$> PR_Reviewers pr))
    ∧ "reviewer3" ∈ (User_ID <$> PR_Reviewers pr)
    ∧ assignment_events (Repo s')
      = assignment_events (Repo dev_store)
        ++ [mk_assignment_events "pr-1" "reviewer3"].
Proof.
  assert (∃ s' pr, ReassignReviewer dev_store "pr-1" "reviewer1"
                   = (s', Ok (pr, "reviewer3"))) as (s' & pr & Hrun).
  { eexists _, _. vm_compute. reflexivity. }
  exists s', pr. split; [exact Hrun|].
  destruct (ReassignReviewer_success _ _ _ _ _ _ Hrun)
    as (H1 & H2 & _ & _ & _ & H6 & _).
  exact (conj H1 (conj H2 H6)).
Defined.

(** [CreatePR] never returns the author among the reviewers, and returns
    active users only: the pool it draws from leaves the author and the
    inactive members out. *)
Lemma CreatePR_excludes_author (s s' : Service DB) prID prName authorID pr :
  CreatePR s prID prName authorID = (s', Ok pr) ->
  (authorID ∉ (User_ID <$> PR_Reviewers pr))
  ∧ ∀ r, r ∈ PR_Reviewers pr -> User_IsActive r = true.
Proof.
  intros Hrun. apply CreatePR_Ok_inv in Hrun
    as (teamName & reviewers & _ & _ & _ & -> & _ & Hsub & _).
  cbn [PR_Reviewers]. split.
  - intros (r & Hid & Hr)%list_elem_of_fmap. apply Hsub in Hr.
    apply list_elem_of_fmap in Hr as (u & -> & Hu).
    apply elem_of_team_users in Hu as (_ & Hact & _).
    apply active_except_true in Hact as [_ Hne]. by destruct Hne.
  - intros r Hr. apply Hsub in Hr.
    apply list_elem_of_fmap in Hr as (u & -> & Hu).
    apply elem_of_team_users in Hu as (_ & Hact & _).
    by apply active_except_true in Hact as [? _].
Qed.

(** C1, where the code departs from it: with team [dev-team] made of the
    author and one reviewer, and a PR by the author, reassigning the
    reviewer succeeds and binds the author to the author's own PR, whatever
    the random sources hold. *)
Theorem ReassignReviewer_binds_author (seed dbseed : list nat) :
  let s0 := New (with_random dbseed empty) seed in
  let s1 := (CreateTeam s0 "dev-team"
               [mkTeamMember "author1" "Author" true;
                mkTeamMember "reviewer1" "Reviewer1" true]).1 in
  let s2 := (CreatePR s1 "pr-1" "Test PR" "author1").1 in
  repo.GetPRReviewers (Repo s2) "pr-1"
  = Ok [mkUser "reviewer1" "Reviewer1" true ""]
  ∧ ∃ s3 pr,
      ReassignReviewer s2 "pr-1" "reviewer1" = (s3, Ok (pr, "author1"))
      ∧ PR_AuthorID pr = "author1"
      ∧ PR_Reviewers pr = [mkUser "author1" "Author" true ""]
      ∧ repo.GetPRReviewers (Repo s3) "pr-1"
        = Ok [mkUser "author1" "Author" true ""].
Proof.
  destruct dbseed as [|r dbseed]; vm_compute; eauto 10.
Qed.

(** C7: along every run of calls from the empty store each PR has at most
    two binding rows, and [GetPRReviewers] lists at most two reviewers; a
    successful CreatePR returns min(2, eligible candidates) reviewers and
    adds at most that many binding rows, to the new PR only; and
    ReassignReviewer never leaves a PR with more binding rows than it
    found. *)
Theorem reviewers_at_most_two :
  (∀ (seed dbseed : list nat) (ops : list op) (prID : string),
     let s := run (New (with_random dbseed empty) seed) ops in
     length (bindings (Repo s) prID) ≤ 2
     ∧ ∀ reviewers, repo.GetPRReviewers (Repo s) prID = Ok reviewers ->
                    length reviewers ≤ 2)
  ∧ (∀ (s s' : Service DB) prID prName authorID pr,
       CreatePR s prID prName authorID = (s', Ok pr) ->
       ∃ teamName candidates,
         repo.GetUserTeam (Repo s) authorID = Ok teamName
         ∧ repo.GetActiveTeamMembersExcept (Repo s) teamName authorID
           = Ok candidates
         ∧ length (PR_Reviewers pr) = min 2 (length candidates)
         ∧ ∀ prID',
             length (bindings (Repo s') prID')
             ≤ length (bindings (Repo s) prID')
               + (if decide (prID' = prID) then min 2 (length candidates)
                  else 0))
  ∧ (∀ (s : Service DB) prID old prID',
       length (bindings (Repo (ReassignReviewer s prID old).1) prID')
       ≤ length (bindings (Repo s) prID')).
Proof.
  split_and!.
  - intros seed dbseed ops prID s.
    assert (wf (Repo s)) as Hwf by (apply run_wf, wf_empty).
    split; [apply (wf_bound _ Hwf)|].
    intros reviewers [= <-]. rewrite length_fmap.
    etrans; [apply length_pr_users, (wf_users _ Hwf)|apply (wf_bound _ Hwf)].
  - intros s s' prID prName authorID pr Hrun.
    apply CreatePR_Ok_inv in Hrun
      as (teamName & reviewers & _ & _ & Hteam & -> & Hlen & _ & ->).
    exists teamName, (scan_User <$> team_users (Repo s) teamName
                                    (active_except authorID)).
    rewrite length_fmap. split_and!; [done|done|done|].
    intros prID'.
    destruct (CreatePR_bind_spec
                (with_prs (fun ps => ps ++ [mk_prs prID prName authorID "OPEN"])
                          (Repo s)) prID reviewers) as (_ & _ & _ & Hcount).
    etrans; [apply Hcount|]. rewrite Hlen. done.
  - intros. apply ReassignReviewer_bindings.
Qed.

Lemma reviewers_at_most_two_witness :
  ∃ pr teamName candidates,
    CreatePR team_store "pr-1" "Test PR" "author1" = (dev_store, Ok pr)
    ∧ repo.GetActiveTeamMembersExcept (Repo team_store) teamName "author1"
      = Ok candidates
    ∧ length (PR_Reviewers pr) = min 2 (length candidates)
    ∧ length (bindings
                (Repo (run (New (with_random [2] empty) [2; 1])
                           [OpCreateTeam "dev-team" team4;
                            OpCreatePR "pr-1" "Test PR" "author1";
                            OpReassignReviewer "pr-1" "reviewer1"]))
                "pr-1") ≤ 2.
Proof.
  assert (∃ pr, CreatePR team_store "pr-1" "Test PR" "author1"
                = (dev_store, Ok pr)) as (pr & Hrun).
  { eexists. vm_compute. reflexivity. }
  destruct (proj1 (proj2 reviewers_at_most_two) _ _ _ _ _ _ Hrun)
    as (teamName & candidates & _ & H2 & H3 & _).
  exists pr, teamName, candidates.
  split; [exact Hrun|]. split; [exact H2|]. split; [exact H3|].
  exact (proj1 (proj1 reviewers_at_most_two [2; 1] [2]
                  [OpCreateTeam "dev-team" team4;
                   OpCreatePR "pr-1" "Test PR" "author1";
                   OpReassignReviewer "pr-1" "reviewer1"] "pr-1")).
Defined.

(** C8: BulkDeactivateTeam fails with [ErrNotFound] when no team has the
    name; otherwise it succeeds, every user with a membership in the team
    ends up inactive, the other users and all ids and names are untouched,
    and so are the PRs, the reviewer bindings, the assignment events, the
    teams and the memberships.  The [reassign] flag changes nothing. *)
Theorem BulkDeactivateTeam_spec (s : Service DB) (teamName : string)
    (reassign : bool) :
  ((∀ t, t ∈ teams (Repo s) -> teams_name t ≠ teamName) ->
     BulkDeactivateTeam s teamName reassign = (s, Some ErrNotFound))
  ∧ (∀ t, t ∈ teams (Repo s) -> teams_name t = teamName ->
     ∃ s' team,
       repo.GetTeamByName (Repo s) teamName = Ok team
       ∧ BulkDeactivateTeam s teamName reassign = (s', None)
       ∧ (∀ u, u ∈ users (Repo s') ->
               users_id u ∈ member_ids (Repo s) (Team_ID (deref team)) ->
               users_is_active u = false)
       ∧ Forall2 (fun u u' =>
                    users_id u' = users_id u ∧ users_name u' = users_name u
                    ∧ (users_id u ∉ member_ids (Repo s) (Team_ID (deref team))
                       -> u' = u))
                 (users (Repo s)) (users (Repo s'))
       ∧ prs (Repo s') = prs (Repo s)
       ∧ pr_reviewers (Repo s') = pr_reviewers (Repo s)
       ∧ assignment_events (Repo s') = assignment_events (Repo s)
       ∧ teams (Repo s') = teams (Repo s)
       ∧ team_members (Repo s') = team_members (Repo s)
       ∧ rand s' = rand s)
  ∧ BulkDeactivateTeam s teamName true = BulkDeactivateTeam s teamName false.
Proof.
  split_and!; [| |done].
  - intros Hno. unfold BulkDeactivateTeam. simpl. unfold GetTeamByName.
    destruct (filter _ (teams (Repo s))) as [|t ?] eqn:Hf; [done|].
    assert (t ∈ filter (fun t => teams_name t = teamName) (teams (Repo s)))
      as Ht by (rewrite Hf; left).
    apply list_elem_of_filter in Ht as [? Ht]. by destruct (Hno t Ht).
  - intros t Ht Hname. unfold BulkDeactivateTeam. simpl. unfold GetTeamByName.
    destruct (filter _ (teams (Repo s))) as [|t0 ?] eqn:Hf.
    { assert (t ∈ filter (fun t => teams_name t = teamName) (teams (Repo s)))
        as Hin by by apply list_elem_of_filter.
      rewrite Hf in Hin. by apply elem_of_nil in Hin. }
    simpl. eexists _, _. split; [reflexivity|]. split; [reflexivity|].
    simpl. fold (member_ids (Repo s) (teams_id t0)).
    split_and!; try done.
    + intros u (u0 & Hu0 & ->)%elem_of_UPDATE Hmem.
      destruct (decide _) as [|Hn]; [done|]. by destruct Hn.
    + unfold UPDATE. apply Forall2_fmap_r, Forall_Forall2_diag, Forall_forall.
      intros u _. unfold compose. cbn beta. by case_decide.
Qed.

Lemma BulkDeactivateTeam_spec_witness :
  BulkDeactivateTeam dev_store "no-team" true = (dev_store, Some ErrNotFound)
  ∧ BulkDeactivateTeam dev_store "dev-team" true = (idle_store, None)
  ∧ pr_reviewers (Repo idle_store) = pr_reviewers (Repo dev_store)
  ∧ assignment_events (Repo idle_store) = assignment_events (Repo dev_store)
  ∧ prs (Repo idle_store) = prs (Repo dev_store).
Proof.
  split.
  - apply (proj1 (BulkDeactivateTeam_spec dev_store "no-team" true)).
    vm_compute. intros t Ht. apply list_elem_of_singleton in Ht as ->.
    discriminate.
  - assert (BulkDeactivateTeam dev_store "dev-team" true = (idle_store, None))
      as Hrun by (vm_compute; reflexivity).
    destruct (proj1 (proj2 (BulkDeactivateTeam_spec dev_store "dev-team" true))
                (mk_teams 1 "dev-team"))
      as (s' & team & _ & Hrun' & _ & _ & Hprs & Hrv & Hev & _).
    + vm_compute. apply list_elem_of_singleton. reflexivity.
    + reflexivity.
    + rewrite Hrun in Hrun'. apply (f_equal fst) in Hrun'.
      cbn [fst] in Hrun'. subst s'.
      exact (conj Hrun (conj Hrv (conj Hev Hprs))).
Defined.

(** *** Assignment statistics *)

(** C9: GetStats succeeds and, under ["assignment_stats"], maps every user
    id to the number of assignment events naming it, counted over the whole
    event history, and holds no entry for a user no event names; this is so
    over the PostgreSQL repository and over the mock (whose counters are Go
    ints, hence the bound on the history).  After the events r1, r2, r1 the
    map is {r1: 2, r2: 1}. *)
Theorem GetStats_counts :
  (∀ (s : Service DB) (now uid : string),
     ∃ stats, GetStats s now = Ok (mkStats stats now)
       ∧ stats !! uid
         = let n := times_assigned
                      (ev_user_id <$> assignment_events (Repo s)) uid in
           if decide (n = 0) then None else Some (Z.of_nat n))
  ∧ (∀ (s : Service mockRepo.mockRepo) (now uid : string),
       (Z.of_nat (length (mockRepo.assignments (Repo s))) < 2 ^ 63)%Z ->
       ∃ stats, GetStats s now = Ok (mkStats stats now)
         ∧ stats !! uid
           = let n := times_assigned (snd <$> mockRepo.assignments (Repo s)) uid in
             if decide (n = 0) then None else Some (Z.of_nat n))
  ∧ (∀ now, GetStats three_events now
            = Ok (mkStats {[ "r1" := 2%Z; "r2" := 1%Z ]} now))
  ∧ (∀ now, GetStats three_events_mock now
            = Ok (mkStats {[ "r1" := 2%Z; "r2" := 1%Z ]} now)).
Proof.
  split_and!.
  - intros s now uid.
    destruct (Repo_GetAssignmentStats_lookup (Repo s) uid) as (stats & Hget & Hl).
    exists stats. split; [|done]. unfold GetStats.
    change (repo.GetAssignmentStats (Repo s))
      with (GetAssignmentStats (Repo s)). by rewrite Hget.
  - intros s now uid Hlen.
    destruct (mockRepo_GetAssignmentStats_lookup (Repo s) uid Hlen)
      as (stats & Hget & Hl).
    exists stats. split; [|done]. unfold GetStats.
    change (repo.GetAssignmentStats (Repo s))
      with (mockRepo.GetAssignmentStats (Repo s)). by rewrite Hget.
  - intros now. by vm_compute.
  - intros now. by vm_compute.
Qed.

Lemma GetStats_counts_witness :
  ∃ stats, GetStats three_events_mock "2025-11-23T12:00:00Z"
           = Ok (mkStats stats "2025-11-23T12:00:00Z")
    ∧ stats !! "r1" = Some 2%Z.
Proof.
  destruct (proj1 (proj2 GetStats_counts) three_events_mock
              "2025-11-23T12:00:00Z" "r1") as (stats & Hget & Hl).
  - vm_compute. reflexivity.
  - exists stats. split; [exact Hget|]. rewrite Hl. vm_compute. reflexivity.
Defined.

End postgres.

(** ** The service tests, replayed on the mock

    Each example runs the calls of one test of the repository on
    [mockRepo] and states what the test asserts.  The shuffle is seeded
    with [2; 1]; the mock itself draws nothing. *)

Section replay.
Import repo service fixtures.

Example TestCreateTeam_replay :
  let members := [mkTeamMember "u1" "Alice" true;
                  mkTeamMember "u2" "Bob" true] in
  let '(s1, err1) := CreateTeam (New mockRepo.newMockRepo [2; 1])
                                "dev-team" members in
  let '(_, err2) := CreateTeam s1 "dev-team" members in
  err1 = None ∧ err2 = Some ErrTeamExists.
Proof. by vm_compute. Qed.

Example TestCreatePR_replay :
  let s1 := mock_team team3 [2; 1] in
  let '(s2, res) := CreatePR s1 "pr-1" "Test PR" "author1" in
  let '(_, res') := CreatePR s2 "pr-1" "Duplicate PR" "author1" in
  (∃ pr, res = Ok pr ∧ PR_ID pr = "pr-1" ∧ PR_Status pr = "OPEN"
         ∧ PR_Reviewers pr ≠ []
         ∧ Forall (fun reviewer => User_ID reviewer ≠ "author1")
                  (PR_Reviewers pr))
  ∧ res' = Err ErrPRExists.
Proof.
  vm_compute. split; [|done]. eexists. split; [reflexivity|].
  split_and!; [done|done|done|]. repeat constructor; done.
Qed.

Example TestMergePR_replay :
  let s1 := mock_team [mkTeamMember "author1" "Author" true] [2; 1] in
  let s2 := (CreatePR s1 "pr-1" "Test PR" "author1").1 in
  let '(s3, res) := MergePR s2 "pr-1" in
  let '(_, res2) := MergePR s3 "pr-1" in
  (∃ pr, res = Ok pr ∧ PR_Status pr = "MERGED")
  ∧ (∃ pr2, res2 = Ok pr2 ∧ PR_Status pr2 = "MERGED").
Proof. vm_compute. split; eexists; by split. Qed.

(** In [TestReassignReviewer] the mock's "random" member is the first
    active member of the team other than the old reviewer, which is the
    author of the PR: the assertions of the test hold, and the replacement
    it checks is [author1]. *)
Example TestReassignReviewer_replay :
  let s1 := mock_team team4 [2; 1] in
  let s2 := (CreatePR s1 "pr-1" "Test PR" "author1").1 in
  ∃ reviewers oldReviewer s3 updatedPR newReviewerID,
    repo.GetPRReviewers (Repo s2) "pr-1" = Ok reviewers
    ∧ head (User_ID <$> reviewers) = Some oldReviewer
    ∧ ReassignReviewer s2 "pr-1" oldReviewer
      = (s3, Ok (updatedPR, newReviewerID))
    ∧ newReviewerID ≠ oldReviewer
    ∧ (oldReviewer ∉ (User_ID <$> PR_Reviewers updatedPR))
    ∧ newReviewerID ∈ (User_ID <$> PR_Reviewers updatedPR)
    ∧ newReviewerID = "author1".
Proof.
  intros s1 s2. eexists _, _, _, _, _.
  split; [vm_compute; reflexivity|]. split; [vm_compute; reflexivity|].
  split; [vm_compute; reflexivity|].
  split_and!; [done|by_decide|by_decide|done].
Qed.

Example TestBulkDeactivateTeam_replay :
  let members := [mkTeamMember "user1" "User1" true;
                  mkTeamMember "user2" "User2" true] in
  let s1 := (CreateTeam (New mockRepo.newMockRepo [2; 1])
                        "team-to-deactivate" members).1 in
  let '(s2, err) := BulkDeactivateTeam s1 "team-to-deactivate" false in
  err = None
  ∧ User_IsActive <$> (mockRepo.users (Repo s2) !! "user1") = Some false
  ∧ User_IsActive <$> (mockRepo.users (Repo s2) !! "user2") = Some false.
Proof. by vm_compute. Qed.

Example TestSetUserActive_replay :
  let s1 := (CreateTeam (New mockRepo.newMockRepo [2; 1]) "test-team"
                        [mkTeamMember "user1" "TestUser" true]).1 in
  ∃ s2 user,
    SetUserActive s1 "user1" false = (s2, Ok user)
    ∧ User_IsActive user = false ∧ User_Name user = "TestUser".
Proof. vm_compute. eexists _, _. by split. Qed.

(** The mock is looser than the database on one point: [AddReviewer]
    appends without a key check and [RemoveReviewer] drops the first match
    only, so a reviewer bound twice stays bound after being replaced.  The
    PostgreSQL repository cannot get there ([elem_of_RemoveReviewer]). *)
Example mockRepo_keeps_a_duplicate :
  let s1 := mock_team team4 [2; 1] in
  let s2 := (CreatePR s1 "pr-1" "Test PR" "author1").1 in
  let s3 := (ReassignReviewer s2 "pr-1" "reviewer1").1 in
  let s4 := (ReassignReviewer s3 "pr-1" "reviewer2").1 in
  let s5 := (ReassignReviewer s4 "pr-1" "author1").1 in
  mockRepo.at_key (mockRepo.prReviewers (Repo s4)) "pr-1"
  = ["author1"; "author1"]
  ∧ mockRepo.at_key (mockRepo.prReviewers (Repo s5)) "pr-1"
    = ["author1"; "reviewer1"].
Proof. by vm_compute. Qed.

End replay.

(** ** What a run of calls never undoes (PostgreSQL repository) *)

Module Repo_history_facts.
Import repo repo.Repo service Repo_spec Repo_history.
Import Repo_facts Repo_joins Repo_invariant Repo_bindings Repo_engine.

Lemma pr_same_or_merged_refl p : pr_same_or_merged p p.
Proof. unfold pr_same_or_merged. auto. Qed.

Lemma pr_same_or_merged_trans p1 p2 p3 :
  pr_same_or_merged p1 p2 -> pr_same_or_merged p2 p3 ->
  pr_same_or_merged p1 p3.
Proof.
  unfold pr_same_or_merged. intros (? & ? & ? & Ha) (? & ? & ? & Hb).
  split_and!; try congruence.
  destruct Ha as [Ha|Ha], Hb as [Hb|Hb]; auto.
  - left. congruence.
  - right. congruence.
Qed.

Lemma Forall2_pr_refl ps : Forall2 pr_same_or_merged ps ps.
Proof. apply Forall_Forall2_diag, Forall_forall. intros. apply pr_same_or_merged_refl. Qed.

(** The head of the rows of one id follows the rows along. *)
Lemma head_filter_Forall2 prID ps front extra p :
  Forall2 pr_same_or_merged ps front ->
  head (filter (fun p => prs_id p = prID) ps) = Some p ->
  ∃ p', head (filter (fun p => prs_id p = prID) (front ++ extra)) = Some p'
        ∧ pr_same_or_merged p p'.
Proof.
  intros HF. induction HF as [|q q' ps front Hq HF IH]; [done|].
  rewrite filter_cons. simpl. rewrite filter_cons.
  destruct Hq as (Hid & Hq). rewrite Hid.
  destruct (decide (prs_id q = prID)); simpl.
  - intros [= <-]. exists q'. split; [done|]. by split.
  - apply IH.
Qed.

Lemma evolves_refl d : evolves d d.
Proof.
  split; try done.
  exists (prs d), []. rewrite app_nil_r. split; [done|apply Forall2_pr_refl].
Qed.

Lemma evolves_head d d' prID p :
  evolves d d' -> head (pr_rows d prID) = Some p ->
  ∃ p', head (pr_rows d' prID) = Some p' ∧ pr_same_or_merged p p'.
Proof.
  intros [(front & extra & Heq & HF) _ _ _ _ _] Hp. unfold pr_rows in *.
  rewrite Heq. by eapply head_filter_Forall2.
Qed.

Lemma evolves_trans d1 d2 d3 : evolves d1 d2 -> evolves d2 d3 -> evolves d1 d3.
Proof.
  intros H12 H23. split.
  - destruct (ev_prs _ _ H12) as (f1 & e1 & Heq1 & HF1).
    destruct (ev_prs _ _ H23) as (f2 & e2 & Heq2 & HF2).
    rewrite Heq1 in HF2. apply Forall2_app_inv_l in HF2
      as (f2a & f2b & HFa & HFb & ->).
    exists f2a, (f2b ++ e2). split; [by rewrite Heq2, <- (assoc_L (++))|].
    clear -HF1 HFa. revert f2a HFa.
    induction HF1; intros f2a HFa; inversion HFa; subst; constructor;
      eauto using pr_same_or_merged_trans.
  - etrans; [apply (ev_events _ _ H12)|apply (ev_events _ _ H23)].
  - etrans; [apply (ev_users _ _ H12)|apply (ev_users _ _ H23)].
  - etrans; [apply (ev_teams _ _ H12)|apply (ev_teams _ _ H23)].
  - etrans; [apply (ev_members _ _ H12)|apply (ev_members _ _ H23)].
  - intros prID p Hp Hst.
    destruct (evolves_head _ _ _ _ H12 Hp) as (p' & Hp' & _ & _ & _ & Hs).
    rewrite (ev_frozen _ _ H23 prID p' Hp'); [by eapply ev_frozen|].
    destruct Hs; congruence.
Qed.

(** *** Writes that only add users, teams and memberships *)

Lemma grows_refl d : grows d d.
Proof. by repeat split. Qed.

Lemma grows_trans d1 d2 d3 : grows d1 d2 -> grows d2 d3 -> grows d1 d3.
Proof.
  intros (? & ? & ? & ? & ? & ?) (? & ? & ? & ? & ? & ?).
  split_and!; try congruence; by etrans.
Qed.

Lemma grows_evolves d d' : grows d d' -> evolves d d'.
Proof.
  intros (Hp & Hr & He & Hu & Ht & Hm). split; try done.
  - exists (prs d), []. rewrite app_nil_r. split; [done|apply Forall2_pr_refl].
  - by rewrite He.
  - intros prID p _ _. unfold bindings. by rewrite Hr.
Qed.

Lemma CreateUser_grows d userID username :
  grows d (CreateUser d userID username).1.
Proof.
  unfold CreateUser. destruct (conflict _ _); cbn [fst].
  - split_and!; try done. cbn [users with_users]. by rewrite fmap_UPDATE.
  - split_and!; try done. cbn [users with_users]. rewrite fmap_app.
    by apply prefix_app_r.
Qed.

Lemma SetUserActive_grows d userID active :
  grows d (Repo.SetUserActive d userID active).1.
Proof.
  split_and!; try done. unfold Repo.SetUserActive. cbn [fst users with_users].
  by rewrite fmap_UPDATE.
Qed.

Lemma DeactivateTeamMembers_grows d teamID :
  grows d (DeactivateTeamMembers d teamID).1.
Proof.
  split_and!; try done. unfold DeactivateTeamMembers.
  cbn [fst users with_users]. by rewrite fmap_UPDATE.
Qed.

Lemma AddMember_grows d teamID userID : grows d (AddMember d teamID userID).1.
Proof.
  unfold AddMember. destruct (conflict _ _); cbn [fst];
    split_and!; try done.
  cbn [team_members with_team_members]. by apply prefix_app_r.
Qed.

Lemma Repo_CreateTeam_grows d name : grows d (Repo.CreateTeam d name).1.
Proof.
  unfold Repo.CreateTeam. destruct (conflict _ _); cbn [fst];
    split_and!; try done.
  cbn [teams]. by apply prefix_app_r.
Qed.

Lemma CreateTeam_members_grows d teamID members :
  grows d (CreateTeam_members d teamID members).1.
Proof.
  revert d. induction members as [|member rest IH]; intros d.
  { apply grows_refl. }
  cbn [CreateTeam_members repo.CreateUser repo.SetUserActive repo.AddMember
       Repo_RepoInterface].
  pose proof (CreateUser_grows d (TeamMember_UserID member)
                (TeamMember_Username member)) as H1.
  destruct (CreateUser d _ _) as [r1 [err|]]; [done|]. cbn [fst] in H1.
  pose proof (SetUserActive_grows r1 (TeamMember_UserID member)
                (TeamMember_IsActive member)) as H2.
  destruct (Repo.SetUserActive r1 _ _) as [r2 [err|]]; cbn [fst] in H2;
    [eauto using grows_trans|].
  pose proof (AddMember_grows r2 teamID (TeamMember_UserID member)) as H3.
  destruct (AddMember r2 teamID _) as [r3 [err|]]; cbn [fst] in H3;
    [eauto using grows_trans|].
  eapply grows_trans; [|apply IH]. eauto using grows_trans.
Qed.

Lemma CreateTeam_grows (s : Service DB) teamName members :
  grows (Repo s) (Repo (CreateTeam s teamName members).1).
Proof.
  unfold CreateTeam. cbn [repo.TeamExists repo.CreateTeam Repo_RepoInterface].
  unfold TeamExists. case_bool_decide; [apply grows_refl|].
  pose proof (Repo_CreateTeam_grows (Repo s) teamName) as H1.
  destruct (Repo.CreateTeam (Repo s) teamName) as [r1 [teamID|err]];
    cbn [fst] in H1; [|done].
  pose proof (CreateTeam_members_grows r1 teamID members) as H2.
  destruct (CreateTeam_members r1 teamID members) as [r2 err].
  cbn [fst Repo with_Repo] in *. eauto using grows_trans.
Qed.

Lemma SetUserActive_service_grows (s : Service DB) userID active :
  grows (Repo s) (Repo (SetUserActive s userID active).1).
Proof.
  unfold SetUserActive.
  cbn [repo.GetUserByID repo.SetUserActive Repo_RepoInterface].
  unfold GetUserByID. destruct (GetContext _) as [u|]; [|apply grows_refl].
  pose proof (SetUserActive_grows (Repo s) userID active) as H1.
  destruct (Repo.SetUserActive (Repo s) userID active) as [r1 [err|]];
    cbn [fst] in H1; done.
Qed.

Lemma BulkDeactivateTeam_grows (s : Service DB) teamName reassign :
  grows (Repo s) (Repo (BulkDeactivateTeam s teamName reassign).1).
Proof.
  unfold BulkDeactivateTeam.
  cbn [repo.GetTeamByName repo.DeactivateTeamMembers Repo_RepoInterface].
  unfold GetTeamByName. destruct (GetContext _) as [t|]; [|apply grows_refl].
  cbn [deref local].
  pose proof (DeactivateTeamMembers_grows (Repo s) (Team_ID (scan_Team t))) as H1.
  destruct (DeactivateTeamMembers (Repo s) _) as [r1 [err|]]; done.
Qed.

End Repo_history_facts.

Module Repo_effects.
Import repo repo.Repo service Repo_spec Repo_history.
Import Repo_facts Repo_joins Repo_invariant Repo_bindings Repo_engine
       Repo_history_facts.

Lemma filter_none {A} (P : A -> Prop) `{!∀ x, Decision (P x)} (l : list A) :
  (∀ x, x ∈ l -> ¬ P x) -> filter P l = [].
Proof.
  intros Hno. induction l as [|x l IH]; [done|].
  rewrite filter_cons_False by (apply Hno; left).
  apply IH. intros y Hy. apply Hno. by right.
Qed.

Lemma filter_all {A} (P : A -> Prop) `{!∀ x, Decision (P x)} (l : list A) :
  (∀ x, x ∈ l -> P x) -> filter P l = l.
Proof.
  intros Hall. induction l as [|x l IH]; [done|].
  rewrite filter_cons_True by (apply Hall; left).
  f_equal. apply IH. intros y Hy. apply Hall. by right.
Qed.

(** *** The exact effect of the writes on reviewer bindings and events *)

Lemma AddReviewer_exact d prID userID :
  pr_reviewers (AddReviewer d prID userID).1
  = pr_reviewers d
    ++ (if bool_decide (mk_pr_reviewers prID userID ∈ pr_reviewers d)
        then [] else [mk_pr_reviewers prID userID]).
Proof.
  unfold AddReviewer. destruct (conflict _ _) eqn:Hc; cbn [fst].
  - apply conflict_true in Hc as (r & Hr & ->).
    by rewrite bool_decide_eq_true_2, app_nil_r.
  - rewrite bool_decide_eq_false_2; [done|].
    rewrite conflict_false in Hc. intros Hin. by apply (Hc _ Hin).
Qed.

Lemma CreatePR_bind_exact d prID reviewers :
  let d' := CreatePR_bind d prID reviewers in
  users d' = users d ∧ teams d' = teams d ∧ team_members d' = team_members d
  ∧ prs d' = prs d ∧ random d' = random d ∧ teams_id_seq d' = teams_id_seq d
  ∧ assignment_events d'
    = assignment_events d
      ++ ((fun r => mk_assignment_events prID (User_ID r)) <$> reviewers)
  ∧ ∃ news,
      pr_reviewers d' = pr_reviewers d ++ news
      ∧ (∀ r, r ∈ news <->
              (r ∉ pr_reviewers d) ∧ rv_pr_id r = prID
              ∧ rv_user_id r ∈ User_ID <$> reviewers).
Proof.
  revert d. induction reviewers as [|reviewer rest IH]; intros d.
  { simpl. rewrite app_nil_r. split_and!; try done. exists [].
    rewrite app_nil_r. split; [done|]. intros r. rewrite !elem_of_nil.
    naive_solver. }
  cbn [CreatePR_bind repo.AddReviewer repo.AddAssignmentEvent
       Repo_RepoInterface].
  rewrite AddReviewer_nil, AddAssignmentEvent_nil.
  set (d1 := (AddReviewer d prID (User_ID reviewer)).1).
  destruct (IH (AddAssignmentEvent d1 prID (User_ID reviewer)).1)
    as (Hu & Ht & Hm & Hp & Hr & Hs & He & news & Hrv & Hnews).
  destruct (AddReviewer_frame d prID (User_ID reviewer))
    as (Hu1 & Ht1 & Hm1 & Hp1 & He1 & Hr1).
  fold d1 in Hu1, Ht1, Hm1, Hp1, He1, Hr1.
  pose proof (AddReviewer_exact d prID (User_ID reviewer)) as Hadd.
  fold d1 in Hadd.
  change (pr_reviewers (AddAssignmentEvent d1 _ _).1)
    with (pr_reviewers d1) in *.
  split_and!.
  - by rewrite Hu.
  - by rewrite Ht.
  - by rewrite Hm.
  - by rewrite Hp.
  - by rewrite Hr.
  - rewrite Hs. unfold d1, AddReviewer. by destruct (conflict _ _).
  - rewrite He. cbn [assignment_events AddAssignmentEvent fst
                     with_assignment_events].
    rewrite He1, fmap_cons, <- (assoc_L (++)). done.
  - eexists. split.
    { rewrite Hrv, Hadd, <- (assoc_L (++)). reflexivity. }
    intros r. rewrite elem_of_app, Hnews, Hadd, fmap_cons, elem_of_cons.
    rewrite elem_of_app.
    case_bool_decide as Hin.
    + rewrite elem_of_nil. split.
      * intros [[]|(Hn & Hid & Hu')]. naive_solver.
      * intros (Hn & Hid & [Hu'|Hu']); [|naive_solver].
        destruct r as [pid uid]; simpl in *; subst. done.
    + rewrite list_elem_of_singleton. split.
      * intros [->|(Hn & Hid & Hu')]; [naive_solver|naive_solver].
      * intros (Hn & Hid & [Hu'|Hu']).
        -- left. destruct r as [pid uid]; simpl in *; by subst.
        -- destruct (decide (r = mk_pr_reviewers prID (User_ID reviewer)))
             as [->|Hne]; [by left|]. right. naive_solver.
Qed.

(** *** Each call leads to a later state *)

Lemma MergePR_evolves (s : Service DB) prID :
  evolves (Repo s) (Repo (MergePR s prID).1).
Proof.
  unfold MergePR. cbn [repo.GetPRByID repo.SetPRStatus Repo_RepoInterface].
  unfold GetPRByID. destruct (GetContext _) as [p|]; [|apply evolves_refl].
  cbn [deref local]. case_bool_decide.
  { cbn [fst assign local]. rewrite with_Repo_same. apply evolves_refl. }
  unfold SetPRStatus. cbn [fst Repo with_Repo]. split; try done.
  exists (UPDATE (fun p => prs_id p = prID) (set_status "MERGED") (prs (Repo s))),
         [].
  rewrite app_nil_r. split; [done|]. unfold UPDATE.
  apply Forall2_fmap_r, Forall_Forall2_diag, Forall_forall.
  intros q _. unfold compose. cbn beta. case_decide.
  - unfold pr_same_or_merged. simpl. auto.
  - apply pr_same_or_merged_refl.
Qed.

Lemma CreatePR_evolves (s : Service DB) prID prName authorID :
  evolves (Repo s) (Repo (CreatePR s prID prName authorID).1).
Proof.
  destruct (CreatePR s prID prName authorID) as [s' [pr|e]] eqn:Hrun; cbn [fst].
  2: { rewrite (CreatePR_Err_inv _ _ _ _ _ _ Hrun). apply evolves_refl. }
  apply CreatePR_Ok_inv in Hrun
    as (teamName & reviewers & Hnil & _ & _ & _ & _ & _ & ->).
  set (d1 := with_prs _ (Repo s)).
  destruct (CreatePR_bind_exact d1 prID reviewers)
    as (Hu & Ht & Hm & Hp & _ & _ & He & news & Hrv & Hnews).
  split.
  - exists (prs (Repo s)), [mk_prs prID prName authorID "OPEN"].
    split; [by rewrite Hp|apply Forall2_pr_refl].
  - rewrite He. by apply prefix_app_r.
  - by rewrite Hu.
  - by rewrite Ht.
  - by rewrite Hm.
  - intros prID' p Hp' _. unfold bindings. rewrite Hrv, filter_app.
    rewrite (filter_none _ news); [by rewrite app_nil_r|].
    intros r (_ & Hid & _)%Hnews Hid'.
    assert (prID' = prID) as -> by congruence.
    unfold d1 in Hnil. by rewrite Hnil in Hp'.
Qed.

Lemma ReassignReviewer_evolves (s : Service DB) prID old :
  evolves (Repo s) (Repo (ReassignReviewer s prID old).1).
Proof.
  destruct (ReassignReviewer s prID old) as [s' [[pr new]|e]] eqn:Hrun;
    cbn [fst].
  2: { rewrite (ReassignReviewer_Err_inv _ _ _ _ _ Hrun). apply evolves_refl. }
  apply ReassignReviewer_Ok_inv in Hrun
    as (p & teamName & u & src & Hp & Hst & Hold & Hteam & Hu & -> & -> & _).
  set (d2 := (RemoveReviewer (with_random src (Repo s)) prID old).1).
  destruct (AddReviewer_frame d2 prID (users_id u))
    as (Hu1 & Ht1 & Hm1 & Hp1 & He1 & _).
  split.
  - exists (prs (Repo s)), []. rewrite app_nil_r.
    split; [|apply Forall2_pr_refl].
    change (prs (AddAssignmentEvent ?d _ _).1) with (prs d). by rewrite Hp1.
  - change (assignment_events (AddAssignmentEvent ?d ?a ?b).1)
      with (assignment_events d ++ [mk_assignment_events a b]).
    rewrite He1. by apply prefix_app_r.
  - change (users (AddAssignmentEvent ?d _ _).1) with (users d).
    by rewrite Hu1.
  - change (teams (AddAssignmentEvent ?d _ _).1) with (teams d).
    by rewrite Ht1.
  - change (team_members (AddAssignmentEvent ?d _ _).1) with (team_members d).
    by rewrite Hm1.
  - intros prID' p' Hp' Hst'.
    assert (prID' ≠ prID) as Hne.
    { intros ->. rewrite Hp in Hp'. congruence. }
    unfold bindings.
    change (pr_reviewers (AddAssignmentEvent ?d _ _).1) with (pr_reviewers d).
    rewrite AddReviewer_exact, filter_app.
    rewrite (filter_none _ (if bool_decide _ then _ else _)).
    2: { intros r Hr Hid. case_bool_decide; [by apply elem_of_nil in Hr|].
         apply list_elem_of_singleton in Hr as ->. by destruct Hne. }
    rewrite app_nil_r. fold (bindings d2 prID'). unfold d2.
    rewrite bindings_RemoveReviewer.
    change (bindings (with_random src (Repo s)) prID')
      with (bindings (Repo s) prID').
    apply filter_all. intros r [Hid _]%list_elem_of_filter. intros [? _].
    congruence.
Qed.

Lemma step_evolves (s : Service DB) (o : op) :
  evolves (Repo s) (Repo (step s o)).
Proof.
  destruct o; cbn [step].
  - apply grows_evolves, CreateTeam_grows.
  - apply grows_evolves, SetUserActive_service_grows.
  - apply CreatePR_evolves.
  - apply MergePR_evolves.
  - apply ReassignReviewer_evolves.
  - apply grows_evolves, BulkDeactivateTeam_grows.
Qed.

Lemma run_evolves (s : Service DB) (ops : list op) :
  evolves (Repo s) (Repo (run s ops)).
Proof.
  revert s. induction ops as [|o ops IH]; intros s; [apply evolves_refl|].
  cbn [run foldl]. eapply evolves_trans; [apply step_evolves|apply IH].
Qed.

End Repo_effects.

(** ** The keys and references hold in every store the engine builds *)

Module Repo_keys.
Import repo repo.Repo service Repo_spec Repo_history.
Import Repo_facts Repo_joins Repo_invariant Repo_bindings Repo_engine
       Repo_history_facts Repo_effects.

Lemma keys_empty src : keys (with_random src empty).
Proof.
  split; simpl; try (by constructor); try (intros ? []%elem_of_nil).
Qed.

(** [keys] reads the tables through a few columns only. *)
Lemma keys_ext d d' :
  users_id <$> users d' = users_id <$> users d ->
  teams d' = teams d -> teams_id_seq d' = teams_id_seq d ->
  team_members d' = team_members d ->
  prs_id <$> prs d' = prs_id <$> prs d ->
  prs_author_id <$> prs d' = prs_author_id <$> prs d ->
  pr_reviewers d' = pr_reviewers d ->
  assignment_events d' = assignment_events d ->
  keys d -> keys d'.
Proof.
  intros Hu Ht Hs Hm Hp Ha Hr He [].
  split; rewrite ?Hu, ?Ht, ?Hs, ?Hm, ?Hp, ?Hr, ?He; try done.
  intros p Hp'.
  assert (prs_author_id p ∈ prs_author_id <$> prs d') as Hin
    by (apply list_elem_of_fmap; eauto).
  rewrite Ha in Hin. apply list_elem_of_fmap in Hin as (q & -> & Hq). auto.
Qed.

Lemma CreateUser_known d userID username :
  userID ∈ users_id <$> users (CreateUser d userID username).1.
Proof.
  unfold CreateUser. destruct (conflict _ _) eqn:Hc; cbn [fst users with_users].
  - rewrite fmap_UPDATE by done.
    apply conflict_true in Hc as (u & Hu & <-). apply list_elem_of_fmap. eauto.
  - rewrite fmap_app, elem_of_app. right. simpl. left.
Qed.

Lemma CreateUser_keeps_keys d userID username :
  keys d -> keys (CreateUser d userID username).1.
Proof.
  intros Hk. unfold CreateUser. destruct (conflict _ _) eqn:Hc; cbn [fst].
  - eapply keys_ext; [..|exact Hk]; try done.
    cbn [users with_users]. by rewrite fmap_UPDATE.
  - destruct Hk. split; cbn [users with_users teams team_members prs
                             pr_reviewers assignment_events teams_id_seq];
      try done.
    + rewrite fmap_app. apply NoDup_app. split; [done|].
      split; [|apply NoDup_singleton].
      intros x Hx ->%list_elem_of_singleton.
      apply list_elem_of_fmap in Hx as (u & Hid & Hu).
      rewrite conflict_false in Hc. by apply (Hc u).
    + intros tm Htm. rewrite fmap_app, elem_of_app. auto.
    + intros p Hp. rewrite fmap_app, elem_of_app. auto.
    + intros r Hr. rewrite fmap_app, elem_of_app. auto.
    + intros e He. rewrite fmap_app, elem_of_app. auto.
Qed.

Lemma SetUserActive_keeps_keys d userID active :
  keys d -> keys (Repo.SetUserActive d userID active).1.
Proof.
  intros Hk. eapply keys_ext; [..|exact Hk]; try done.
  unfold Repo.SetUserActive. cbn [fst users with_users]. by rewrite fmap_UPDATE.
Qed.

Lemma DeactivateTeamMembers_keeps_keys d teamID :
  keys d -> keys (DeactivateTeamMembers d teamID).1.
Proof.
  intros Hk. eapply keys_ext; [..|exact Hk]; try done.
  unfold DeactivateTeamMembers. cbn [fst users with_users].
  by rewrite fmap_UPDATE.
Qed.

Lemma Repo_CreateTeam_keeps_keys d name :
  keys d -> keys (Repo.CreateTeam d name).1.
Proof.
  intros Hk. unfold Repo.CreateTeam.
  destruct (conflict _ _) eqn:Hc; cbn [fst]; [done|].
  rewrite conflict_false in Hc. destruct Hk.
  split; cbn [users teams team_members prs pr_reviewers assignment_events
              teams_id_seq]; try done.
  - rewrite fmap_app. apply NoDup_app. split; [done|].
    split; [|apply NoDup_singleton].
    intros x Hx ->%list_elem_of_singleton.
    apply list_elem_of_fmap in Hx as (t & Hid & Ht). by apply (Hc t).
  - rewrite fmap_app. apply NoDup_app. split; [done|].
    split; [|apply NoDup_singleton].
    intros x Hx ->%list_elem_of_singleton.
    apply list_elem_of_fmap in Hx as (t & Hid & Ht).
    specialize (key_team_seq0 t Ht). simpl in Hid. lia.
  - intros t [Ht| ->%list_elem_of_singleton]%elem_of_app.
    + specialize (key_team_seq0 t Ht). lia.
    + simpl. lia.
  - intros tm Htm. rewrite fmap_app, elem_of_app. auto.
Qed.

Lemma Repo_CreateTeam_known d name teamID d' :
  Repo.CreateTeam d name = (d', Ok teamID) ->
  mk_teams teamID name ∈ teams d'.
Proof.
  unfold Repo.CreateTeam. destruct (conflict _ _); [done|].
  intros [= <- <-]. cbn [teams]. apply elem_of_app. right. left.
Qed.

Lemma AddMember_keeps_keys d teamID userID :
  userID ∈ users_id <$> users d -> teamID ∈ teams_id <$> teams d ->
  keys d -> keys (AddMember d teamID userID).1.
Proof.
  intros Hu Ht Hk. unfold AddMember.
  destruct (conflict _ _) eqn:Hc; cbn [fst]; [done|].
  rewrite conflict_false in Hc. destruct Hk.
  split; cbn [users teams team_members with_team_members prs pr_reviewers
              assignment_events teams_id_seq]; try done.
  - apply NoDup_app. split; [done|]. split; [|apply NoDup_singleton].
    intros x Hx ->%list_elem_of_singleton. by apply (Hc _ Hx).
  - intros tm [Htm| ->%list_elem_of_singleton]%elem_of_app; auto.
  - intros tm [Htm| ->%list_elem_of_singleton]%elem_of_app; auto.
Qed.

Lemma AddReviewer_keeps_keys d prID userID :
  prID ∈ prs_id <$> prs d -> userID ∈ users_id <$> users d ->
  keys d -> keys (AddReviewer d prID userID).1.
Proof.
  intros Hp Hu Hk. unfold AddReviewer.
  destruct (conflict _ _) eqn:Hc; cbn [fst]; [done|].
  rewrite conflict_false in Hc. destruct Hk.
  split; cbn [users teams team_members prs pr_reviewers with_pr_reviewers
              assignment_events teams_id_seq]; try done.
  - apply NoDup_app. split; [done|]. split; [|apply NoDup_singleton].
    intros x Hx ->%list_elem_of_singleton. by apply (Hc _ Hx).
  - intros r [Hr| ->%list_elem_of_singleton]%elem_of_app; auto.
  - intros r [Hr| ->%list_elem_of_singleton]%elem_of_app; auto.
Qed.

Lemma RemoveReviewer_keeps_keys d prID userID :
  keys d -> keys (RemoveReviewer d prID userID).1.
Proof.
  intros []. unfold RemoveReviewer, DELETE.
  split; cbn [fst users teams team_members prs pr_reviewers with_pr_reviewers
              assignment_events teams_id_seq]; try done.
  - by apply NoDup_filter.
  - intros r [_ Hr]%list_elem_of_filter. auto.
  - intros r [_ Hr]%list_elem_of_filter. auto.
Qed.

Lemma AddAssignmentEvent_keeps_keys d prID userID :
  prID ∈ prs_id <$> prs d -> userID ∈ users_id <$> users d ->
  keys d -> keys (AddAssignmentEvent d prID userID).1.
Proof.
  intros Hp Hu []. unfold AddAssignmentEvent.
  split; cbn [fst users teams team_members prs pr_reviewers
              assignment_events with_assignment_events teams_id_seq]; try done.
  - intros e [He| ->%list_elem_of_singleton]%elem_of_app; auto.
  - intros e [He| ->%list_elem_of_singleton]%elem_of_app; auto.
Qed.

Lemma SetPRStatus_keeps_keys d prID status :
  keys d -> keys (SetPRStatus d prID status).1.
Proof.
  intros Hk. eapply keys_ext; [..|exact Hk]; try done;
    unfold SetPRStatus; cbn [fst prs with_prs]; by rewrite fmap_UPDATE.
Qed.

Lemma CreatePRWithID_keeps_keys d prID title authorID :
  authorID ∈ users_id <$> users d ->
  keys d -> keys (CreatePRWithID d prID title authorID).1.
Proof.
  intros Hu Hk. unfold CreatePRWithID.
  destruct (conflict _ _) eqn:Hc; cbn [fst]; [done|].
  rewrite conflict_false in Hc. destruct Hk.
  split; cbn [users teams team_members prs with_prs pr_reviewers
              assignment_events teams_id_seq]; try done.
  - rewrite fmap_app. apply NoDup_app. split; [done|].
    split; [|apply NoDup_singleton].
    intros x Hx ->%list_elem_of_singleton.
    apply list_elem_of_fmap in Hx as (p & Hid & Hp). by apply (Hc p).
  - intros p [Hp| ->%list_elem_of_singleton]%elem_of_app; auto.
  - intros r Hr. rewrite fmap_app, elem_of_app. auto.
  - intros e He. rewrite fmap_app, elem_of_app. auto.
Qed.

(** *** The calls of the service *)

Lemma CreateTeam_members_keeps_keys d teamID members :
  teamID ∈ teams_id <$> teams d ->
  keys d -> keys (CreateTeam_members d teamID members).1.
Proof.
  revert d. induction members as [|member rest IH]; intros d Ht Hk; [done|].
  cbn [CreateTeam_members repo.CreateUser repo.SetUserActive repo.AddMember
       Repo_RepoInterface].
  pose proof (CreateUser_keeps_keys d (TeamMember_UserID member)
                (TeamMember_Username member) Hk) as Hk1.
  pose proof (CreateUser_known d (TeamMember_UserID member)
                (TeamMember_Username member)) as Hu1.
  pose proof (CreateUser_grows d (TeamMember_UserID member)
                (TeamMember_Username member)) as Hg1.
  destruct (CreateUser d _ _) as [r1 [err|]]; [done|]. cbn [fst] in *.
  pose proof (SetUserActive_keeps_keys r1 (TeamMember_UserID member)
                (TeamMember_IsActive member) Hk1) as Hk2.
  pose proof (SetUserActive_grows r1 (TeamMember_UserID member)
                (TeamMember_IsActive member)) as Hg2.
  destruct (Repo.SetUserActive r1 _ _) as [r2 [err|]]; cbn [fst] in *; [done|].
  assert (TeamMember_UserID member ∈ users_id <$> users r2) as Hu2.
  { destruct Hg2 as (_ & _ & _ & Hpre & _). by eapply elem_of_prefix. }
  assert (teamID ∈ teams_id <$> teams r2) as Ht2.
  { destruct Hg1 as (_ & _ & _ & _ & Hp1 & _).
    destruct Hg2 as (_ & _ & _ & _ & Hp2 & _).
    apply list_elem_of_fmap in Ht as (t & -> & Ht).
    apply list_elem_of_fmap. exists t. split; [done|].
    eapply elem_of_prefix; [|exact Hp2]. by eapply elem_of_prefix. }
  pose proof (AddMember_keeps_keys r2 teamID (TeamMember_UserID member)
                Hu2 Ht2 Hk2) as Hk3.
  pose proof (AddMember_grows r2 teamID (TeamMember_UserID member)) as Hg3.
  destruct (AddMember r2 teamID _) as [r3 [err|]]; cbn [fst] in *; [done|].
  apply IH; [|done].
  destruct Hg3 as (_ & _ & _ & _ & Hp3 & _).
  apply list_elem_of_fmap in Ht2 as (t & -> & Ht2).
  apply list_elem_of_fmap. exists t. split; [done|]. by eapply elem_of_prefix.
Qed.

Lemma CreateTeam_keeps_keys (s : Service DB) teamName members :
  keys (Repo s) -> keys (Repo (CreateTeam s teamName members).1).
Proof.
  intros Hk. unfold CreateTeam.
  cbn [repo.TeamExists repo.CreateTeam Repo_RepoInterface].
  unfold TeamExists. case_bool_decide; [done|].
  pose proof (Repo_CreateTeam_keeps_keys (Repo s) teamName Hk) as Hk1.
  destruct (Repo.CreateTeam (Repo s) teamName) as [r1 [teamID|err]] eqn:Hct;
    cbn [fst] in Hk1; [|done].
  apply Repo_CreateTeam_known in Hct.
  assert (teamID ∈ teams_id <$> teams r1) as Ht.
  { apply list_elem_of_fmap. by exists (mk_teams teamID teamName). }
  pose proof (CreateTeam_members_keeps_keys r1 teamID members Ht Hk1) as Hk2.
  by destruct (CreateTeam_members r1 teamID members) as [r2 err].
Qed.

Lemma SetUserActive_service_keeps_keys (s : Service DB) userID active :
  keys (Repo s) -> keys (Repo (SetUserActive s userID active).1).
Proof.
  intros Hk. unfold SetUserActive.
  cbn [repo.GetUserByID repo.SetUserActive Repo_RepoInterface].
  unfold GetUserByID. destruct (GetContext _) as [u|]; [|done].
  pose proof (SetUserActive_keeps_keys (Repo s) userID active Hk) as H1.
  destruct (Repo.SetUserActive (Repo s) userID active) as [r1 [err|]];
    cbn [fst] in H1; done.
Qed.

Lemma BulkDeactivateTeam_keeps_keys (s : Service DB) teamName reassign :
  keys (Repo s) -> keys (Repo (BulkDeactivateTeam s teamName reassign).1).
Proof.
  intros Hk. unfold BulkDeactivateTeam.
  cbn [repo.GetTeamByName repo.DeactivateTeamMembers Repo_RepoInterface].
  unfold GetTeamByName. destruct (GetContext _) as [t|]; [|done].
  cbn [deref local].
  pose proof (DeactivateTeamMembers_keeps_keys (Repo s)
                (Team_ID (scan_Team t)) Hk) as H1.
  destruct (DeactivateTeamMembers (Repo s) _) as [r1 [err|]]; done.
Qed.

Lemma MergePR_keeps_keys (s : Service DB) prID :
  keys (Repo s) -> keys (Repo (MergePR s prID).1).
Proof.
  intros Hk. unfold MergePR.
  cbn [repo.GetPRByID repo.SetPRStatus Repo_RepoInterface].
  unfold GetPRByID. destruct (GetContext _) as [p|]; [|done].
  cbn [deref local]. case_bool_decide.
  { cbn [fst assign local]. by rewrite with_Repo_same. }
  pose proof (SetPRStatus_keeps_keys (Repo s) prID "MERGED" Hk) as H1.
  destruct (SetPRStatus (Repo s) prID "MERGED") as [r1 [err|]]; done.
Qed.

Lemma CreatePR_bind_keeps_keys d prID reviewers :
  prID ∈ prs_id <$> prs d ->
  (∀ r, r ∈ reviewers -> User_ID r ∈ users_id <$> users d) ->
  keys d -> keys (CreatePR_bind d prID reviewers).
Proof.
  revert d. induction reviewers as [|reviewer rest IH]; intros d Hp Hu Hk;
    [done|].
  cbn [CreatePR_bind repo.AddReviewer repo.AddAssignmentEvent
       Repo_RepoInterface].
  rewrite AddReviewer_nil, AddAssignmentEvent_nil.
  set (d1 := (AddReviewer d prID (User_ID reviewer)).1).
  destruct (AddReviewer_frame d prID (User_ID reviewer))
    as (Hu1 & _ & _ & Hp1 & _). fold d1 in Hu1, Hp1.
  assert (User_ID reviewer ∈ users_id <$> users d) as Hur by (apply Hu; left).
  assert (keys d1) as Hk1 by by apply AddReviewer_keeps_keys.
  apply IH.
  - change (prs (AddAssignmentEvent d1 _ _).1) with (prs d1). by rewrite Hp1.
  - intros r Hr. change (users (AddAssignmentEvent d1 _ _).1) with (users d1).
    rewrite Hu1. apply Hu. by right.
  - apply AddAssignmentEvent_keeps_keys; [by rewrite Hp1|by rewrite Hu1|done].
Qed.

Lemma CreatePR_keeps_keys (s : Service DB) prID prName authorID :
  keys (Repo s) -> keys (Repo (CreatePR s prID prName authorID).1).
Proof.
  intros Hk.
  destruct (CreatePR s prID prName authorID) as [s' [pr|e]] eqn:Hrun; cbn [fst].
  2: { by rewrite (CreatePR_Err_inv _ _ _ _ _ _ Hrun). }
  apply CreatePR_Ok_inv in Hrun
    as (teamName & reviewers & Hnil & (a & Ha & Haid) & _ & _ & _ & Hsub & ->).
  pose proof (CreatePRWithID_keeps_keys (Repo s) prID prName authorID) as Hk1.
  rewrite (CreatePRWithID_fresh _ _ _ _ Hnil) in Hk1. cbn [fst] in Hk1.
  apply CreatePR_bind_keeps_keys.
  - cbn [prs with_prs]. rewrite fmap_app, elem_of_app. right. left.
  - intros r Hr. apply Hsub in Hr.
    apply list_elem_of_fmap in Hr as (u & -> & Hu).
    apply elem_of_team_users in Hu as (Hu & _).
    apply list_elem_of_fmap. by exists u.
  - apply Hk1; [|done]. apply list_elem_of_fmap. by exists a.
Qed.

Lemma ReassignReviewer_keeps_keys (s : Service DB) prID old :
  keys (Repo s) -> keys (Repo (ReassignReviewer s prID old).1).
Proof.
  intros Hk.
  destruct (ReassignReviewer s prID old) as [s' [[pr new]|e]] eqn:Hrun;
    cbn [fst].
  2: { by rewrite (ReassignReviewer_Err_inv _ _ _ _ _ Hrun). }
  apply ReassignReviewer_Ok_inv in Hrun
    as (p & teamName & u & src & Hp & Hst & Hold & Hteam & Hu & -> & -> & _).
  apply elem_of_team_users in Hu as (Hu & _).
  assert (prID ∈ prs_id <$> prs (Repo s)) as Hpin.
  { apply list_elem_of_fmap. exists p. split.
    - by apply pr_rows_head_id in Hp.
    - apply head_Some_elem_of in Hp. by apply list_elem_of_filter in Hp as [_ ?]. }
  assert (users_id u ∈ users_id <$> users (Repo s)) as Huin
    by (apply list_elem_of_fmap; eauto).
  assert (keys (with_random src (Repo s))) as Hk0
    by (eapply keys_ext; [..|exact Hk]; done).
  pose proof (RemoveReviewer_keeps_keys _ prID old Hk0) as Hk1.
  set (d2 := (RemoveReviewer (with_random src (Repo s)) prID old).1) in *.
  destruct (AddReviewer_frame d2 prID (users_id u)) as (Hu1 & _ & _ & Hp1 & _).
  apply AddAssignmentEvent_keeps_keys.
  - by rewrite Hp1.
  - by rewrite Hu1.
  - by apply AddReviewer_keeps_keys.
Qed.

Lemma step_keeps_keys (s : Service DB) (o : op) :
  keys (Repo s) -> keys (Repo (step s o)).
Proof.
  intros Hk. destruct o; cbn [step].
  - by apply CreateTeam_keeps_keys.
  - by apply SetUserActive_service_keeps_keys.
  - by apply CreatePR_keeps_keys.
  - by apply MergePR_keeps_keys.
  - by apply ReassignReviewer_keeps_keys.
  - by apply BulkDeactivateTeam_keeps_keys.
Qed.


End Repo_keys.

(** ** Properties of whole runs over the PostgreSQL repository *)

Section runs.
Import repo repo.Repo service fixtures Repo_spec Repo_history.
Import Repo_facts Repo_joins Repo_invariant Repo_bindings Repo_engine
       Repo_history_facts Repo_effects Repo_keys stats_facts.

(** X1: the unique keys and the references between the tables survive
    every sequence of calls: a store that satisfies them still does after
    any run. *)
Theorem run_preserves_keys (s : Service DB) (ops : list op) :
  keys (Repo s) -> keys (Repo (run s ops)).
Proof.
  revert s. induction ops as [|o ops IH]; intros s Hk; [done|].
  cbn [run foldl]. apply IH. by apply step_keeps_keys.
Qed.

Lemma run_preserves_keys_witness :
  keys (Repo (run (New (with_random [2] empty) [2; 1])
                  [OpCreateTeam "dev-team" team4;
                   OpCreatePR "pr-1" "Test PR" "author1";
                   OpReassignReviewer "pr-1" "reviewer1";
                   OpMergePR "pr-1"])).
Proof. apply run_preserves_keys. apply keys_empty. Defined.

(** X2: a PR is never deleted or rewritten: whatever calls follow, a PR
    that exists keeps its id, title and author, and its status is the one
    it had or MERGED. *)
Theorem PR_persists (s : Service DB) (ops : list op) (prID : string) pr :
  repo.GetPRByID (Repo s) prID = Ok pr ->
  ∃ pr', repo.GetPRByID (Repo (run s ops)) prID = Ok pr'
    ∧ PR_ID (deref pr') = PR_ID (deref pr)
    ∧ PR_Title (deref pr') = PR_Title (deref pr)
    ∧ PR_AuthorID (deref pr') = PR_AuthorID (deref pr)
    ∧ (PR_Status (deref pr') = PR_Status (deref pr)
       ∨ PR_Status (deref pr') = "MERGED").
Proof.
  intros (p & Hp & ->)%GetPRByID_Ok.
  destruct (evolves_head _ _ _ _ (run_evolves s ops) Hp)
    as (p' & Hp' & Hid & Htitle & Hauthor & Hst).
  exists (local (scan_PR p')). split; [|done].
  apply GetPRByID_Ok. eauto.
Qed.

Lemma PR_persists_witness :
  ∃ pr', repo.GetPRByID
           (Repo (run dev_store [OpReassignReviewer "pr-1" "reviewer1";
                                 OpMergePR "pr-1";
                                 OpCreatePR "pr-1" "Again" "reviewer2"]))
           "pr-1" = Ok pr'
    ∧ PR_Title (deref pr') = "Test PR"
    ∧ PR_AuthorID (deref pr') = "author1".
Proof.
  edestruct (PR_persists dev_store
               [OpReassignReviewer "pr-1" "reviewer1"; OpMergePR "pr-1";
                OpCreatePR "pr-1" "Again" "reviewer2"] "pr-1")
    as (pr' & Hget & _ & Htitle & Hauthor & _).
  - vm_compute. reflexivity.
  - exists pr'. exact (conj Hget (conj Htitle Hauthor)).
Defined.

(** X3: MERGED is final: once a PR is MERGED, after any further calls it
    is still MERGED and has exactly the reviewer binding rows it had. *)
Theorem merged_is_final (s : Service DB) (ops : list op) (prID : string) pr :
  repo.GetPRByID (Repo s) prID = Ok pr ->
  PR_Status (deref pr) = "MERGED" ->
  (∃ pr', repo.GetPRByID (Repo (run s ops)) prID = Ok pr'
          ∧ PR_Status (deref pr') = "MERGED")
  ∧ bindings (Repo (run s ops)) prID = bindings (Repo s) prID.
Proof.
  intros (p & Hp & ->)%GetPRByID_Ok Hst. cbn [deref local scan_PR PR_Status] in Hst.
  pose proof (run_evolves s ops) as Hev. split.
  - destruct (evolves_head _ _ _ _ Hev Hp) as (p' & Hp' & _ & _ & _ & Hs).
    exists (local (scan_PR p')). split; [apply GetPRByID_Ok; eauto|].
    cbn [deref local scan_PR PR_Status]. destruct Hs; congruence.
  - by eapply ev_frozen.
Qed.

Lemma merged_is_final_witness :
  bindings (Repo (run merged_store
                      [OpReassignReviewer "pr-1" "reviewer1";
                       OpCreatePR "pr-1" "Again" "author1";
                       OpBulkDeactivateTeam "dev-team" true]))
           "pr-1"
  = bindings (Repo merged_store) "pr-1".
Proof.
  eapply (merged_is_final merged_store).
  - vm_compute. reflexivity.
  - reflexivity.
Defined.

(** X4: assignment events are append-only: after any run the events there
    were are still the first events, unchanged, and no reviewer's count in
    the statistics has gone down. *)
Theorem events_append_only (s : Service DB) (ops : list op) :
  assignment_events (Repo s) `prefix_of` assignment_events (Repo (run s ops))
  ∧ ∀ now now' stats stats' uid n,
      GetStats s now = Ok stats ->
      GetStats (run s ops) now' = Ok stats' ->
      assignment_stats stats !! uid = Some n ->
      ∃ n', assignment_stats stats' !! uid = Some n' ∧ (n ≤ n')%Z.
Proof.
  pose proof (ev_events _ _ (run_evolves s ops)) as Hpre.
  split; [done|].
  intros now now' stats stats' uid n Hs Hs' Hn.
  destruct (Repo_GetAssignmentStats_lookup (Repo s) uid) as (m & Hm & Hl).
  destruct (Repo_GetAssignmentStats_lookup (Repo (run s ops)) uid)
    as (m' & Hm' & Hl').
  unfold GetStats in Hs, Hs'.
  change (repo.GetAssignmentStats ?d) with (GetAssignmentStats d) in Hs, Hs'.
  rewrite Hm in Hs. rewrite Hm' in Hs'.
  injection Hs as <-. injection Hs' as <-.
  cbn [assignment_stats] in *. rewrite Hl in Hn. rewrite Hl'. cbn zeta in *.
  destruct Hpre as [extra Hextra]. rewrite Hextra, fmap_app.
  unfold times_assigned in *. rewrite filter_app, length_app.
  repeat case_decide; try done; try lia.
  all: injection Hn as <-; eexists; split; [reflexivity|lia].
Qed.

Lemma events_append_only_witness :
  ∃ n', (∃ stats', GetStats (run dev_store
                                 [OpReassignReviewer "pr-1" "reviewer1";
                                  OpCreatePR "pr-2" "Second" "reviewer3"])
                            "t1" = Ok stats'
                   ∧ assignment_stats stats' !! "reviewer2" = Some n')
        ∧ (1 ≤ n')%Z.
Proof.
  destruct (proj2 (events_append_only dev_store
                     [OpReassignReviewer "pr-1" "reviewer1";
                      OpCreatePR "pr-2" "Second" "reviewer3"])
              "t0" "t1" _ _ "reviewer2" 1%Z eq_refl eq_refl)
    as (n' & Hn' & Hle).
  - vm_compute. reflexivity.
  - exists n'. split; [|exact Hle]. eexists. split; [reflexivity|exact Hn'].
Defined.

(** X5: no call removes a user, a team or a membership: after any run the
    user ids, the team rows and the membership rows there were are still
    there, first and in the same order. *)
Theorem directory_only_grows (s : Service DB) (ops : list op) :
  (users_id <$> users (Repo s))
    `prefix_of` (users_id <$> users (Repo (run s ops)))
  ∧ teams (Repo s) `prefix_of` teams (Repo (run s ops))
  ∧ team_members (Repo s) `prefix_of` team_members (Repo (run s ops)).
Proof.
  destruct (run_evolves s ops). done.
Qed.

End runs.

(** ** What each call does to the PostgreSQL repository *)

Section calls.
Import repo repo.Repo service fixtures Repo_spec Repo_history.
Import Repo_facts Repo_joins Repo_invariant Repo_bindings Repo_engine
       Repo_history_facts Repo_effects Repo_keys stats_facts.

#[local] Arguments GetUserTeam : simpl never.
#[local] Arguments pr_users : simpl never.

Lemma PRExists_true d prID p :
  p ∈ prs d -> prs_id p = prID -> PRExists d prID = Ok true.
Proof.
  intros Hp Hid. unfold PRExists. f_equal. apply bool_decide_eq_true_2.
  assert (p ∈ filter (fun p => prs_id p = prID) (prs d)) as Hin
    by by apply list_elem_of_filter.
  destruct (filter _ (prs d)); [by apply elem_of_nil in Hin|simpl; lia].
Qed.

Lemma GetUserByID_Err d userID :
  (∀ u, u ∈ users d -> users_id u ≠ userID) ->
  GetUserByID d userID = Err sql_ErrNoRows.
Proof.
  intros Hno. unfold GetUserByID. by rewrite filter_none.
Qed.

Lemma GetUserByID_Ok d userID u :
  u ∈ users d -> users_id u = userID ->
  ∃ u', GetUserByID d userID = Ok (local (scan_User u'))
        ∧ u' ∈ users d ∧ users_id u' = userID.
Proof.
  intros Hu Hid. unfold GetUserByID.
  assert (u ∈ filter (fun u => users_id u = userID) (users d)) as Hin
    by by apply list_elem_of_filter.
  destruct (filter _ (users d)) as [|u' ?] eqn:Hf;
    [by apply elem_of_nil in Hin|].
  exists u'. split; [done|].
  assert (u' ∈ filter (fun u => users_id u = userID) (users d)) as Hin'
    by (rewrite Hf; left).
  apply list_elem_of_filter in Hin' as [? ?]. done.
Qed.

(** X6: the failures of CreatePR, in the order of the checks: an id
    already in [prs] gives [ErrPRExists]; else an author id not in [users]
    gives [ErrNotFound]; else an author with no team gives the untyped
    error "author has no team"; else the call succeeds.  Every failure
    hands the service back unchanged. *)
Theorem CreatePR_failures (s : Service DB) (prID prName authorID : string) :
  (∀ p, p ∈ prs (Repo s) -> prs_id p = prID ->
        CreatePR s prID prName authorID = (s, Err ErrPRExists))
  ∧ ((∀ p, p ∈ prs (Repo s) -> prs_id p ≠ prID) ->
     ((∀ u, u ∈ users (Repo s) -> users_id u ≠ authorID) ->
        CreatePR s prID prName authorID = (s, Err ErrNotFound))
     ∧ (∀ u, u ∈ users (Repo s) -> users_id u = authorID ->
        (∀ e, repo.GetUserTeam (Repo s) authorID = Err e ->
              CreatePR s prID prName authorID
              = (s, Err (errors_New "author has no team")))
        ∧ (∀ teamName, repo.GetUserTeam (Repo s) authorID = Ok teamName ->
             ∃ s' reviewers,
               CreatePR s prID prName authorID
               = (s', Ok (mkPR prID prName authorID "OPEN" reviewers))))).
Proof.
  split.
  { intros p Hp Hid. unfold CreatePR.
    cbn [repo.PRExists Repo_RepoInterface]. by rewrite (PRExists_true _ _ p). }
  intros Hfresh. apply pr_rows_nil in Hfresh.
  pose proof (proj2 (PRExists_false _ _) Hfresh) as Hex.
  split.
  { intros Hno. unfold CreatePR.
    cbn [repo.PRExists repo.GetUserByID Repo_RepoInterface].
    by rewrite Hex, GetUserByID_Err. }
  intros u Hu Hid.
  destruct (GetUserByID_Ok _ _ _ Hu Hid) as (u' & Hget & _).
  split.
  { intros e Hteam. unfold CreatePR.
    cbn [repo.PRExists repo.GetUserByID Repo_RepoInterface].
    rewrite Hex, Hget. by rewrite Hteam. }
  intros teamName Hteam. unfold CreatePR.
  cbn [repo.PRExists repo.GetUserByID repo.CreatePRWithID Repo_RepoInterface].
  rewrite Hex, Hget, Hteam, (CreatePRWithID_fresh _ _ _ _ Hfresh).
  destruct (assignReviewers _ teamName authorID) as [s2 res]. eauto.
Qed.

Lemma CreatePR_failures_witness :
  CreatePR dev_store "pr-1" "Again" "author1" = (dev_store, Err ErrPRExists)
  ∧ CreatePR dev_store "pr-2" "Second" "nobody" = (dev_store, Err ErrNotFound)
  ∧ CreatePR lone_user_store "pr-1" "T" "u1"
    = (lone_user_store, Err (errors_New "author has no team"))
  ∧ ∃ s' reviewers,
      CreatePR dev_store "pr-2" "Second" "reviewer3"
      = (s', Ok (mkPR "pr-2" "Second" "reviewer3" "OPEN" reviewers)).
Proof.
  split_and!.
  - apply (proj1 (CreatePR_failures dev_store "pr-1" "Again" "author1")
             (mk_prs "pr-1" "Test PR" "author1" "OPEN")); [|reflexivity].
    vm_compute. apply list_elem_of_singleton. reflexivity.
  - destruct (proj2 (CreatePR_failures dev_store "pr-2" "Second" "nobody"))
      as [H _]; [|apply H].
    + vm_compute. intros p ->%list_elem_of_singleton. discriminate.
    + vm_compute. intros u Hu. repeat (apply elem_of_cons in Hu as [->|Hu];
        [discriminate|]). by apply elem_of_nil in Hu.
  - destruct (proj2 (CreatePR_failures lone_user_store "pr-1" "T" "u1"))
      as [_ H].
    + vm_compute. intros p []%elem_of_nil.
    + edestruct (H (mk_users "u1" "User1" true)) as [H1 _];
        [vm_compute; apply list_elem_of_singleton; reflexivity|reflexivity|].
      eapply H1. vm_compute. reflexivity.
  - destruct (proj2 (CreatePR_failures dev_store "pr-2" "Second" "reviewer3"))
      as [_ H].
    + vm_compute. intros p ->%list_elem_of_singleton. discriminate.
    + edestruct (H (mk_users "reviewer3" "Reviewer3" true)) as [_ H1];
        [by_decide|reflexivity|].
      eapply H1. vm_compute. reflexivity.
Defined.

(** *** [assignReviewers] *)

Lemma take_limit {A} (l : list A) :
  take (if bool_decide (length l < 2) then length l else 2) l = take 2 l.
Proof.
  case_bool_decide; [|done]. rewrite firstn_all. symmetry.
  apply take_ge. lia.
Qed.

Lemma assignReviewers_perm (s : Service DB) (teamName excl : string) :
  ∃ candidates shuffled,
    repo.GetActiveTeamMembersExcept (Repo s) teamName excl = Ok candidates
    ∧ shuffled ≡ₚ candidates
    ∧ (assignReviewers s teamName excl).2 = Ok (take 2 shuffled)
    ∧ Repo (assignReviewers s teamName excl).1 = Repo s.
Proof.
  exists (scan_User <$> team_users (Repo s) teamName (active_except excl)).
  unfold assignReviewers.
  cbn [repo.GetActiveTeamMembersExcept Repo_RepoInterface
       GetActiveTeamMembersExcept].
  set (candidates := scan_User <$> team_users _ _ _).
  case_bool_decide as Hlen.
  { apply nil_length_inv in Hlen. exists [].
    split_and!; [done|by rewrite Hlen|done|done]. }
  pose proof (Shuffle_Permutation (rand s) candidates) as Hperm.
  destruct (Shuffle (rand s) candidates) as [shuffled src].
  cbn [fst snd] in *. rewrite take_limit. exists shuffled. by split_and!.
Qed.

(** X7: assignReviewers never writes to the store and never fails over
    the PostgreSQL repository; what it returns is the first two entries
    (all of them when there are fewer) of a reordering of the active
    members of the team other than the excluded user: min(2, number of
    candidates) users, each of them active, a member of the team, and not
    the excluded user. *)
Theorem assignReviewers_selects (s : Service DB) (teamName excl : string) :
  ∃ candidates shuffled reviewers,
    repo.GetActiveTeamMembersExcept (Repo s) teamName excl = Ok candidates
    ∧ shuffled ≡ₚ candidates
    ∧ reviewers = take 2 shuffled
    ∧ (assignReviewers s teamName excl).2 = Ok reviewers
    ∧ Repo (assignReviewers s teamName excl).1 = Repo s
    ∧ length reviewers = min 2 (length candidates)
    ∧ ∀ r, r ∈ reviewers ->
           User_IsActive r = true ∧ User_ID r ≠ excl
           ∧ member_of (Repo s) teamName (User_ID r).
Proof.
  destruct (assignReviewers_perm s teamName excl)
    as (candidates & shuffled & Hget & Hperm & Hres & Hrepo).
  exists candidates, shuffled, (take 2 shuffled). split_and!; try done.
  - rewrite length_take, (Permutation_length Hperm). lia.
  - intros r Hr. apply subseteq_take in Hr. rewrite Hperm in Hr.
    cbn [repo.GetActiveTeamMembersExcept Repo_RepoInterface] in Hget.
    unfold GetActiveTeamMembersExcept in Hget. injection Hget as <-.
    apply list_elem_of_fmap in Hr as (u & -> & Hu).
    apply elem_of_team_users in Hu as (_ & Hact & Hmem).
    apply active_except_true in Hact as [Hact Hne]. done.
Qed.

(** *** [CreatePR] *)

Lemma key_inj {A K} (f : A -> K) (l : list A) x y :
  NoDup (f <$> l) -> x ∈ l -> y ∈ l -> f x = f y -> x = y.
Proof.
  induction l as [|a l IH]; [by intros _ []%elem_of_nil|].
  rewrite fmap_cons, NoDup_cons. intros [Ha Hnd].
  intros [->|Hx]%elem_of_cons [->|Hy]%elem_of_cons Heq; auto.
  - destruct Ha. rewrite Heq. apply list_elem_of_fmap. eauto.
  - destruct Ha. rewrite <- Heq. apply list_elem_of_fmap. eauto.
Qed.

(** With the keys in place a user is listed once among the members of a
    team. *)
Lemma team_users_NoDup d teamName cond :
  keys d -> NoDup (team_users d teamName cond).
Proof.
  intros Hk. unfold team_users. apply NoDup_bind.
  - intros u1 u2 y _ _ H1 H2.
    apply list_elem_of_bind in H1 as (tm1 & H1 & _).
    apply list_elem_of_bind in H1 as (t1 & H1 & _).
    apply list_elem_of_bind in H2 as (tm2 & H2 & _).
    apply list_elem_of_bind in H2 as (t2 & H2 & _).
    destruct (_ && cond u1); [|by apply elem_of_nil in H1].
    destruct (_ && cond u2); [|by apply elem_of_nil in H2].
    apply list_elem_of_singleton in H1, H2. congruence.
  - intros u Hu. apply NoDup_bind.
    + intros tm1 tm2 y Htm1 Htm2 H1 H2.
      apply list_elem_of_bind in H1 as (t1 & H1 & Ht1).
      apply list_elem_of_bind in H2 as (t2 & H2 & Ht2).
      destruct (bool_decide _ && cond u) eqn:Hc1 in H1;
        [|by apply elem_of_nil in H1].
      destruct (bool_decide _ && cond u) eqn:Hc2 in H2;
        [|by apply elem_of_nil in H2].
      apply andb_true_iff in Hc1 as [Hc1 _], Hc2 as [Hc2 _].
      apply bool_decide_eq_true in Hc1 as (Hu1 & Hid1 & Hn1).
      apply bool_decide_eq_true in Hc2 as (Hu2 & Hid2 & Hn2).
      assert (t1 = t2) as ->.
      { apply (key_inj teams_name (teams d)); [apply Hk|done|done|congruence]. }
      destruct tm1, tm2; simpl in *. congruence.
    + intros tm Htm. apply NoDup_bind.
      * intros t1 t2 y Ht1 Ht2 H1 H2.
        destruct (bool_decide _ && cond u) eqn:Hc1 in H1;
          [|by apply elem_of_nil in H1].
        destruct (bool_decide _ && cond u) eqn:Hc2 in H2;
          [|by apply elem_of_nil in H2].
        apply andb_true_iff in Hc1 as [Hc1 _], Hc2 as [Hc2 _].
        apply bool_decide_eq_true in Hc1 as (Hu1 & Hid1 & Hn1).
        apply bool_decide_eq_true in Hc2 as (Hu2 & Hid2 & Hn2).
        apply (key_inj teams_name (teams d)); [apply Hk|done|done|congruence].
      * intros t Ht. destruct (_ && _); [apply NoDup_singleton|constructor].
      * eapply NoDup_fmap_1, (key_team_names _ Hk).
    + apply (key_members _ Hk).
  - eapply NoDup_fmap_1, (key_users _ Hk).
Qed.

Lemma CreatePR_Ok_perm (s s' : Service DB) prID prName authorID pr :
  CreatePR s prID prName authorID = (s', Ok pr) ->
  ∃ teamName shuffled,
    pr_rows (Repo s) prID = []
    ∧ GetUserTeam (Repo s) authorID = Ok teamName
    ∧ shuffled
      ≡ₚ scan_User <$> team_users (Repo s) teamName (active_except authorID)
    ∧ pr = mkPR prID prName authorID "OPEN" (take 2 shuffled)
    ∧ Repo s'
      = CreatePR_bind
          (with_prs (fun ps => ps ++ [mk_prs prID prName authorID "OPEN"])
                    (Repo s))
          prID (take 2 shuffled).
Proof.
  unfold CreatePR.
  destruct (repo.PRExists (Repo s) prID) as [[|]|] eqn:Hex; [done| |done].
  apply PRExists_false in Hex.
  destruct (repo.GetUserByID (Repo s) authorID) as [author|]; [|done].
  destruct (repo.GetUserTeam (Repo s) authorID) as [teamName|] eqn:Hteam;
    [|done].
  cbn [repo.CreatePRWithID Repo_RepoInterface].
  rewrite (CreatePRWithID_fresh _ _ _ _ Hex).
  match goal with
  | |- context [assignReviewers ?x teamName authorID] =>
      destruct (assignReviewers_perm x teamName authorID)
        as (candidates & shuffled & Hc & Hperm & Hres & Hrepo);
      destruct (assignReviewers x teamName authorID) as [s2 res]
  end.
  cbn [fst snd] in Hres, Hrepo. subst res. injection Hc as <-.
  intros [= <- <-]. exists teamName, shuffled.
  split_and!; try done. cbn [Repo with_Repo]. by rewrite Hrepo.
Qed.

(** X8: what a successful CreatePR leaves behind in a store whose keys
    hold: the PR is there with the given title and author and status OPEN;
    the reviewers bound to it are exactly the reviewers returned, who are
    distinct and as many as min(2, size of the candidate pool); one
    assignment event per returned reviewer has been appended, in order; the
    bindings of every other PR, the users, the teams and the memberships
    are as before. *)
Theorem CreatePR_effect (s s' : Service DB) (prID prName authorID : string) pr :
  keys (Repo s) ->
  CreatePR s prID prName authorID = (s', Ok pr) ->
  prs (Repo s') = prs (Repo s) ++ [mk_prs prID prName authorID "OPEN"]
  ∧ (∃ pr', repo.GetPRByID (Repo s') prID = Ok pr'
            ∧ deref pr' = mkPR prID prName authorID "OPEN" [])
  ∧ (∀ uid, mk_pr_reviewers prID uid ∈ pr_reviewers (Repo s')
            <-> uid ∈ User_ID <$> PR_Reviewers pr)
  ∧ NoDup (User_ID <$> PR_Reviewers pr)
  ∧ (∃ teamName candidates,
       repo.GetUserTeam (Repo s) authorID = Ok teamName
       ∧ repo.GetActiveTeamMembersExcept (Repo s) teamName authorID
         = Ok candidates
       ∧ length (bindings (Repo s') prID) = min 2 (length candidates))
  ∧ assignment_events (Repo s')
    = assignment_events (Repo s)
      ++ ((fun r => mk_assignment_events prID (User_ID r)) <$> PR_Reviewers pr)
  ∧ (∀ prID', prID' ≠ prID ->
              bindings (Repo s') prID' = bindings (Repo s) prID')
  ∧ users (Repo s') = users (Repo s)
  ∧ teams (Repo s') = teams (Repo s)
  ∧ team_members (Repo s') = team_members (Repo s).
Proof.
  intros Hk Hrun.
  pose proof (CreatePR_keeps_keys s prID prName authorID Hk) as Hk'.
  rewrite Hrun in Hk'. cbn [fst] in Hk'.
  apply CreatePR_Ok_perm in Hrun
    as (teamName & shuffled & Hnil & Hteam & Hperm & -> & Hs').
  rewrite Hs' in *. clear Hs'.
  set (d1 := with_prs _ (Repo s)) in *.
  destruct (CreatePR_bind_exact d1 prID (take 2 shuffled))
    as (Hu & Ht & Hm & Hp & _ & _ & He & news & Hrv & Hnews).
  cbn [PR_Reviewers].
  assert (∀ r, r ∈ pr_reviewers (Repo s) -> rv_pr_id r ≠ prID) as Hnob.
  { intros r Hr Hid. apply (ref_binding_pr _ Hk) in Hr.
    apply list_elem_of_fmap in Hr as (p & Hpid & Hp').
    rewrite pr_rows_nil in Hnil. apply (Hnil p Hp'). congruence. }
  assert (NoDup shuffled) as Hnds.
  { rewrite Hperm. apply NoDup_fmap_2_strong; [|by apply team_users_NoDup].
    intros [] [] _ _ [=]. by subst. }
  assert (NoDup (User_ID <$> take 2 shuffled)) as Hndr.
  { apply NoDup_fmap_2_strong.
    - intros r1 r2 Hr1%subseteq_take Hr2%subseteq_take Hid.
      rewrite Hperm in Hr1, Hr2.
      apply list_elem_of_fmap in Hr1 as (u1 & -> & Hu1).
      apply list_elem_of_fmap in Hr2 as (u2 & -> & Hu2).
      apply elem_of_team_users in Hu1 as (Hu1 & _).
      apply elem_of_team_users in Hu2 as (Hu2 & _).
      f_equal. by apply (key_inj users_id (users (Repo s)));
        [apply Hk|..].
    - eapply sublist_NoDup; [done|apply sublist_take]. }
  assert (∀ uid, mk_pr_reviewers prID uid ∈ pr_reviewers (CreatePR_bind d1 prID (take 2 shuffled))
                 <-> uid ∈ User_ID <$> take 2 shuffled) as Hbound.
  { intros uid. rewrite Hrv, elem_of_app, Hnews. cbn [rv_pr_id rv_user_id].
    split; [intros [Hin|(_ & _ & ?)]; [by destruct (Hnob _ Hin)|done]|].
    intros Hin. right. split_and!; [|done|done].
    intros Hold. by destruct (Hnob _ Hold). }
  split_and!.
  - by rewrite Hp.
  - exists (local (scan_PR (mk_prs prID prName authorID "OPEN"))).
    split; [|reflexivity]. apply GetPRByID_Ok.
    exists (mk_prs prID prName authorID "OPEN"). split; [|done].
    unfold pr_rows. rewrite Hp. unfold d1. cbn [prs with_prs].
    rewrite filter_app. fold (pr_rows (Repo s) prID). rewrite Hnil.
    cbn [app]. rewrite filter_cons_True by done. done.
  - exact Hbound.
  - exact Hndr.
  - exists teamName,
      (scan_User <$> team_users (Repo s) teamName (active_except authorID)).
    split_and!; [done|done|].
    rewrite <- Hperm.
    transitivity (length (take 2 shuffled)); [|by rewrite length_take].
    unfold bindings. rewrite Hrv, filter_app, (filter_none _ (pr_reviewers d1)),
      app_nil_l by (intros r Hr; by apply Hnob).
    rewrite filter_all by (intros r (_ & ? & _)%Hnews; done).
    rewrite <- (length_fmap User_ID (take 2 shuffled)).
    rewrite <- (length_fmap rv_user_id news).
    apply Permutation_length, NoDup_Permutation; [|done|].
    + apply NoDup_fmap_2_strong.
      * intros [p1 u1] [p2 u2] (_ & Hp1 & _)%Hnews (_ & Hp2 & _)%Hnews.
        simpl in *. congruence.
      * pose proof (key_bindings _ Hk') as Hndb. rewrite Hrv in Hndb.
        by apply NoDup_app in Hndb as (_ & _ & ?).
    + intros uid. rewrite list_elem_of_fmap. split.
      * intros (r & -> & (_ & _ & ?)%Hnews). done.
      * intros Hin. exists (mk_pr_reviewers prID uid). split; [done|].
        apply Hnews. split_and!; [|done|done].
        intros Hold. by destruct (Hnob _ Hold).
  - by rewrite He.
  - intros prID' Hne. unfold bindings. rewrite Hrv, filter_app.
    rewrite (filter_none _ news); [by rewrite app_nil_r|].
    intros r (_ & Hid & _)%Hnews. congruence.
  - by rewrite Hu.
  - by rewrite Ht.
  - by rewrite Hm.
Qed.

Lemma CreatePR_effect_witness :
  ∃ pr,
    CreatePR team_store "pr-1" "Test PR" "author1" = (dev_store, Ok pr)
    ∧ length (bindings (Repo dev_store) "pr-1") = 2
    ∧ assignment_events (Repo dev_store)
      = [mk_assignment_events "pr-1" "reviewer1";
         mk_assignment_events "pr-1" "reviewer2"].
Proof.
  assert (∃ pr, CreatePR team_store "pr-1" "Test PR" "author1"
                = (dev_store, Ok pr)) as (pr & Hrun).
  { eexists. vm_compute. reflexivity. }
  exists pr. split; [exact Hrun|].
  assert (keys (Repo team_store)) as Hk
    by (apply CreateTeam_keeps_keys, keys_empty).
  destruct (CreatePR_effect _ _ _ _ _ _ Hk Hrun)
    as (_ & _ & _ & _ & (teamName & candidates & Hteam & Hpool & Hlen) & He & _).
  split.
  - rewrite Hlen. vm_compute in Hteam. injection Hteam as <-.
    vm_compute in Hpool. injection Hpool as <-. reflexivity.
  - rewrite He. vm_compute in Hrun. injection Hrun as <-. reflexivity.
Defined.

(** X9: a PR id is taken for good: once CreatePR has succeeded for an id,
    every later CreatePR for that id, whatever its title and author and
    whatever calls came in between, fails with [ErrPRExists] and changes
    nothing. *)
Theorem CreatePR_id_taken (s s' : Service DB) (prID prName authorID : string)
    pr (ops : list op) (prName' authorID' : string) :
  CreatePR s prID prName authorID = (s', Ok pr) ->
  CreatePR (run s' ops) prID prName' authorID'
  = (run s' ops, Err ErrPRExists).
Proof.
  intros Hrun. apply CreatePR_Ok_inv in Hrun
    as (teamName & reviewers & Hnil & _ & _ & _ & _ & _ & Hs').
  set (d1 := with_prs _ (Repo s)) in Hs'.
  destruct (CreatePR_bind_exact d1 prID reviewers) as (_ & _ & _ & Hp & _).
  rewrite <- Hs' in Hp.
  assert (head (pr_rows (Repo s') prID)
          = Some (mk_prs prID prName authorID "OPEN")) as Hhead.
  { unfold pr_rows. rewrite Hp. unfold d1. cbn [prs with_prs].
    rewrite filter_app. fold (pr_rows (Repo s) prID). rewrite Hnil.
    cbn [app]. by rewrite filter_cons_True by done. }
  destruct (evolves_head _ _ _ _ (run_evolves s' ops) Hhead)
    as (p' & Hp' & _).
  unfold CreatePR. cbn [repo.PRExists Repo_RepoInterface].
  rewrite (PRExists_true _ _ p'); [done| |by apply pr_rows_head_id in Hp'].
  apply head_Some_elem_of in Hp'. by apply list_elem_of_filter in Hp' as [_ ?].
Qed.

Lemma CreatePR_id_taken_witness :
  let later := run dev_store [OpMergePR "pr-1";
                              OpBulkDeactivateTeam "dev-team" false] in
  CreatePR later "pr-1" "Another title" "reviewer3" = (later, Err ErrPRExists).
Proof.
  eapply (CreatePR_id_taken team_store dev_store "pr-1" "Test PR" "author1").
  vm_compute. reflexivity.
Defined.

(** *** [ReassignReviewer] *)

(** X10: a successful ReassignReviewer swaps exactly one binding: the
    binding rows afterwards are the rows before without (PR, old reviewer),
    plus (PR, new reviewer); the new reviewer is a member of the team the
    store resolved for the old reviewer; the PR rows, the users, the teams
    and the memberships are untouched, and so are the bindings of every
    other PR. *)
Theorem ReassignReviewer_swaps_one (s s' : Service DB) (prID old : string)
    pr new :
  ReassignReviewer s prID old = (s', Ok (pr, new)) ->
  (∀ r, r ∈ pr_reviewers (Repo s')
        <-> (r ∈ pr_reviewers (Repo s) ∧ r ≠ mk_pr_reviewers prID old)
            ∨ r = mk_pr_reviewers prID new)
  ∧ (∃ teamName, repo.GetUserTeam (Repo s) old = Ok teamName
                 ∧ member_of (Repo s) teamName new)
  ∧ (∀ prID', prID' ≠ prID ->
              bindings (Repo s') prID' = bindings (Repo s) prID')
  ∧ prs (Repo s') = prs (Repo s)
  ∧ users (Repo s') = users (Repo s)
  ∧ teams (Repo s') = teams (Repo s)
  ∧ team_members (Repo s') = team_members (Repo s)
  ∧ PR_ID pr = prID ∧ PR_Status pr ≠ "MERGED".
Proof.
  intros Hrun. apply ReassignReviewer_Ok_inv in Hrun
    as (p & teamName & u & src & Hp & Hst & Hold & Hteam & Hu & -> & -> & _ & ->).
  apply elem_of_team_users in Hu as (Hu & _ & Hmem).
  set (d2 := (RemoveReviewer (with_random src (Repo s)) prID old).1).
  destruct (AddReviewer_frame d2 prID (users_id u))
    as (Hu1 & Ht1 & Hm1 & Hp1 & _).
  change (pr_reviewers (AddAssignmentEvent ?d _ _).1) with (pr_reviewers d).
  change (prs (AddAssignmentEvent ?d _ _).1) with (prs d).
  change (users (AddAssignmentEvent ?d _ _).1) with (users d).
  change (teams (AddAssignmentEvent ?d _ _).1) with (teams d).
  change (team_members (AddAssignmentEvent ?d _ _).1) with (team_members d).
  split_and!.
  - intros r. rewrite elem_of_AddReviewer. unfold d2.
    by rewrite elem_of_RemoveReviewer.
  - by exists teamName.
  - intros prID' Hne. unfold bindings.
    change (pr_reviewers (AddAssignmentEvent ?d _ _).1) with (pr_reviewers d).
    rewrite AddReviewer_exact, filter_app.
    rewrite (filter_none _ (if bool_decide _ then _ else _)).
    2: { intros r Hr Hid. case_bool_decide; [by apply elem_of_nil in Hr|].
         apply list_elem_of_singleton in Hr as ->. by destruct Hne. }
    rewrite app_nil_r. fold (bindings d2 prID'). unfold d2.
    rewrite bindings_RemoveReviewer.
    apply filter_all. intros r [Hid _]%list_elem_of_filter. intros [? _].
    congruence.
  - by rewrite Hp1.
  - by rewrite Hu1.
  - by rewrite Ht1.
  - by rewrite Hm1.
  - cbn [PR_ID]. by apply pr_rows_head_id in Hp.
  - done.
Qed.

Lemma ReassignReviewer_swaps_one_witness :
  ∃ s' pr,
    ReassignReviewer dev_store "pr-1" "reviewer1" = (s', Ok (pr, "reviewer3"))
    ∧ member_of (Repo dev_store) "dev-team" "reviewer3"
    ∧ prs (Repo s') = prs (Repo dev_store).
Proof.
  assert (∃ s' pr, ReassignReviewer dev_store "pr-1" "reviewer1"
                   = (s', Ok (pr, "reviewer3"))) as (s' & pr & Hrun).
  { eexists _, _. vm_compute. reflexivity. }
  exists s', pr. split; [exact Hrun|].
  destruct (ReassignReviewer_swaps_one _ _ _ _ _ _ Hrun)
    as (_ & (teamName & Hteam & Hmem) & _ & Hp & _).
  vm_compute in Hteam. injection Hteam as <-. exact (conj Hmem Hp).
Defined.

(** X11: in the statistics a successful ReassignReviewer adds one to the
    count of the new reviewer and leaves every other count as it was. *)
Theorem ReassignReviewer_counts_once (s s' : Service DB) (prID old : string)
    pr new (now now' uid : string) stats stats' :
  ReassignReviewer s prID old = (s', Ok (pr, new)) ->
  GetStats s now = Ok stats -> GetStats s' now' = Ok stats' ->
  assignment_stats stats' !! new
  = Some (default 0%Z (assignment_stats stats !! new) + 1)%Z
  ∧ (uid ≠ new ->
     assignment_stats stats' !! uid = assignment_stats stats !! uid).
Proof.
  intros Hrun Hs Hs'. apply ReassignReviewer_Ok_inv in Hrun
    as (p & teamName & u & src & _ & _ & _ & _ & _ & -> & Hrepo & _).
  assert (assignment_events (Repo s')
          = assignment_events (Repo s)
            ++ [mk_assignment_events prID (users_id u)]) as He.
  { rewrite Hrepo.
    change (assignment_events (AddAssignmentEvent ?d ?a ?b).1)
      with (assignment_events d ++ [mk_assignment_events a b]).
    f_equal.
    by rewrite (proj1 (proj2 (proj2 (proj2 (proj2 (AddReviewer_frame _ _ _)))))). }
  assert (∀ x, ∃ m m',
            stats = mkStats m now ∧ stats' = mkStats m' now'
            ∧ m !! x = (let n := times_assigned
                           (ev_user_id <$> assignment_events (Repo s)) x in
                        if decide (n = 0) then None else Some (Z.of_nat n))
            ∧ m' !! x = (let n := times_assigned
                           (ev_user_id <$> assignment_events (Repo s')) x in
                         if decide (n = 0) then None else Some (Z.of_nat n)))
    as Hlook.
  { intros x.
    destruct (Repo_GetAssignmentStats_lookup (Repo s) x) as (m & Hm & Hl).
    destruct (Repo_GetAssignmentStats_lookup (Repo s') x) as (m' & Hm' & Hl').
    unfold GetStats in Hs, Hs'.
    change (repo.GetAssignmentStats ?d) with (GetAssignmentStats d) in Hs, Hs'.
    rewrite Hm in Hs. rewrite Hm' in Hs'.
    injection Hs as <-. injection Hs' as <-. eauto 10. }
  assert (∀ x, times_assigned
                 (ev_user_id <$> assignment_events (Repo s')) x
               = times_assigned
                   (ev_user_id <$> assignment_events (Repo s)) x
                 + (if decide (users_id u = x) then 1 else 0)) as Hta.
  { intros x. rewrite He, fmap_app. unfold times_assigned.
    rewrite filter_app, length_app. f_equal.
    rewrite fmap_cons, filter_cons. cbn [ev_user_id].
    by case_decide. }
  split.
  - destruct (Hlook (users_id u)) as (m & m' & -> & -> & Hl & Hl').
    cbn [assignment_stats]. rewrite Hl, Hl'. cbn zeta. rewrite Hta.
    rewrite (decide_True (P := users_id u = users_id u)) by done.
    repeat case_decide; simpl; try lia; f_equal; lia.
  - intros Hne. destruct (Hlook uid) as (m & m' & -> & -> & Hl & Hl').
    cbn [assignment_stats]. rewrite Hl, Hl'. cbn zeta. rewrite Hta.
    rewrite (decide_False (P := users_id u = uid)) by done.
    by rewrite Nat.add_0_r.
Qed.

Lemma ReassignReviewer_counts_once_witness :
  ∃ s' pr stats',
    ReassignReviewer dev_store "pr-1" "reviewer1" = (s', Ok (pr, "reviewer3"))
    ∧ GetStats s' "t1" = Ok stats'
    ∧ assignment_stats stats' !! "reviewer3" = Some 1%Z.
Proof.
  assert (∃ s' pr, ReassignReviewer dev_store "pr-1" "reviewer1"
                   = (s', Ok (pr, "reviewer3"))) as (s' & pr & Hrun).
  { eexists _, _. vm_compute. reflexivity. }
  exists s', pr. eexists. split; [exact Hrun|]. split; [reflexivity|].
  destruct (ReassignReviewer_counts_once _ _ _ _ _ _ "t0" "t1" "reviewer3"
              _ _ Hrun eq_refl eq_refl) as [H _].
  rewrite H. vm_compute. reflexivity.
Defined.

End calls.

(** ** Users, teams and reviews over the PostgreSQL repository *)

Section directory.
Import repo repo.Repo service fixtures Repo_spec Repo_history.
Import Repo_facts Repo_joins Repo_invariant Repo_bindings Repo_engine
       Repo_history_facts Repo_effects Repo_keys stats_facts.

#[local] Arguments GetUserTeam : simpl never.
#[local] Arguments pr_users : simpl never.

(** The candidate pool only holds rows that are active. *)
Lemma pool_active d teamName excl u :
  u ∈ team_users d teamName (active_except excl) ->
  u ∈ users d ∧ users_is_active u = true ∧ users_id u ≠ excl.
Proof.
  intros (Hu & Hact & _)%elem_of_team_users.
  by apply active_except_true in Hact as [? ?].
Qed.

(** X12: SetUserActive on an id that is not in [users] fails with
    [ErrNotFound] and changes nothing; on a known id it succeeds, returns
    the user with the flag as set and the team the store resolves for the
    user (empty when there is none), and a later lookup of the user shows
    the flag as set; the rows of other users and every other table stay as
    they were. *)
Theorem SetUserActive_spec (s : Service DB) (userID : string) (active : bool) :
  ((∀ u, u ∈ users (Repo s) -> users_id u ≠ userID) ->
     SetUserActive s userID active = (s, Err ErrNotFound))
  ∧ (∀ u, u ∈ users (Repo s) -> users_id u = userID ->
     ∃ s' user,
       SetUserActive s userID active = (s', Ok user)
       ∧ User_ID user = userID ∧ User_IsActive user = active
       ∧ User_TeamName user
         = match repo.GetUserTeam (Repo s) userID with
           | Ok teamName => teamName
           | Err _ => ""
           end
       ∧ (∃ user', repo.GetUserByID (Repo s') userID = Ok user'
                   ∧ User_IsActive (deref user') = active
                   ∧ User_Name (deref user') = User_Name user)
       ∧ Forall2 (fun u u' =>
                    users_id u' = users_id u ∧ users_name u' = users_name u
                    ∧ (users_id u ≠ userID -> u' = u))
                 (users (Repo s)) (users (Repo s'))
       ∧ teams (Repo s') = teams (Repo s)
       ∧ team_members (Repo s') = team_members (Repo s)
       ∧ prs (Repo s') = prs (Repo s)
       ∧ pr_reviewers (Repo s') = pr_reviewers (Repo s)
       ∧ assignment_events (Repo s') = assignment_events (Repo s)).
Proof.
  split.
  { intros Hno. unfold SetUserActive.
    cbn [repo.GetUserByID Repo_RepoInterface]. by rewrite GetUserByID_Err. }
  intros u Hu Hid.
  destruct (GetUserByID_Ok _ _ _ Hu Hid) as (u0 & Hget & Hu0 & Hid0).
  unfold SetUserActive.
  cbn [repo.GetUserByID repo.SetUserActive repo.GetUserTeam Repo_RepoInterface].
  rewrite Hget. unfold Repo.SetUserActive. cbn [deref assign local].
  eexists _, _. split; [reflexivity|].
  cbn [User_ID User_IsActive User_TeamName User_Name scan_User Repo with_Repo
       users teams team_members prs pr_reviewers assignment_events with_users].
  split_and!; try done.
  - exists (local (scan_User (set_is_active active u0))). split_and!; try done.
    unfold GetUserByID. cbn [users with_users].
    rewrite filter_UPDATE by done.
    unfold GetUserByID in Hget.
    destruct (filter _ (users (Repo s))) as [|u1 ?]; [done|].
    injection Hget as Heq. unfold UPDATE. rewrite fmap_cons. cbn [GetContext].
    assert (u1 = u0) as -> by (by destruct u1, u0; simplify_eq/=).
    by rewrite decide_True.
  - unfold UPDATE. apply Forall2_fmap_r, Forall_Forall2_diag, Forall_forall.
    intros q _. unfold compose. cbn beta. by case_decide.
Qed.

Lemma SetUserActive_spec_witness :
  SetUserActive dev_store "nobody" false = (dev_store, Err ErrNotFound)
  ∧ ∃ s' user,
      SetUserActive dev_store "reviewer2" false = (s', Ok user)
      ∧ User_IsActive user = false ∧ User_TeamName user = "dev-team".
Proof.
  split.
  - apply (proj1 (SetUserActive_spec dev_store "nobody" false)).
    vm_compute. intros u Hu.
    repeat (apply elem_of_cons in Hu as [->|Hu]; [discriminate|]).
    by apply elem_of_nil in Hu.
  - destruct (proj2 (SetUserActive_spec dev_store "reviewer2" false)
                (mk_users "reviewer2" "Reviewer2" true))
      as (s' & user & Hrun & _ & Hact & Hteam & _);
      [by_decide|reflexivity|].
    exists s', user. split; [exact Hrun|]. split; [exact Hact|].
    rewrite Hteam. vm_compute. reflexivity.
Defined.

(** X13: a deactivated user is not selected by the next call: after
    SetUserActive(id, false) has succeeded, CreatePR does not return the
    user among the reviewers and ReassignReviewer does not pick the user as
    the replacement. *)
Theorem deactivated_not_selected (s s1 : Service DB) (userID : string) user :
  SetUserActive s userID false = (s1, Ok user) ->
  (∀ prID prName authorID s2 pr,
     CreatePR s1 prID prName authorID = (s2, Ok pr) ->
     userID ∉ (User_ID <$> PR_Reviewers pr))
  ∧ (∀ prID old s2 pr new,
       ReassignReviewer s1 prID old = (s2, Ok (pr, new)) -> new ≠ userID).
Proof.
  intros Hset.
  assert (∀ u, u ∈ users (Repo s1) -> users_id u = userID ->
               users_is_active u = false) as Hoff.
  { revert Hset. unfold SetUserActive.
    cbn [repo.GetUserByID repo.SetUserActive Repo_RepoInterface].
    unfold GetUserByID.
    destruct (GetContext _) as [u0|]; [|done].
    unfold Repo.SetUserActive. intros [= <- _].
    cbn [Repo with_Repo assign deref local users with_users].
    intros u (q & Hq & ->)%elem_of_UPDATE Hid.
    destruct (decide (users_id q = userID)) as [|Hn]; [done|].
    by destruct Hn. }
  split.
  - intros prID prName authorID s2 pr Hrun.
    apply CreatePR_Ok_inv in Hrun
      as (teamName & reviewers & _ & _ & _ & -> & _ & Hsub & _).
    cbn [PR_Reviewers]. intros (r & Hid & Hr)%list_elem_of_fmap.
    apply Hsub in Hr. apply list_elem_of_fmap in Hr as (u & -> & Hu).
    apply pool_active in Hu as (Hu & Hact & _).
    rewrite (Hoff u Hu) in Hact; done.
  - intros prID old s2 pr new Hrun.
    apply ReassignReviewer_Ok_inv in Hrun
      as (p & teamName & u & src & _ & _ & _ & _ & Hu & -> & _).
    apply pool_active in Hu as (Hu & Hact & _). intros Hid.
    rewrite (Hoff u Hu Hid) in Hact. done.
Qed.

Lemma deactivated_not_selected_witness :
  ∃ s2 pr,
    CreatePR (SetUserActive team_store "reviewer1" false).1
             "pr-9" "Ninth" "author1" = (s2, Ok pr)
    ∧ ("reviewer1" ∉ (User_ID <$> PR_Reviewers pr))
    ∧ length (PR_Reviewers pr) = 2.
Proof.
  assert (∃ s1 user, SetUserActive team_store "reviewer1" false
                     = (s1, Ok user)) as (s1 & user & Hset).
  { eexists _, _. vm_compute. reflexivity. }
  assert (∃ s2 pr, CreatePR (SetUserActive team_store "reviewer1" false).1
                            "pr-9" "Ninth" "author1" = (s2, Ok pr)
                   ∧ length (PR_Reviewers pr) = 2)
    as (s2 & pr & Hrun & Hlen).
  { eexists _, _. split; vm_compute; reflexivity. }
  exists s2, pr. split; [exact Hrun|]. split; [|exact Hlen].
  rewrite Hset in Hrun. cbn [fst] in Hrun.
  exact (proj1 (deactivated_not_selected _ _ _ _ Hset) _ _ _ _ _ Hrun).
Defined.

End directory.

(** ** Teams over the PostgreSQL repository *)

Section teams.
Import repo repo.Repo service fixtures Repo_spec Repo_history.
Import Repo_facts Repo_joins Repo_invariant Repo_bindings Repo_engine
       Repo_history_facts Repo_effects Repo_keys stats_facts.

#[local] Arguments GetUserTeam : simpl never.
#[local] Arguments pr_users : simpl never.

Lemma GetTeamByName_Ok d teamName team :
  GetTeamByName d teamName = Ok team ->
  ∃ t, team = local (scan_Team t) ∧ t ∈ teams d ∧ teams_name t = teamName.
Proof.
  unfold GetTeamByName.
  destruct (filter _ (teams d)) as [|t ?] eqn:Hf; [done|].
  intros [= <-]. exists t. split; [done|].
  assert (t ∈ filter (fun t => teams_name t = teamName) (teams d)) as Ht
    by (rewrite Hf; left).
  by apply list_elem_of_filter in Ht as [? ?].
Qed.

(** What a successful bulk deactivation leaves: the users of the one team
    of that name are inactive. *)
Lemma BulkDeactivateTeam_Ok_inv (s s' : Service DB) teamName reassign :
  NoDup (teams_name <$> teams (Repo s)) ->
  BulkDeactivateTeam s teamName reassign = (s', None) ->
  ∃ t, t ∈ teams (Repo s') ∧ teams_name t = teamName
       ∧ teams (Repo s') = teams (Repo s)
       ∧ team_members (Repo s') = team_members (Repo s)
       ∧ rand s' = rand s
       ∧ ∀ u, u ∈ users (Repo s') -> member_of (Repo s') teamName (users_id u) ->
              users_is_active u = false.
Proof.
  intros Hnd. unfold BulkDeactivateTeam.
  cbn [repo.GetTeamByName repo.DeactivateTeamMembers Repo_RepoInterface].
  destruct (GetTeamByName (Repo s) teamName) as [team|] eqn:Hget; [|done].
  apply GetTeamByName_Ok in Hget as (t & -> & Ht & Hname).
  unfold DeactivateTeamMembers. cbn [deref local Team_ID scan_Team].
  intros [= <-]. cbn [Repo with_Repo users teams team_members with_users rand].
  exists t. split_and!; try done.
  intros u (q & Hq & ->)%elem_of_UPDATE (t' & tm & Ht' & Htm & Hid & Htid & Hn').
  assert (t' = t) as ->.
  { apply (key_inj teams_name (teams (Repo s))); [done..|congruence]. }
  destruct (decide _) as [|Hn]; [done|]. destruct Hn.
  apply list_elem_of_fmap. exists tm. split; [done|].
  apply list_elem_of_filter. split; [done|done].
Qed.

(** X14: once BulkDeactivateTeam has succeeded on a store with unique team
    names, the team has no candidates left: the pool of active members is
    empty whoever is excluded, GetTeam lists every member as inactive, a PR
    created by an author whose team it is gets no reviewer, and no reviewer
    whose team it is can be reassigned. *)
Theorem BulkDeactivateTeam_empties_pool (s s' : Service DB)
    (teamName : string) (reassign : bool) :
  NoDup (teams_name <$> teams (Repo s)) ->
  BulkDeactivateTeam s teamName reassign = (s', None) ->
  (∀ excl, repo.GetActiveTeamMembersExcept (Repo s') teamName excl = Ok [])
  ∧ (∃ team members,
       GetTeam s' teamName = Ok (team, members)
       ∧ Team_Name team = teamName
       ∧ Forall (fun u => User_IsActive u = false) members)
  ∧ (∀ prID prName authorID s2 pr,
       repo.GetUserTeam (Repo s') authorID = Ok teamName ->
       CreatePR s' prID prName authorID = (s2, Ok pr) ->
       PR_Reviewers pr = []
       ∧ pr_reviewers (Repo s2) = pr_reviewers (Repo s')
       ∧ assignment_events (Repo s2) = assignment_events (Repo s'))
  ∧ (∀ prID old s2 pr new,
       repo.GetUserTeam (Repo s') old = Ok teamName ->
       ReassignReviewer s' prID old ≠ (s2, Ok (pr, new))).
Proof.
  intros Hnd Hrun.
  destruct (BulkDeactivateTeam_Ok_inv _ _ _ _ Hnd Hrun)
    as (t & Ht & Hname & _ & _ & _ & Hoff).
  assert (∀ excl, team_users (Repo s') teamName (active_except excl) = [])
    as Hpool.
  { intros excl. apply elem_of_nil_inv. intros u Hu.
    apply elem_of_team_users in Hu as (Hu & Hact & Hmem).
    apply active_except_true in Hact as [Hact _].
    rewrite (Hoff u Hu Hmem) in Hact. done. }
  split_and!.
  - intros excl. cbn [repo.GetActiveTeamMembersExcept Repo_RepoInterface].
    unfold GetActiveTeamMembersExcept. by rewrite Hpool.
  - unfold GetTeam.
    cbn [repo.GetTeamByName repo.GetTeamMembers Repo_RepoInterface].
    unfold GetTeamByName, GetTeamMembers.
    assert (t ∈ filter (fun t => teams_name t = teamName) (teams (Repo s')))
      as Hin by by apply list_elem_of_filter.
    destruct (filter _ (teams (Repo s'))) as [|t0 l] eqn:Hf;
      [by apply elem_of_nil in Hin|].
    assert (t0 ∈ filter (fun t => teams_name t = teamName) (teams (Repo s')))
      as Hin0 by (rewrite Hf; left).
    apply list_elem_of_filter in Hin0 as [Hn0 _].
    cbn [GetContext deref local]. eexists _, _. split; [reflexivity|].
    split; [done|].
    apply Forall_forall. intros x (u & -> & Hu)%list_elem_of_fmap.
    apply elem_of_team_users in Hu as (Hu & _ & Hmem).
    cbn [User_IsActive scan_User]. by apply Hoff.
  - intros prID prName authorID s2 pr Hteam Hcr.
    apply CreatePR_Ok_inv in Hcr
      as (teamName' & reviewers & _ & _ & Hteam' & -> & _ & Hsub & Hrest).
    cbn [repo.GetUserTeam Repo_RepoInterface] in Hteam.
    assert (teamName' = teamName) as -> by congruence.
    assert (reviewers = []) as ->.
    { apply elem_of_nil_inv. intros r Hr. apply Hsub in Hr.
      rewrite Hpool in Hr. by apply elem_of_nil in Hr. }
    split; [done|]. rewrite Hrest. by cbn [CreatePR_bind].
  - intros prID old s2 pr new Hteam Hre.
    apply ReassignReviewer_Ok_inv in Hre
      as (p & teamName' & u & src & _ & _ & _ & Hteam' & Hu & _).
    cbn [repo.GetUserTeam Repo_RepoInterface] in Hteam.
    assert (teamName' = teamName) as -> by congruence.
    rewrite Hpool in Hu. by apply elem_of_nil in Hu.
Qed.

Lemma BulkDeactivateTeam_empties_pool_witness :
  repo.GetActiveTeamMembersExcept (Repo idle_store) "dev-team" "author1" = Ok []
  ∧ ∃ s2 pr, CreatePR idle_store "pr-2" "Second" "author1" = (s2, Ok pr)
             ∧ PR_Reviewers pr = [].
Proof.
  destruct (BulkDeactivateTeam_empties_pool dev_store idle_store
              "dev-team" false) as (Hpool & _ & Hcreate & _).
  - by_decide.
  - vm_compute. reflexivity.
  - split; [apply Hpool|].
    assert (∃ s2 pr, CreatePR idle_store "pr-2" "Second" "author1"
                     = (s2, Ok pr)) as (s2 & pr & Hrun).
    { eexists _, _. vm_compute. reflexivity. }
    exists s2, pr. split; [exact Hrun|].
    apply (Hcreate "pr-2" "Second" "author1" s2 pr); [|exact Hrun].
    vm_compute. reflexivity.
Defined.

(** *** The loop of [CreateTeam] over the members *)

(** One round of the loop: the user row is created or renamed, its flag is
    set, and the membership row is added unless it is there. *)
Lemma CreateTeam_member_effect d teamID userID username active :
  let d3 := (AddMember
               (Repo.SetUserActive (CreateUser d userID username).1
                                   userID active).1
               teamID userID).1 in
  teams d3 = teams d ∧ teams_id_seq d3 = teams_id_seq d
  ∧ (∀ u, u ∈ users d3
          <-> u = mk_users userID username active
              ∨ (u ∈ users d ∧ users_id u ≠ userID))
  ∧ (∃ k, team_members d3 = team_members d ++ k
          ∧ ∀ tm, tm ∈ k -> tm = mk_team_members teamID userID)
  ∧ mk_team_members teamID userID ∈ team_members d3.
Proof.
  intros d3. subst d3. unfold AddMember, Repo.SetUserActive. cbn [fst].
  assert (∀ u, u ∈ UPDATE (fun u => users_id u = userID) (set_is_active active)
                     (users (CreateUser d userID username).1)
               <-> u = mk_users userID username active
                   ∨ (u ∈ users d ∧ users_id u ≠ userID)) as Husers.
  { intros u. rewrite elem_of_UPDATE. unfold CreateUser.
    destruct (conflict _ (users d)) eqn:Hc; cbn [fst users with_users].
    - apply conflict_true in Hc as (u0 & Hu0 & Hid0). split.
      + intros (x & (y & Hy & ->)%elem_of_UPDATE & ->).
        destruct (decide (users_id y = userID)) as [Hy'|Hy'].
        * left. unfold set_name, set_is_active. cbn.
          rewrite decide_True by done. cbn. by rewrite Hy'.
        * right. by rewrite decide_False.
      + intros [->|[Hu Hne]].
        * exists (set_name username u0). split.
          -- apply elem_of_UPDATE. exists u0. by rewrite decide_True.
          -- unfold set_name, set_is_active. cbn.
             rewrite decide_True by done. cbn. by rewrite Hid0.
        * exists u. split; [|by rewrite decide_False].
          apply elem_of_UPDATE. exists u. by rewrite decide_False.
    - rewrite conflict_false in Hc. split.
      + intros (x & [Hx| ->%list_elem_of_singleton]%elem_of_app & ->).
        * right. rewrite decide_False by by apply Hc. split; [done|].
          by apply Hc.
        * left. cbn. by rewrite decide_True.
      + intros [->|[Hu Hne]].
        * exists (mk_users userID username users_is_active_default).
          split; [apply elem_of_app; right; left|].
          cbn. by rewrite decide_True.
        * exists u. split; [apply elem_of_app; by left|].
          by rewrite decide_False. }
  assert (teams (CreateUser d userID username).1 = teams d
          ∧ teams_id_seq (CreateUser d userID username).1 = teams_id_seq d
          ∧ team_members (CreateUser d userID username).1 = team_members d)
    as (Ht & Hs & Hm).
  { unfold CreateUser. by destruct (conflict _ _). }
  cbn [team_members with_users].
  destruct (conflict _ _) eqn:Hc;
    cbn [fst users teams team_members teams_id_seq with_users
         with_team_members]; rewrite ?Ht, ?Hs, ?Hm.
  - split_and!; try done.
    + exists []. rewrite app_nil_r. split; [done|].
      by intros tm []%elem_of_nil.
    + apply conflict_true in Hc as (tm & Htm & ->). by rewrite <- Hm.
  - split_and!; try done.
    + eexists. split; [reflexivity|].
      by intros tm ->%list_elem_of_singleton.
    + apply elem_of_app. right. left.
Qed.

(** The whole loop, for members with distinct ids: it does not fail, every
    member ends up with the name and the flag of the request and with a
    membership row, and nothing else changes. *)
Lemma CreateTeam_members_effect d teamID members :
  NoDup (TeamMember_UserID <$> members) ->
  ∃ d',
    CreateTeam_members d teamID members = (d', None)
    ∧ teams d' = teams d ∧ teams_id_seq d' = teams_id_seq d
    ∧ (∀ u, u ∈ users d'
            <-> (∃ m, m ∈ members
                      ∧ u = mk_users (TeamMember_UserID m)
                                     (TeamMember_Username m)
                                     (TeamMember_IsActive m))
                ∨ (u ∈ users d
                   ∧ users_id u ∉ (TeamMember_UserID <$> members)))
    ∧ (∃ k, team_members d' = team_members d ++ k
            ∧ ∀ tm, tm ∈ k ->
                    tm_team_id tm = teamID
                    ∧ tm_user_id tm ∈ (TeamMember_UserID <$> members))
    ∧ (∀ m, m ∈ members ->
            mk_team_members teamID (TeamMember_UserID m) ∈ team_members d').
Proof.
  revert d. induction members as [|m rest IH]; intros d Hnd.
  { exists d. cbn [CreateTeam_members]. split_and!; try done.
    - intros u. rewrite fmap_nil. split; [intros Hu; right|].
      + split; [done|]. apply not_elem_of_nil.
      + intros [(m & []%elem_of_nil & _)|[? _]]. done.
    - exists []. rewrite app_nil_r. split; [done|].
      by intros tm []%elem_of_nil.
    - by intros m []%elem_of_nil. }
  rewrite fmap_cons in Hnd. apply NoDup_cons in Hnd as [Hm Hnd].
  cbn [CreateTeam_members repo.CreateUser repo.SetUserActive repo.AddMember
       Repo_RepoInterface].
  pose proof (CreateTeam_member_effect d teamID (TeamMember_UserID m)
                (TeamMember_Username m) (TeamMember_IsActive m))
    as (Ht & Hs & Hu & (k1 & Hk1 & Hk1') & Hin1).
  assert ((CreateUser d (TeamMember_UserID m) (TeamMember_Username m)).2 = None)
    as Hc1 by (unfold CreateUser; by destruct (conflict _ _)).
  destruct (CreateUser d _ _) as [r1 o1]. cbn [fst snd] in *. subst o1.
  unfold Repo.SetUserActive at 1. 
  assert ((AddMember (Repo.SetUserActive r1 (TeamMember_UserID m)
                        (TeamMember_IsActive m)).1 teamID
                     (TeamMember_UserID m)).2 = None)
    as Hc3 by (unfold AddMember; by destruct (conflict _ _)).
  unfold Repo.SetUserActive in Hc3 at 1. cbn [fst] in Hc3.
  unfold Repo.SetUserActive in Ht, Hs, Hu, Hk1, Hin1. cbn [fst] in *.
  destruct (AddMember _ teamID (TeamMember_UserID m)) as [r3 o3].
  cbn [fst snd] in *. subst o3.
  destruct (IH r3 Hnd) as (d' & Hrun & Ht' & Hs' & Hu' & (k & Hk & Hk') & Hin').
  exists d'. split; [exact Hrun|]. split; [congruence|]. split; [congruence|].
  split_and!.
  - intros u. rewrite Hu', Hu, fmap_cons. split.
    + intros [(m' & Hm' & ->)|[[->|[Hud Hne]] Hnot]].
      * left. exists m'. split; [by right|done].
      * left. exists m. split; [left|done].
      * right. split; [done|]. intros [?|?]%elem_of_cons; done.
    + intros [(m' & [->|Hm']%elem_of_cons & ->)|[Hud Hnot]].
      * right. split; [by left|]. done.
      * left. eauto.
      * right. split; [|intros ?; apply Hnot; by right].
        right. split; [done|]. intros Heq. apply Hnot. rewrite Heq. left.
  - exists (k1 ++ k). split; [by rewrite Hk, Hk1, app_assoc|].
    intros tm [Htm|Htm]%elem_of_app; rewrite fmap_cons.
    + rewrite (Hk1' tm Htm). cbn. split; [done|left].
    + destruct (Hk' tm Htm). split; [done|by right].
  - intros m' [->|Hm']%elem_of_cons; [|by apply Hin'].
    rewrite Hk. apply elem_of_app. by left.
Qed.

(** [CreateTeam] on a name no team has: the team gets the next id of the
    sequence and the loop runs over the members. *)
Lemma CreateTeam_fresh (s : Service DB) teamName members :
  (∀ t, t ∈ teams (Repo s) -> teams_name t ≠ teamName) ->
  NoDup (TeamMember_UserID <$> members) ->
  ∃ d',
    CreateTeam s teamName members = (with_Repo s d', None)
    ∧ teams d' = teams (Repo s) ++ [mk_teams (teams_id_seq (Repo s)) teamName]
    ∧ prs d' = prs (Repo s) ∧ pr_reviewers d' = pr_reviewers (Repo s)
    ∧ assignment_events d' = assignment_events (Repo s)
    ∧ (∀ u, u ∈ users d'
            <-> (∃ m, m ∈ members
                      ∧ u = mk_users (TeamMember_UserID m)
                                     (TeamMember_Username m)
                                     (TeamMember_IsActive m))
                ∨ (u ∈ users (Repo s)
                   ∧ users_id u ∉ (TeamMember_UserID <$> members)))
    ∧ (∃ k, team_members d' = team_members (Repo s) ++ k
            ∧ ∀ tm, tm ∈ k ->
                    tm_team_id tm = teams_id_seq (Repo s)
                    ∧ tm_user_id tm ∈ (TeamMember_UserID <$> members))
    ∧ (∀ m, m ∈ members ->
            mk_team_members (teams_id_seq (Repo s)) (TeamMember_UserID m)
            ∈ team_members d').
Proof.
  intros Hfresh Hnd. unfold CreateTeam.
  cbn [repo.TeamExists repo.CreateTeam Repo_RepoInterface].
  unfold TeamExists. rewrite filter_none by done.
  rewrite bool_decide_eq_false_2 by (simpl; lia).
  unfold Repo.CreateTeam.
  rewrite (proj2 (conflict_false _ _)) by done.
  destruct (CreateTeam_members_effect
              (mkDB (users (Repo s))
                    (teams (Repo s)
                     ++ [mk_teams (teams_id_seq (Repo s)) teamName])
                    (team_members (Repo s)) (prs (Repo s))
                    (pr_reviewers (Repo s)) (assignment_events (Repo s))
                    (teams_id_seq (Repo s) + 1)%Z (random (Repo s)))
              (teams_id_seq (Repo s)) members Hnd)
    as (d' & Hrun & Ht & _ & Hu & Hk & Hin).
  pose proof (CreateTeam_members_grows
                (mkDB (users (Repo s))
                    (teams (Repo s)
                     ++ [mk_teams (teams_id_seq (Repo s)) teamName])
                    (team_members (Repo s)) (prs (Repo s))
                    (pr_reviewers (Repo s)) (assignment_events (Repo s))
                    (teams_id_seq (Repo s) + 1)%Z (random (Repo s)))
                (teams_id_seq (Repo s)) members) as (Hp & Hr & He & _).
  rewrite Hrun in Hp, Hr, He. cbn [fst] in Hp, Hr, He.
  exists d'. rewrite Hrun. split; [done|]. split_and!; done.
Qed.

(** The rows a lookup of a user's team selects. *)
Lemma GetUserTeam_rows_app d d' userID teamID name k :
  teams d' = teams d ++ [mk_teams teamID name] ->
  team_members d' = team_members d ++ k ->
  (∀ tm, tm ∈ k -> tm_team_id tm = teamID) ->
  (∀ t, t ∈ teams d -> teams_id t ≠ teamID) ->
  (∀ tm, tm ∈ team_members d -> tm_team_id tm ≠ teamID) ->
  ∃ new,
    (t ← teams d'; tm ← team_members d';
     if bool_decide (teams_id t = tm_team_id tm ∧ tm_user_id tm = userID)
     then [teams_name t] else [])
    = (t ← teams d; tm ← team_members d;
       if bool_decide (teams_id t = tm_team_id tm ∧ tm_user_id tm = userID)
       then [teams_name t] else []) ++ new
    ∧ (∀ x, x ∈ new -> x = name)
    ∧ (new ≠ [] <-> userID ∈ (tm_user_id <$> k)).
Proof.
  intros -> -> Hk Hold Hmem. eexists. rewrite bind_app. split.
  - f_equal. induction (teams d) as [|t ts IH]; [done|].
    rewrite !bind_cons, IH by (intros ? ?; apply Hold; by right).
    f_equal. rewrite bind_app.
    assert ((k ≫= fun tm =>
               if bool_decide (teams_id t = tm_team_id tm
                               ∧ tm_user_id tm = userID)
               then [teams_name t] else []) = []) as ->;
      [|by rewrite app_nil_r].
    apply elem_of_nil_inv. intros x (tm & Hx & Htm)%list_elem_of_bind.
    case_bool_decide as Hc; [|by apply elem_of_nil in Hx].
    destruct Hc as [Hc _]. rewrite (Hk tm Htm) in Hc.
    by apply (Hold t); [left|].
  - rewrite bind_cons. change (@nil teams_row ≫= _) with (@nil string).
    rewrite app_nil_r. cbn [teams_id teams_name]. split.
    + intros x (tm & Hx & Htm)%list_elem_of_bind.
      case_bool_decide; [|by apply elem_of_nil in Hx].
      by apply list_elem_of_singleton in Hx.
    + split.
      * intros Hne. destruct (_ ≫= _) as [|x l] eqn:Hb in Hne; [done|].
        assert (x ∈ x :: l) as Hx by left. rewrite <- Hb in Hx.
        apply list_elem_of_bind in Hx as (tm & Hx & Htm).
        case_bool_decide as Hc; [|by apply elem_of_nil in Hx].
        destruct Hc as [Hc1 Hc2].
        apply elem_of_app in Htm as [Htm|Htm];
          [by destruct (Hmem tm Htm)|].
        apply list_elem_of_fmap. eauto.
      * intros (tm & -> & Htm)%list_elem_of_fmap Hnil.
        assert (name ∈ ((team_members d ++ k) ≫= fun tm0 =>
                  if bool_decide (teamID = tm_team_id tm0
                                  ∧ tm_user_id tm0 = tm_user_id tm)
                  then [name] else [])) as Hin.
        { apply list_elem_of_bind. exists tm. split.
          - rewrite bool_decide_eq_true_2 by by rewrite (Hk tm Htm).
            left.
          - apply elem_of_app. by right. }
        rewrite Hnil in Hin. by apply elem_of_nil in Hin.
Qed.

(** With the keys in place no membership row names the next team id. *)
Lemma next_team_id_unused d :
  keys d ->
  (∀ t, t ∈ teams d -> teams_id t ≠ teams_id_seq d)
  ∧ (∀ tm, tm ∈ team_members d -> tm_team_id tm ≠ teams_id_seq d).
Proof.
  intros Hk. split.
  - intros t Ht. pose proof (key_team_seq _ Hk t Ht). lia.
  - intros tm Htm.
    destruct (proj1 (list_elem_of_fmap _ _ _) (ref_member_team _ Hk tm Htm))
      as (t & -> & Ht).
    pose proof (key_team_seq _ Hk t Ht). lia.
Qed.

(** The keys of the fixture [team_store] hold: it is what [CreateTeam]
    leaves of the empty database. *)
Lemma team_store_keys : keys (Repo team_store).
Proof. unfold team_store. apply CreateTeam_keeps_keys, keys_empty. Qed.

(** [CreateTeam] on a name that is taken. *)
Lemma CreateTeam_taken (s : Service DB) (teamName : string)
    (members : list TeamMember) :
  (∃ t, t ∈ teams (Repo s) ∧ teams_name t = teamName) ->
  CreateTeam s teamName members = (s, Some ErrTeamExists).
Proof.
  intros (t & Ht & Hname). unfold CreateTeam.
  cbn [repo.TeamExists Repo_RepoInterface]. unfold TeamExists.
  assert (t ∈ filter (fun t => teams_name t = teamName) (teams (Repo s)))
    as Hin by by apply list_elem_of_filter.
  destruct (filter _ (teams (Repo s))); [by apply elem_of_nil in Hin|].
  by rewrite bool_decide_eq_true_2 by (simpl; lia).
Qed.

(** [CreateTeam] on a fresh name, and what [GetTeam] lists afterwards. *)
Lemma CreateTeam_listed (s : Service DB) (teamName : string)
    (members : list TeamMember) :
  keys (Repo s) ->
  (∀ t, t ∈ teams (Repo s) -> teams_name t ≠ teamName) ->
  NoDup (TeamMember_UserID <$> members) ->
  ∃ s' listed,
    CreateTeam s teamName members = (s', None)
    ∧ teams (Repo s')
      = teams (Repo s) ++ [mk_teams (teams_id_seq (Repo s)) teamName]
    ∧ GetTeam s' teamName
      = Ok (mkTeam (teams_id_seq (Repo s)) teamName, listed)
    ∧ listed ≡ₚ (fun m => mkUser (TeamMember_UserID m)
                                  (TeamMember_Username m)
                                  (TeamMember_IsActive m) "") <$> members
    ∧ (∀ u, u ∈ users (Repo s) ->
            users_id u ∉ (TeamMember_UserID <$> members) ->
            u ∈ users (Repo s'))
    ∧ prs (Repo s') = prs (Repo s)
    ∧ pr_reviewers (Repo s') = pr_reviewers (Repo s)
    ∧ assignment_events (Repo s') = assignment_events (Repo s).
Proof.
  intros Hk Hfresh Hnd.
  destruct (CreateTeam_fresh s teamName members Hfresh Hnd)
    as (d' & Hrun & Ht & Hp & Hr & He & Hu & (k & Hm & Hk') & Hin).
  pose proof (CreateTeam_keeps_keys s teamName members Hk) as Hk2.
  rewrite Hrun in Hk2. cbn [fst Repo with_Repo] in Hk2.
  destruct (next_team_id_unused _ Hk) as [_ Hunused].
  assert (∀ uid, member_of d' teamName uid
                 <-> uid ∈ (TeamMember_UserID <$> members)) as Hmem.
  { intros uid. unfold member_of. rewrite Ht, Hm. split.
    - intros (t & tm & [Hold| ->%list_elem_of_singleton]%elem_of_app
                & Htm & -> & Hid & Hname); [by destruct (Hfresh t Hold)|].
      cbn [teams_id] in Hid.
      apply elem_of_app in Htm as [Htm|Htm].
      + by destruct (Hunused tm Htm).
      + by apply Hk'.
    - intros (m & -> & Hmin)%list_elem_of_fmap.
      exists (mk_teams (teams_id_seq (Repo s)) teamName),
             (mk_team_members (teams_id_seq (Repo s)) (TeamMember_UserID m)).
      split_and!; try done.
      + apply elem_of_app. right. left.
      + rewrite <- Hm. by apply Hin. }
  exists (with_Repo s d'), (scan_User <$> team_users d' teamName (fun _ => true)).
  split; [exact Hrun|]. cbn [Repo with_Repo]. split_and!; try done.
  - unfold GetTeam.
    cbn [repo.GetTeamByName repo.GetTeamMembers Repo_RepoInterface Repo
         with_Repo].
    unfold GetTeamByName, GetTeamMembers. rewrite Ht, filter_app.
    rewrite filter_none by (intros t Hold; by apply Hfresh).
    rewrite filter_cons_True by done. done.
  - apply NoDup_Permutation.
    + apply (NoDup_fmap_2_strong scan_User); [|by apply team_users_NoDup].
      intros [] [] _ _ [=]. by subst.
    + apply (NoDup_fmap_1 User_ID). rewrite <- list_fmap_compose.
      exact Hnd.
    + intros x. rewrite !list_elem_of_fmap. split.
      * intros (u & -> & (Hud & _ & Hmu)%elem_of_team_users).
        apply Hmem in Hmu. apply Hu in Hud as [(m & Hmin & ->)|[_ Hnot]];
          [|done].
        exists m. done.
      * intros (m & -> & Hmin).
        exists (mk_users (TeamMember_UserID m) (TeamMember_Username m)
                         (TeamMember_IsActive m)).
        split; [done|]. apply elem_of_team_users. split_and!; [|done|].
        -- apply Hu. left. eauto.
        -- apply Hmem. apply list_elem_of_fmap. eauto.
  - intros u Hud Hnot. apply Hu. by right.
Qed.

(** X15: CreateTeam and GetTeam.  A name that is taken gives
    [ErrTeamExists] and changes nothing.  On a store whose keys hold, a
    fresh name and members with distinct ids give a team whose id is the
    next of the sequence; GetTeam then returns that team and, as members,
    exactly the users of the request with the names and flags of the request
    (also for users who existed before under another name or flag); creating
    the team again fails; users outside the request keep their rows, and
    PRs, reviewer bindings and assignment events are untouched. *)
Theorem CreateTeam_GetTeam (s : Service DB) (teamName : string)
    (members : list TeamMember) :
  ((∃ t, t ∈ teams (Repo s) ∧ teams_name t = teamName) ->
   CreateTeam s teamName members = (s, Some ErrTeamExists))
  ∧ (keys (Repo s) ->
     (∀ t, t ∈ teams (Repo s) -> teams_name t ≠ teamName) ->
     NoDup (TeamMember_UserID <$> members) ->
     ∃ s' listed,
       CreateTeam s teamName members = (s', None)
       ∧ GetTeam s' teamName
         = Ok (mkTeam (teams_id_seq (Repo s)) teamName, listed)
       ∧ listed ≡ₚ (fun m => mkUser (TeamMember_UserID m)
                                     (TeamMember_Username m)
                                     (TeamMember_IsActive m) "") <$> members
       ∧ (∀ members', CreateTeam s' teamName members'
                      = (s', Some ErrTeamExists))
       ∧ (∀ u, u ∈ users (Repo s) ->
               users_id u ∉ (TeamMember_UserID <$> members) ->
               u ∈ users (Repo s'))
       ∧ prs (Repo s') = prs (Repo s)
       ∧ pr_reviewers (Repo s') = pr_reviewers (Repo s)
       ∧ assignment_events (Repo s') = assignment_events (Repo s)).
Proof.
  split; [apply CreateTeam_taken|]. intros Hk Hfresh Hnd.
  destruct (CreateTeam_listed s teamName members Hk Hfresh Hnd)
    as (s' & listed & Hrun & Ht & Hget & Hperm & Hkept & Hp & Hr & He).
  exists s', listed. split_and!; try done.
  intros members'. apply CreateTeam_taken.
  exists (mk_teams (teams_id_seq (Repo s)) teamName). split; [|done].
  rewrite Ht. apply elem_of_app. right. left.
Qed.

Lemma CreateTeam_GetTeam_witness :
  CreateTeam team_store "dev-team" [] = (team_store, Some ErrTeamExists)
  ∧ ∃ s' listed,
      CreateTeam team_store "ops"
                 [mkTeamMember "reviewer1" "Renamed" false;
                  mkTeamMember "op1" "Operator" true] = (s', None)
      ∧ GetTeam s' "ops" = Ok (mkTeam 2 "ops", listed)
      ∧ listed ≡ₚ [mkUser "reviewer1" "Renamed" false "";
                   mkUser "op1" "Operator" true ""].
Proof.
  destruct (CreateTeam_GetTeam team_store "dev-team" []) as [Htaken _].
  split.
  { apply Htaken. exists (mk_teams 1 "dev-team"). split; [vm_compute; left|done]. }
  destruct (CreateTeam_GetTeam team_store "ops"
              [mkTeamMember "reviewer1" "Renamed" false;
               mkTeamMember "op1" "Operator" true]) as [_ Hfresh].
  destruct Hfresh as (s' & listed & Hrun & Hget & Hperm & _).
  - exact team_store_keys.
  - vm_compute. intros t Ht.
    repeat (apply elem_of_cons in Ht as [->|Ht]; [discriminate|]).
    by apply elem_of_nil in Ht.
  - by_decide.
  - exists s', listed. split; [exact Hrun|]. split; [exact Hget|exact Hperm].
Defined.

(** The loop of [CreateTeam] never fails, and these are the teams and the
    membership rows it leaves, whatever the members. *)
Lemma CreateTeam_members_rows d teamID members :
  ∃ d' k,
    CreateTeam_members d teamID members = (d', None)
    ∧ teams d' = teams d
    ∧ team_members d' = team_members d ++ k
    ∧ (∀ tm, tm ∈ k -> tm_team_id tm = teamID)
    ∧ (∀ userID, userID ∈ (tm_user_id <$> k) ->
                 userID ∈ (TeamMember_UserID <$> members))
    ∧ (∀ m, m ∈ members ->
            mk_team_members teamID (TeamMember_UserID m) ∈ team_members d').
Proof.
  revert d. induction members as [|m rest IH]; intros d.
  { exists d, []. cbn [CreateTeam_members]. rewrite app_nil_r.
    split_and!; try done.
    - by intros tm []%elem_of_nil.
    - by intros m []%elem_of_nil. }
  cbn [CreateTeam_members repo.CreateUser repo.SetUserActive repo.AddMember
       Repo_RepoInterface].
  pose proof (CreateTeam_member_effect d teamID (TeamMember_UserID m)
                (TeamMember_Username m) (TeamMember_IsActive m))
    as (Ht & _ & _ & (k1 & Hk1 & Hk1') & Hin1).
  assert ((CreateUser d (TeamMember_UserID m) (TeamMember_Username m)).2 = None)
    as Hc1 by (unfold CreateUser; by destruct (conflict _ _)).
  destruct (CreateUser d _ _) as [r1 o1]. cbn [fst snd] in *. subst o1.
  unfold Repo.SetUserActive at 1.
  assert ((AddMember (Repo.SetUserActive r1 (TeamMember_UserID m)
                        (TeamMember_IsActive m)).1 teamID
                     (TeamMember_UserID m)).2 = None)
    as Hc3 by (unfold AddMember; by destruct (conflict _ _)).
  unfold Repo.SetUserActive in Hc3 at 1. cbn [fst] in Hc3.
  unfold Repo.SetUserActive in Ht, Hk1, Hin1. cbn [fst] in *.
  destruct (AddMember _ teamID (TeamMember_UserID m)) as [r3 o3].
  cbn [fst snd] in *. subst o3.
  destruct (IH r3) as (d' & k & Hrun & Ht' & Hk & Hk' & Hids & Hin').
  exists d', (k1 ++ k). split; [exact Hrun|]. split; [congruence|].
  split_and!.
  - by rewrite Hk, Hk1, app_assoc.
  - intros tm [Htm|Htm]%elem_of_app; [|by apply Hk'].
    by rewrite (Hk1' tm Htm).
  - intros userID. rewrite fmap_app, fmap_cons, elem_of_app.
    intros [(tm & -> & Htm)%list_elem_of_fmap|Hin].
    + rewrite (Hk1' tm Htm). left.
    + right. by apply Hids.
  - intros m' [->|Hm']%elem_of_cons; [|by apply Hin'].
    rewrite Hk. apply elem_of_app. by left.
Qed.

(** In the row order of the model the lookup of a user's team reads the
    rows of the older teams first. *)
Lemma GetUserTeam_after_CreateTeam (s s' : Service DB) (teamName : string)
    (members : list TeamMember) (userID : string) :
  keys (Repo s) ->
  CreateTeam s teamName members = (s', None) ->
  repo.GetUserTeam (Repo s') userID
  = match repo.GetUserTeam (Repo s) userID with
    | Ok team => Ok team
    | Err e =>
        if decide (userID ∈ (TeamMember_UserID <$> members))
        then Ok teamName else Err e
    end.
Proof.
  intros Hk. unfold CreateTeam.
  cbn [repo.TeamExists repo.CreateTeam repo.GetUserTeam Repo_RepoInterface].
  unfold TeamExists. case_bool_decide as Hcount; [done|].
  assert (∀ t, t ∈ teams (Repo s) -> teams_name t ≠ teamName) as Hfresh.
  { intros t Ht Hname. apply Hcount.
    assert (t ∈ filter (fun t => teams_name t = teamName) (teams (Repo s)))
      as Hin by by apply list_elem_of_filter.
    destruct (filter _ (teams (Repo s))); [by apply elem_of_nil in Hin|].
    simpl. lia. }
  unfold Repo.CreateTeam. rewrite (proj2 (conflict_false _ _)) by done.
  destruct (CreateTeam_members_rows
              (mkDB (users (Repo s))
                    (teams (Repo s)
                     ++ [mk_teams (teams_id_seq (Repo s)) teamName])
                    (team_members (Repo s)) (prs (Repo s))
                    (pr_reviewers (Repo s)) (assignment_events (Repo s))
                    (teams_id_seq (Repo s) + 1)%Z (random (Repo s)))
              (teams_id_seq (Repo s)) members)
    as (d' & k & Hrun & Ht & Hm & Hk' & Hids & Hin).
  rewrite Hrun. intros [= <-]. cbn [Repo with_Repo].
  cbn [teams team_members] in Ht, Hm.
  destruct (next_team_id_unused _ Hk) as [Hold Hunused].
  destruct (GetUserTeam_rows_app (Repo s) d' userID (teams_id_seq (Repo s))
              teamName k Ht Hm Hk' Hold Hunused)
    as (new & Hrows & Hnew & Hne).
  unfold GetUserTeam. rewrite Hrows.
  destruct (teams (Repo s) ≫= _) as [|team rows]; [|done].
  rewrite app_nil_l.
  cbn [GetContext]. case_decide as Hlisted.
  - destruct new as [|x new'] eqn:Hn.
    + exfalso. apply (proj2 Hne); [|done].
      apply list_elem_of_fmap in Hlisted as (m & -> & Hmin).
      specialize (Hin m Hmin). rewrite Hm in Hin.
      apply elem_of_app in Hin as [Hin|Hin]; [by destruct (Hunused _ Hin)|].
      apply list_elem_of_fmap.
      by exists (mk_team_members (teams_id_seq (Repo s))
                                 (TeamMember_UserID m)).
    + cbn [GetContext]. f_equal. apply Hnew. left.
  - destruct new as [|x new'] eqn:Hn; [done|].
    destruct Hlisted. apply Hids, Hne. done.
Qed.


(** A team the store resolves for a user is one the user has a membership
    row in. *)
Lemma GetUserTeam_member d userID team :
  GetUserTeam d userID = Ok team -> member_of d team userID.
Proof.
  unfold GetUserTeam. intros Hget.
  destruct (teams d ≫= _) as [|x rows] eqn:Hrows; [done|].
  injection Hget as ->.
  assert (team ∈ team :: rows) as Hin by left. rewrite <- Hrows in Hin.
  apply list_elem_of_bind in Hin as (t & Hin & Ht).
  apply list_elem_of_bind in Hin as (tm & Hin & Htm).
  case_bool_decide as Hc; [|by apply elem_of_nil in Hin].
  apply list_elem_of_singleton in Hin as ->. destruct Hc as [Hid Hu].
  by exists t, tm.
Qed.

(** X16: which team a user resolves to after CreateTeam.  On a store whose
    keys hold, after a successful CreateTeam a user who had no team resolves
    to the new team when the request lists the user, and to none otherwise;
    a user who had a team still resolves to a team, one the user was a
    member of before or the new one.  (The team of the author is the one
    whose members CreatePR draws the reviewers from.) *)
Theorem CreateTeam_team_of_user (s s' : Service DB) (teamName : string)
    (members : list TeamMember) (userID : string) :
  keys (Repo s) ->
  CreateTeam s teamName members = (s', None) ->
  match repo.GetUserTeam (Repo s) userID with
  | Ok _ =>
      ∃ team, repo.GetUserTeam (Repo s') userID = Ok team
              ∧ (member_of (Repo s) team userID
                 ∨ (team = teamName
                    ∧ userID ∈ (TeamMember_UserID <$> members)))
  | Err e =>
      repo.GetUserTeam (Repo s') userID
      = if decide (userID ∈ (TeamMember_UserID <$> members))
        then Ok teamName else Err e
  end.
Proof.
  intros Hk Hrun.
  rewrite (GetUserTeam_after_CreateTeam s s' teamName members userID Hk Hrun).
  cbn [repo.GetUserTeam Repo_RepoInterface].
  destruct (GetUserTeam (Repo s) userID) as [team|e] eqn:Hget; [|done].
  exists team. split; [done|]. left. by apply GetUserTeam_member.
Qed.

Lemma CreateTeam_team_of_user_witness :
  ∃ s', CreateTeam team_store "ops"
                   [mkTeamMember "reviewer1" "Renamed" false;
                    mkTeamMember "op1" "Operator" true] = (s', None)
        ∧ repo.GetUserTeam (Repo s') "op1" = Ok "ops".
Proof.
  assert (∃ s', CreateTeam team_store "ops"
                   [mkTeamMember "reviewer1" "Renamed" false;
                    mkTeamMember "op1" "Operator" true] = (s', None))
    as (s' & Hrun).
  { eexists. vm_compute. reflexivity. }
  exists s'. split; [exact Hrun|].
  exact (CreateTeam_team_of_user _ _ _ _ "op1" team_store_keys Hrun).
Defined.

End teams.

(** ** The review list of a user *)

Section reviews.
Import repo repo.Repo service fixtures Repo_spec Repo_history.
Import Repo_facts Repo_joins Repo_invariant Repo_bindings Repo_engine
       Repo_history_facts Repo_effects Repo_keys stats_facts.

#[local] Arguments GetUserTeam : simpl never.
#[local] Arguments pr_users : simpl never.

Lemma elem_of_GetPRsByReviewer d userID l pr :
  GetPRsByReviewer d userID = Ok l ->
  pr ∈ l <-> ∃ p, p ∈ prs d ∧ pr = scan_PR p
                  ∧ mk_pr_reviewers (prs_id p) userID ∈ pr_reviewers d.
Proof.
  unfold GetPRsByReviewer. intros [= <-]. rewrite list_elem_of_bind. split.
  - intros (p & (r & Hin & Hr)%list_elem_of_bind & Hp).
    case_bool_decide as Hc; [|by apply elem_of_nil in Hin].
    apply list_elem_of_singleton in Hin as ->. destruct Hc as [Hid Hu].
    exists p. split_and!; try done.
    destruct r as [pid uid]. simpl in *. by subst.
  - intros (p & Hp & -> & Hr). exists p. split; [|done].
    apply list_elem_of_bind. eexists. split; [|exact Hr].
    rewrite bool_decide_eq_true_2 by done. left.
Qed.

(** The review list of a known user. *)
Lemma GetUserReviews_known (s : Service DB) (userID : string) :
  (∃ u, u ∈ users (Repo s) ∧ users_id u = userID) ->
  ∃ l, GetUserReviews s userID = Ok l
       ∧ (∀ pr, pr ∈ l <->
                ∃ p, p ∈ prs (Repo s)
                     ∧ mk_pr_reviewers (prs_id p) userID
                       ∈ pr_reviewers (Repo s)
                     ∧ pr = mkPR (prs_id p) (prs_title p) (prs_author_id p)
                                 (prs_status p) []).
Proof.
  intros (u & Hu & Hid). unfold GetUserReviews.
  cbn [repo.GetUserByID repo.GetPRsByReviewer Repo_RepoInterface].
  destruct (GetUserByID_Ok _ _ _ Hu Hid) as (u' & -> & _).
  destruct (GetPRsByReviewer (Repo s) userID) as [l|] eqn:Hget; [|done].
  exists l. split; [done|]. intros pr.
  rewrite (elem_of_GetPRsByReviewer _ _ _ _ Hget). naive_solver.
Qed.

(** X17: GetUserReviews fails with [ErrNotFound] for an id that is not in
    [users]; for a known user it returns the PRs, open or merged, that have
    a reviewer binding for the user, each with its id, title, author and
    status and with an empty reviewer list. *)
Theorem GetUserReviews_spec (s : Service DB) (userID : string) :
  ((∀ u, u ∈ users (Repo s) -> users_id u ≠ userID) ->
   GetUserReviews s userID = Err ErrNotFound)
  ∧ ((∃ u, u ∈ users (Repo s) ∧ users_id u = userID) ->
     ∃ l, GetUserReviews s userID = Ok l
          ∧ (∀ pr, pr ∈ l <->
                   ∃ p, p ∈ prs (Repo s)
                        ∧ mk_pr_reviewers (prs_id p) userID
                          ∈ pr_reviewers (Repo s)
                        ∧ pr = mkPR (prs_id p) (prs_title p) (prs_author_id p)
                                    (prs_status p) [])).
Proof.
  split; [|apply GetUserReviews_known].
  intros Hno. unfold GetUserReviews.
  cbn [repo.GetUserByID Repo_RepoInterface]. by rewrite GetUserByID_Err.
Qed.

Lemma GetUserReviews_spec_witness :
  GetUserReviews dev_store "nobody" = Err ErrNotFound
  ∧ ∃ l, GetUserReviews merged_store "reviewer1" = Ok l
         ∧ mkPR "pr-1" "Test PR" "author1" "MERGED" [] ∈ l.
Proof.
  split.
  - apply (proj1 (GetUserReviews_spec dev_store "nobody")).
    vm_compute. intros u Hu.
    repeat (apply elem_of_cons in Hu as [->|Hu]; [discriminate|]).
    by apply elem_of_nil in Hu.
  - destruct (proj2 (GetUserReviews_spec merged_store "reviewer1"))
      as (l & Hget & Hl).
    + exists (mk_users "reviewer1" "Reviewer1" true).
      split; [by_decide|done].
    + exists l. split; [exact Hget|]. apply Hl.
      exists (mk_prs "pr-1" "Test PR" "author1" "MERGED").
      split; [by_decide|]. split; [by_decide|done].
Defined.

(** X18: the review lists follow the assignments.  After CreatePR has
    succeeded, the review list of every reviewer it returned holds the new
    PR, as OPEN; after ReassignReviewer has succeeded, the review list of
    the replacement holds the PR and the review list of the replaced
    reviewer no longer does. *)
Theorem reviews_follow_assignment (s s' : Service DB) (prID : string) :
  (∀ prName authorID pr,
     CreatePR s prID prName authorID = (s', Ok pr) ->
     ∀ r, r ∈ PR_Reviewers pr ->
          ∃ l, GetUserReviews s' (User_ID r) = Ok l
               ∧ mkPR prID prName authorID "OPEN" [] ∈ l)
  ∧ (∀ old pr new,
       ReassignReviewer s prID old = (s', Ok (pr, new)) ->
       (∃ l, GetUserReviews s' new = Ok l
             ∧ mkPR prID (PR_Title pr) (PR_AuthorID pr) (PR_Status pr) [] ∈ l)
       ∧ (∀ l q, GetUserReviews s' old = Ok l -> q ∈ l -> PR_ID q ≠ prID)).
Proof.
  split.
  - intros prName authorID pr Hrun r Hr.
    apply CreatePR_Ok_inv in Hrun
      as (teamName & reviewers & _ & _ & _ & -> & _ & Hsub & Hrepo).
    cbn [PR_Reviewers] in Hr.
    pose proof (CreatePR_bind_exact
                  (with_prs (fun ps => ps ++ [mk_prs prID prName authorID "OPEN"])
                            (Repo s)) prID reviewers) as Hbind.
    cbv zeta in Hbind. rewrite <- Hrepo in Hbind.
    destruct Hbind as (Hu & _ & _ & Hp & _ & _ & _ & news & Hrv & Hnews).
    cbn [users prs pr_reviewers with_prs] in Hu, Hp, Hrv.
    assert (∃ u, u ∈ users (Repo s') ∧ users_id u = User_ID r)
      as Hknown.
    { apply Hsub in Hr. apply list_elem_of_fmap in Hr as (u & -> & Hin).
      apply elem_of_team_users in Hin as (Hin & _). exists u.
      rewrite Hu. done. }
    destruct (GetUserReviews_known s' (User_ID r) Hknown)
      as (l & Hget & Hl).
    exists l. split; [exact Hget|]. apply Hl.
    exists (mk_prs prID prName authorID "OPEN"). split_and!; [| |done].
    + rewrite Hp. apply elem_of_app. right. left.
    + cbn [prs_id]. rewrite Hrv.
      destruct (decide (mk_pr_reviewers prID (User_ID r)
                        ∈ pr_reviewers (Repo s))) as [Hin|Hnin];
        apply elem_of_app; [by left|right].
      apply Hnews. split_and!; try done.
      apply list_elem_of_fmap. eauto.
  - intros old pr new Hrun.
    apply ReassignReviewer_Ok_inv in Hrun
      as (p & teamName & u & src & Hhead & _ & _ & _ & Hu & -> & Hrepo & _ & ->).
    apply elem_of_team_users in Hu as (Hu & Hact & _).
    apply active_except_true in Hact as [_ Hne].
    assert (users (Repo s') = users (Repo s) ∧ prs (Repo s') = prs (Repo s)
            ∧ ∀ r, r ∈ pr_reviewers (Repo s')
                   <-> (r ∈ pr_reviewers (Repo s)
                        ∧ r ≠ mk_pr_reviewers prID old)
                       ∨ r = mk_pr_reviewers prID (users_id u))
      as (Hus & Hps & Hrs).
    { rewrite Hrepo.
      change (users (AddAssignmentEvent ?d _ _).1) with (users d).
      change (prs (AddAssignmentEvent ?d _ _).1) with (prs d).
      change (pr_reviewers (AddAssignmentEvent ?d _ _).1)
        with (pr_reviewers d).
      destruct (AddReviewer_frame
                  (RemoveReviewer (with_random src (Repo s)) prID old).1
                  prID (users_id u)) as (-> & _ & _ & -> & _).
      split; [done|]. split; [done|]. intros r.
      rewrite elem_of_AddReviewer, elem_of_RemoveReviewer. done. }
    assert (p ∈ prs (Repo s) ∧ prs_id p = prID) as [Hp Hpid].
    { unfold pr_rows in Hhead.
      destruct (filter _ (prs (Repo s))) as [|p0 rest] eqn:Hf; [done|].
      injection Hhead as ->.
      assert (p ∈ filter (fun p => prs_id p = prID) (prs (Repo s))) as Hin
        by (rewrite Hf; left).
      by apply list_elem_of_filter in Hin as [? ?]. }
    cbn [PR_Title PR_AuthorID PR_Status]. split.
    + destruct (GetUserReviews_known s' (users_id u))
        as (l & Hget & Hl).
      { exists u. by rewrite Hus. }
      exists l. split; [exact Hget|]. apply Hl. exists p.
      rewrite Hps, Hpid. split_and!; try done. apply Hrs. by right.
    + intros l q Hget Hq Hid. unfold GetUserReviews in Hget.
      cbn [repo.GetUserByID repo.GetPRsByReviewer Repo_RepoInterface] in Hget.
      destruct (GetUserByID (Repo s') old); [|done].
      destruct (GetPRsByReviewer (Repo s') old) as [l'|] eqn:Hget'; [|done].
      injection Hget as ->.
      apply (elem_of_GetPRsByReviewer _ _ _ _ Hget') in Hq
        as (p' & _ & -> & Hr).
      cbn [PR_ID scan_PR] in Hid. rewrite Hid in Hr.
      apply Hrs in Hr as [[_ Hr]|[=]]; [done|]. by apply Hne.
Qed.

Lemma reviews_follow_assignment_witness :
  ∃ l, GetUserReviews dev_store "reviewer1" = Ok l
       ∧ mkPR "pr-1" "Test PR" "author1" "OPEN" [] ∈ l.
Proof.
  assert (∃ pr, CreatePR team_store "pr-1" "Test PR" "author1"
                = (dev_store, Ok pr)
                ∧ mkUser "reviewer1" "Reviewer1" true "" ∈ PR_Reviewers pr)
    as (pr & Hrun & Hr).
  { eexists. split; [vm_compute; reflexivity|].
    vm_compute. first [left | right; left]. }
  exact (proj1 (reviews_follow_assignment team_store dev_store "pr-1")
           "Test PR" "author1" pr Hrun _ Hr).
Defined.

(** X19: GetOpenPRsWithReviewersByUserIDs never fails; it returns, once
    each, the PRs whose status is OPEN and that have a reviewer binding for
    one of the given users, with an empty reviewer list; for no users it
    returns nothing. *)
Theorem GetOpenPRsWithReviewersByUserIDs_spec (d : DB) (userIDs : list string) :
  ∃ l, repo.GetOpenPRsWithReviewersByUserIDs d userIDs = Ok l
       ∧ NoDup l
       ∧ (userIDs = [] -> l = [])
       ∧ ∀ pr, pr ∈ l <->
               ∃ p userID,
                 p ∈ prs d ∧ prs_status p = "OPEN" ∧ userID ∈ userIDs
                 ∧ mk_pr_reviewers (prs_id p) userID ∈ pr_reviewers d
                 ∧ pr = mkPR (prs_id p) (prs_title p) (prs_author_id p)
                             "OPEN" [].
Proof.
  cbn [repo.GetOpenPRsWithReviewersByUserIDs Repo_RepoInterface].
  unfold GetOpenPRsWithReviewersByUserIDs.
  destruct userIDs as [|userID0 rest].
  { exists []. split_and!; try done; [constructor|].
    intros pr. split; [by intros []%elem_of_nil|].
    by intros (p & userID & _ & _ & []%elem_of_nil & _). }
  eexists. split; [reflexivity|]. split_and!; [|done|].
  - apply (NoDup_fmap_2_strong scan_PR); [|apply NoDup_remove_dups].
    intros [] [] _ _ [=]. by subst.
  - intros pr. rewrite list_elem_of_fmap. split.
    + intros (p0 & -> & Hp). rewrite elem_of_remove_dups in Hp.
      apply list_elem_of_bind in Hp as (p & Hp & Hp').
      apply list_elem_of_bind in Hp as (r & Hp & Hr).
      case_bool_decide as Hc; [|by apply elem_of_nil in Hp].
      apply list_elem_of_singleton in Hp as ->.
      destruct Hc as (Hid & Hst & Hu). exists p, (rv_user_id r).
      split_and!; try done.
      * destruct r as [pid uid]. simpl in *. by subst.
      * unfold scan_PR. by rewrite Hst.
    + intros (p & userID & Hp & Hst & Hu & Hr & ->). exists p. split.
      * unfold scan_PR. by rewrite Hst.
      * rewrite elem_of_remove_dups. apply list_elem_of_bind. exists p.
        split; [|done]. apply list_elem_of_bind. eexists. split; [|exact Hr].
        rewrite bool_decide_eq_true_2 by done. left.
Qed.

End reviews.

(** ** The HTTP endpoints over the PostgreSQL repository *)

Module handlers_facts.
Import repo repo.Repo service handlers Repo_spec Repo_history.
Import Repo_facts Repo_joins Repo_engine Repo_effects.

(** *** What the writers leave on a fresh response *)



Lemma Encode_created v :
  Encode v (WriteHeader StatusCreated
              (Header_Set "Content-Type" "application/json" NewRecorder))
  = mkResponseWriter
      (<["Content-Type" := "application/json"]> ∅) (Some StatusCreated) [v].
Proof. done. Qed.

(** *** A failed call of the service hands the service back *)










End handlers_facts.

Section endpoints.
Import repo repo.Repo service handlers fixtures Repo_spec Repo_history.
Import Repo_facts Repo_joins Repo_engine Repo_effects Repo_keys
       handlers_facts.


(** X21: the merge route is idempotent: sending the same merge request
    again gives the same response as the first time, and leaves the handler
    with the service and the store the first request left. *)
Theorem merge_route_idempotent (h : Handler DB) (now1 now2 : string)
    (body : option MergePR_req) :
  serve (serve h now1 (POST_pullRequest_merge body)).1 now2
        (POST_pullRequest_merge body)
  = serve h now1 (POST_pullRequest_merge body).
Proof.
  destruct h as [s]. unfold serve, RegisterRoutes, MergePR.
  destruct body as [[prID]|]; [|done]. cbn [svc MergePR_PullRequestID].
  destruct (head (pr_rows (Repo s) prID)) as [p|] eqn:Hp.
  - destruct (decide (prs_status p = "MERGED")) as [Hst|Hst].
    + rewrite (MergePR_merged s prID p Hp Hst). cbn [fst svc].
      by rewrite (MergePR_merged s prID p Hp Hst).
    + rewrite (MergePR_open s prID p Hp Hst). cbn [fst svc].
      set (s1 := with_Repo s _).
      assert (head (pr_rows (Repo s1) prID) = Some (set_status "MERGED" p))
        as Hp1.
      { unfold s1. cbn [Repo with_Repo]. rewrite pr_rows_SetPRStatus.
        destruct (pr_rows (Repo s) prID); by simplify_eq/=. }
      by rewrite (MergePR_merged s1 prID _ Hp1 eq_refl).
  - assert (pr_rows (Repo s) prID = []) as Hnil
      by by destruct (pr_rows (Repo s) prID).
    rewrite (MergePR_absent s prID Hnil). cbn [fst svc].
    by rewrite (MergePR_absent s prID Hnil).
Qed.

(** X22: the responses of the create route to a decoded request, by the
    state of the store.  An id that is taken gives 409 PR_EXISTS; else an
    unknown author gives 404 NOT_FOUND; else an author without a team gives
    500 INTERNAL_ERROR with the text of the error "author has no team" (not
    the 404 whose message names the team); else the PR is created and the
    response is 201 with the fields of the request, status OPEN, and the
    ids of at most two reviewers, none of them the author. *)
Theorem create_route_responses (h : Handler DB) (now : string)
    (prID prName authorID : string) :
  let w := (serve h now (POST_pullRequest_create
                           (Some (mkCreatePR_req prID prName authorID)))).2 in
  let json := <["Content-Type" := "application/json"]> ∅ in
  let envelope code message :=
    a_map [("error", a_map [("code", a_string code); ("message", message)])] in
  ((∃ p, p ∈ prs (Repo (svc h)) ∧ prs_id p = prID) ->
   w = mkResponseWriter json (Some 409)
         [envelope "PR_EXISTS" (a_string "PR id already exists")])
  ∧ ((∀ p, p ∈ prs (Repo (svc h)) -> prs_id p ≠ prID) ->
     ((∀ u, u ∈ users (Repo (svc h)) -> users_id u ≠ authorID) ->
      w = mkResponseWriter json (Some 404)
            [envelope "NOT_FOUND" (a_string "author/team not found")])
     ∧ ((∃ u, u ∈ users (Repo (svc h)) ∧ users_id u = authorID) ->
        ((∃ e, repo.GetUserTeam (Repo (svc h)) authorID = Err e) ->
         w = mkResponseWriter json (Some 500)
               [envelope "INTERNAL_ERROR"
                         (a_error (errors_New "author has no team"))])
        ∧ ((∃ teamName, repo.GetUserTeam (Repo (svc h)) authorID
                        = Ok teamName) ->
           ∃ ids,
             w = mkResponseWriter json (Some 201)
                   [a_map [("pr",
                            a_map [("pull_request_id", a_string prID);
                                   ("pull_request_name", a_string prName);
                                   ("author_id", a_string authorID);
                                   ("status", a_string "OPEN");
                                   ("assigned_reviewers", a_strings ids);
                                   ("createdAt", a_nil)])]]
             ∧ length ids ≤ 2 ∧ (authorID ∉ ids)))).
Proof.
  destruct h as [s]. cbv zeta. unfold serve, RegisterRoutes, CreatePR.
  cbn [svc CreatePR_PullRequestID CreatePR_PullRequestName CreatePR_AuthorID].
  split.
  { intros (p & Hp & Hid). unfold service.CreatePR.
    cbn [repo.PRExists Repo_RepoInterface]. by rewrite (PRExists_true _ _ p). }
  intros Hnew. apply pr_rows_nil in Hnew.
  pose proof (proj2 (PRExists_false _ _) Hnew) as Hex. split.
  { intros Hno. unfold service.CreatePR.
    cbn [repo.PRExists repo.GetUserByID Repo_RepoInterface].
    by rewrite Hex, GetUserByID_Err. }
  intros (u & Hu & Hid).
  destruct (GetUserByID_Ok _ _ _ Hu Hid) as (u' & Hget & _). split.
  { intros (e & He). unfold service.CreatePR.
    cbn [repo.PRExists repo.GetUserByID Repo_RepoInterface].
    rewrite Hex, Hget. by rewrite He. }
  intros (teamName & Ht).
  destruct (service.CreatePR s prID prName authorID) as [s' res] eqn:Hrun.
  assert (∃ reviewers, res = Ok (mkPR prID prName authorID "OPEN" reviewers))
    as (reviewers & ->).
  { revert Hrun. unfold service.CreatePR.
    cbn [repo.PRExists repo.GetUserByID repo.CreatePRWithID
         Repo_RepoInterface].
    rewrite Hex, Hget, Ht, (CreatePRWithID_fresh _ _ _ _ Hnew).
    destruct (assignReviewers _ teamName authorID) as [s2 res2].
    intros [= _ <-]. eauto. }
  cbn [snd]. rewrite Encode_created.
  exists (User_ID <$> reviewers). split; [done|].
  apply CreatePR_Ok_inv in Hrun
    as (teamName' & reviewers' & _ & _ & _ & [= <-] & Hlen & Hsub & _).
  rewrite length_fmap. split; [lia|].
  intros (r & -> & Hr)%list_elem_of_fmap. apply Hsub in Hr.
  apply list_elem_of_fmap in Hr as (c & -> & Hc).
  apply elem_of_team_users in Hc as (_ & Hact & _).
  apply active_except_true in Hact as [_ Hne]. done.
Qed.

Lemma create_route_responses_witness :
  (serve (NewHandler dev_store) "" (POST_pullRequest_create
            (Some (mkCreatePR_req "pr-1" "Again" "author1")))).2
  = mkResponseWriter (<["Content-Type" := "application/json"]> ∅) (Some 409)
      [a_map [("error", a_map [("code", a_string "PR_EXISTS");
                               ("message", a_string "PR id already exists")])]]
  ∧ (serve (NewHandler lone_user_store) "" (POST_pullRequest_create
              (Some (mkCreatePR_req "pr-1" "T" "u1")))).2
    = mkResponseWriter (<["Content-Type" := "application/json"]> ∅) (Some 500)
        [a_map [("error",
                 a_map [("code", a_string "INTERNAL_ERROR");
                        ("message",
                         a_error (errors_New "author has no team"))])]].
Proof.
  split.
  - apply (proj1 (create_route_responses (NewHandler dev_store) ""
                    "pr-1" "Again" "author1")).
    exists (mk_prs "pr-1" "Test PR" "author1" "OPEN").
    split; [by_decide|reflexivity].
  - destruct (proj2 (create_route_responses (NewHandler lone_user_store) ""
                       "pr-1" "T" "u1")) as [_ Hknown].
    + vm_compute. intros p []%elem_of_nil.
    + destruct Hknown as [Hnoteam _].
      * exists (mk_users "u1" "User1" true). split; [by_decide|reflexivity].
      * apply Hnoteam. eexists. vm_compute. reflexivity.
Defined.

(** X23: the responses of the route that adds a team.  A name that is
    taken gives 400 TEAM_EXISTS.  On a store whose keys hold, a fresh name
    and members with distinct ids give 201 with the team name and, as
    members, exactly the users of the request, with the names and flags of
    the request. *)
Theorem add_team_route_responses (h : Handler DB) (now : string)
    (teamName : string) (members : list TeamMember) :
  let w := (serve h now (POST_team_add
                           (Some (mkCreateTeam_req teamName members)))).2 in
  let json := <["Content-Type" := "application/json"]> ∅ in
  ((∃ t, t ∈ teams (Repo (svc h)) ∧ teams_name t = teamName) ->
   w = mkResponseWriter json (Some 400)
         [a_map [("error",
                  a_map [("code", a_string "TEAM_EXISTS");
                         ("message", a_string "team_name already exists")])]])
  ∧ (keys (Repo (svc h)) ->
     (∀ t, t ∈ teams (Repo (svc h)) -> teams_name t ≠ teamName) ->
     NoDup (TeamMember_UserID <$> members) ->
     ∃ listed,
       w = mkResponseWriter json (Some 201)
             [a_map [("team", a_map [("team_name", a_string teamName);
                                     ("members", a_Users listed)])]]
       ∧ listed ≡ₚ (fun m => mkUser (TeamMember_UserID m)
                                     (TeamMember_Username m)
                                     (TeamMember_IsActive m) "") <$> members).
Proof.
  destruct h as [s]. cbv zeta. unfold serve, RegisterRoutes, CreateTeam.
  cbn [svc CreateTeam_TeamName CreateTeam_Members].
  split.
  { intros Hex. by rewrite (CreateTeam_taken s teamName members Hex). }
  intros Hk Hnew Hnd.
  destruct (CreateTeam_listed s teamName members Hk Hnew Hnd)
    as (s' & listed & -> & _ & -> & Hperm & _).
  exists listed. split; [|exact Hperm]. cbn [snd Team_Name].
  by rewrite Encode_created.
Qed.

Lemma add_team_route_responses_witness :
  ∃ listed,
    (serve (NewHandler team_store) ""
           (POST_team_add
              (Some (mkCreateTeam_req "ops"
                       [mkTeamMember "reviewer1" "Renamed" false;
                        mkTeamMember "op1" "Operator" true])))).2
    = mkResponseWriter (<["Content-Type" := "application/json"]> ∅) (Some 201)
        [a_map [("team", a_map [("team_name", a_string "ops");
                                ("members", a_Users listed)])]]
    ∧ listed ≡ₚ [mkUser "reviewer1" "Renamed" false "";
                 mkUser "op1" "Operator" true ""].
Proof.
  destruct (proj2 (add_team_route_responses (NewHandler team_store) "" "ops"
                     [mkTeamMember "reviewer1" "Renamed" false;
                      mkTeamMember "op1" "Operator" true]))
    as (listed & Hw & Hperm).
  - exact team_store_keys.
  - vm_compute. intros t Ht.
    repeat (apply elem_of_cons in Ht as [->|Ht]; [discriminate|]).
    by apply elem_of_nil in Ht.
  - by_decide.
  - exists listed. split; [exact Hw|exact Hperm].
Defined.

End endpoints.
